(** * backup-restore: the value normaliser [convertTypes] and the restore loop

    A shallow embedding of [src/index.js].  JavaScript objects and arrays live
    in an explicit store, so that the in-place updates made by [convertTypes]
    and the sharing between its argument and its result are visible.  The
    engine's [Date.parse] and the driver's [ObjectId] are taken as a
    parameter ([Platform]); the database and the module loader are an oracle
    ([Env]); the file system, the engine's [JSON] routines and the prompt
    library, which [main], [loadConfig], [saveConfig] and [getUserInput]
    call, are another ([World]). *)

From Stdlib Require Import ZArith Lia Ascii String.
From stdpp Require Import base list strings pretty.

Open Scope Z_scope.
Open Scope string_scope.
Open Scope list_scope.

(** ** Values and the store *)

Abbreviation loc := nat (only parsing).

(** A JavaScript value.  Plain objects and arrays are references into the
    store.  [Date] and [ObjectId] instances are never updated and never
    compared by identity in this program, so they are carried as immutable
    values: [VDate t] holds the time value in milliseconds ([None] is the
    invalid date, time value NaN), [VOid id] holds the identifier in its
    hexadecimal form.  A number is only ever copied, tested for truthiness or
    compared with 0, so an integer stands for it. *)
Inductive jsvalue : Type :=
| VUndefined
| VNull
| VBool (b : bool)
| VNum (n : Z)
| VStr (s : string)
| VDate (t : option Z)
| VOid (id : string)
| VRef (l : loc).

#[global] Instance jsvalue_eq_dec : EqDecision jsvalue.
Proof. solve_decision. Defined.

Abbreviation props := (list (string * jsvalue)).

(** A stored object: a plain object with its own enumerable properties in
    enumeration order, or a dense array. *)
Inductive obj : Type :=
| OPlain (ps : props)
| OArr (elems : list jsvalue).

Abbreviation heap := (list obj).

Inductive exn : Type :=
| TypeError
| BSONError
| ModuleError
| DriverError (msg : string).

(** The result of running a piece of the program from a store: a value, a
    thrown exception, or [Abort] when the model gives no behaviour (the
    recursion budget is used up, or a reference is not allocated).  The
    [RangeError] of an engine whose stack is exhausted is not among the
    exceptions: a recursion deeper than the budget is an [Abort]. *)
Inductive outcome (A : Type) : Type :=
| Val (a : A) (h : heap)
| Exn (e : exn) (h : heap)
| Abort.
Arguments Val {A} a h.
Arguments Exn {A} e h.
Arguments Abort {A}.

Definition M (A : Type) : Type := heap -> outcome A.

Definition ret {A} (a : A) : M A := fun h => Val a h.
Definition throw {A} (e : exn) : M A := fun h => Exn e h.
Definition abort {A} : M A := fun _ => Abort.
Definition bind {A B} (m : M A) (k : A -> M B) : M B :=
  fun h => match m h with
           | Val a h' => k a h'
           | Exn e h' => Exn e h'
           | Abort => Abort
           end.

Notation "'run' x ':=' m 'in' k" := (bind m (fun x => k))
  (at level 10, x name, m at level 100, k at level 200).
Notation "m ';;;' k" := (bind m (fun _ => k))
  (at level 100, k at level 200, right associativity).

Definition mapM {A B} (f : A -> M B) : list A -> M (list B) :=
  fix go (xs : list A) : M (list B) :=
    match xs with
    | [] => ret []
    | x :: xs' => run y := f x in run ys := go xs' in ret (y :: ys)
    end.

(** [new]: the object goes to the first free location. *)
Definition alloc (o : obj) : M jsvalue :=
  fun h => Val (VRef (length h)) (h ++ [o]).

(** ** Properties of objects *)

Fixpoint get_prop (k : string) (ps : props) : option jsvalue :=
  match ps with
  | [] => None
  | (k', v) :: ps' => if String.eqb k k' then Some v else get_prop k ps'
  end.

Fixpoint set_prop (k : string) (v : jsvalue) (ps : props) : props :=
  match ps with
  | [] => [(k, v)]
  | (k', v') :: ps' =>
      if String.eqb k k' then (k, v) :: ps' else (k', v') :: set_prop k v ps'
  end.

(** [convertedData[key] = v] on an object literal under construction.  The key
    [__proto__] reaches the prototype setter and creates no own property.
    Prototypes are not part of the model: what the setter does to the
    prototype of [convertedData], and to later reads of inherited
    properties of it, is not represented. *)
Definition assign_prop (k : string) (v : jsvalue) (ps : props) : props :=
  if String.eqb k "__proto__" then ps else set_prop k v ps.

(** The index keys ["0"], ["1"], ... of an array or a string of length [n]. *)
Definition index_keys (n : nat) : list string :=
  (fun i : nat => pretty i) <$> seq 0 n.

(** The array index a property key denotes, if it is a canonical numeral. *)
Fixpoint numeral (s : string) (acc : nat) : option nat :=
  match s with
  | EmptyString => Some acc
  | String c s' =>
      let n := nat_of_ascii c in
      if ((48 <=? n) && (n <=? 57))%nat then numeral s' (10 * acc + (n - 48))%nat
      else None
  end.

Definition index_of (k : string) (n : nat) : option nat :=
  match k with
  | EmptyString => None
  | String c k' =>
      if Ascii.eqb c "0" && negb (String.eqb k' "") then None
      else i ← numeral k 0; if (i <? n)%nat then Some i else None
  end.

Fixpoint string_nth (s : string) (i : nat) : option string :=
  match s, i with
  | EmptyString, _ => None
  | String c _, O => Some (String c EmptyString)
  | String _ s', S i' => string_nth s' i'
  end.

Definition nat_num (n : nat) : jsvalue := VNum (Z.of_nat n).

(** [x[k]] and [x.k].  The keys the program reads are [_id], [date],
    [productId], [length] and the keys a [for-in] hands out; none of them but
    [length] is found on a built-in prototype.  A string is a sequence of
    bytes here: its [length] and its characters are those of the engine for
    an ASCII string. *)
Definition get (x : jsvalue) (k : string) : M jsvalue :=
  fun h =>
    match x with
    | VUndefined | VNull => Exn TypeError h
    | VStr s =>
        if String.eqb k "length" then Val (nat_num (String.length s)) h
        else Val (default VUndefined
                    (VStr <$> (index_of k (String.length s) ≫= string_nth s))) h
    | VRef l =>
        match h !! l with
        | Some (OPlain ps) => Val (default VUndefined (get_prop k ps)) h
        | Some (OArr es) =>
            if String.eqb k "length" then Val (nat_num (length es)) h
            else Val (default VUndefined (index_of k (length es) ≫= (es !!.))) h
        | None => Abort
        end
    | _ => Val VUndefined h
    end.

(** [x.k = v] where [x] is an object that already answered [x.k] with a
    string (the only assignments to a stored object the program makes). *)
Definition set (x : jsvalue) (k : string) (v : jsvalue) : M unit :=
  fun h =>
    match x with
    | VUndefined | VNull => Exn TypeError h
    | VRef l =>
        match h !! l with
        | Some (OPlain ps) => Val tt (<[l := OPlain (set_prop k v ps)]> h)
        | _ => Abort
        end
    | _ => Val tt h
    end.

(** The keys visited by [for (key in x)] (own properties only: the values of
    the model have no enumerable inherited ones).  A [Date] has no enumerable
    property.  The [ObjectId] class belongs to the driver, not to this
    repository: an identifier is opaque here and is given no enumerable
    property, whatever a release of the driver stores in its instances.  The
    program enumerates an identifier only when it normalizes a value that
    already holds one. *)
Definition own_keys (x : jsvalue) : M (list string) :=
  fun h =>
    match x with
    | VStr s => Val (index_keys (String.length s)) h
    | VRef l =>
        match h !! l with
        | Some (OPlain ps) => Val (ps.*1) h
        | Some (OArr es) => Val (index_keys (length es)) h
        | None => Abort
        end
    | _ => Val [] h
    end.

Definition has_prop (k : string) (ps : props) : bool :=
  match get_prop k ps with
  | Some _ => true
  | None => false
  end.

Definition has_index (k : string) (n : nat) : bool :=
  match index_of k n with
  | Some _ => true
  | None => false
  end.

(** [x.hasOwnProperty(k)] for an object [x]: the method of
    [Object.prototype], unless [x] has an own property named
    [hasOwnProperty], which hides the method and is not a function. *)
Definition hasOwnProperty (x : jsvalue) (k : string) : M bool :=
  fun h =>
    match x with
    | VUndefined | VNull => Exn TypeError h
    | VRef l =>
        match h !! l with
        | Some (OPlain ps) =>
            match get_prop "hasOwnProperty" ps with
            | Some _ => Exn TypeError h
            | None => Val (has_prop k ps) h
            end
        | Some (OArr es) =>
            Val (String.eqb k "length" || has_index k (length es)) h
        | None => Abort
        end
    | VStr s =>
        Val (String.eqb k "length" || has_index k (String.length s)) h
    | _ => Val false h
    end.

Definition truthy (v : jsvalue) : bool :=
  match v with
  | VUndefined | VNull => false
  | VBool b => b
  | VNum n => negb (n =? 0)%Z
  | VStr s => negb (String.eqb s "")
  | VDate _ | VOid _ | VRef _ => true
  end.

Inductive jstype : Type :=
| TyUndefined | TyObject | TyBoolean | TyNumber | TyString.

#[global] Instance jstype_eq_dec : EqDecision jstype.
Proof. solve_decision. Defined.

Definition typeof (v : jsvalue) : jstype :=
  match v with
  | VUndefined => TyUndefined
  | VNull => TyObject
  | VBool _ => TyBoolean
  | VNum _ => TyNumber
  | VStr _ => TyString
  | VDate _ | VOid _ | VRef _ => TyObject
  end.

(** [Array.isArray(x)] *)
Definition isArray (x : jsvalue) : M bool :=
  fun h =>
    match x with
    | VRef l =>
        match h !! l with
        | Some (OArr _) => Val true h
        | Some (OPlain _) => Val false h
        | None => Abort
        end
    | _ => Val false h
    end.

(** [x.map(f)]: [Array.prototype.map] on an array; on anything else [x.map]
    is not a function (the model has no function values, so an own property
    named [map] is not callable either).  The program never updates an array,
    so the elements are those of the array when the call starts; the new
    array cannot be reached before [map] returns, so it enters the store
    then. *)
Definition array_map (f : jsvalue -> M jsvalue) (x : jsvalue) : M jsvalue :=
  fun h =>
    match x with
    | VRef l =>
        match h !! l with
        | Some (OArr es) => (run es' := mapM f es in alloc (OArr es')) h
        | Some (OPlain _) => Exn TypeError h
        | None => Abort
        end
    | _ => Exn TypeError h
    end.

(** ** The platform: [Date.parse] and [ObjectId] *)

Record Platform : Type := {
  (** [Date.parse(s)]; [None] is NaN. *)
  Date_parse : string -> option Z;
  (** [ObjectId.isValid(s)] on a string. *)
  ObjectId_isValid : string -> bool;
  (** [new ObjectId(s)] on a string: the identifier, or [None] when the
      constructor throws. *)
  ObjectId_new : string -> option string
}.

Section Normalizer.

Variable P : Platform.

Definition new_ObjectId (s : string) : M jsvalue :=
  match ObjectId_new P s with
  | Some id => ret (VOid id)
  | None => throw BSONError
  end.

Definition new_Date (s : string) : jsvalue := VDate (Date_parse P s).

(** [typeof value === 'string' && !isNaN(Date.parse(value))] *)
Definition parses_as_date (v : jsvalue) : bool :=
  match v with
  | VStr s => bool_decide (is_Some (Date_parse P s))
  | _ => false
  end.

(** [if (x.k && typeof x.k === 'string') x.k = new ObjectId(x.k)] *)
Definition convert_id_in_place (x : jsvalue) (k : string) : M unit :=
  run v := get x k in
  match v with
  | VStr s => if truthy v then (run o := new_ObjectId s in set x k o) else ret tt
  | _ => ret tt
  end.

(** [if (x.k && typeof x.k === 'string') x.k = new Date(x.k)] *)
Definition convert_date_in_place (x : jsvalue) (k : string) : M unit :=
  run v := get x k in
  match v with
  | VStr s => if truthy v then set x k (new_Date s) else ret tt
  | _ => ret tt
  end.

(** The callback of [value.map] for the key [payments] (lines 85-94). *)
Definition convert_payment (payment : jsvalue) : M jsvalue :=
  convert_id_in_place payment "_id" ;;;
  convert_date_in_place payment "date" ;;;
  ret payment.

(** The callback of [value.map] for the key [purchasedProducts]
    (lines 96-112). *)
Definition convert_purchasedProduct (purchasedProduct : jsvalue) : M jsvalue :=
  convert_id_in_place purchasedProduct "_id" ;;;
  convert_id_in_place purchasedProduct "productId" ;;;
  ret purchasedProduct.

(** The callback of [value.map] for any other array (lines 115-119). *)
Definition convert_item (item : jsvalue) : M jsvalue :=
  match item with
  | VStr s => if ObjectId_isValid P s then new_ObjectId s else ret item
  | _ => ret item
  end.

(** The chain of conditions of lines 69-123: what is stored under [key] in
    [convertedData], given [value = data[key]].  [rec] is the recursive call. *)
Definition convert_field (rec : jsvalue -> M jsvalue) (key : string) (value : jsvalue)
  : M jsvalue :=
  if String.eqb key "name" then ret value
  else if parses_as_date value then
    match value with
    | VStr s => ret (new_Date s)
    | _ => ret value
    end
  else if String.eqb key "_id" && bool_decide (typeof value = TyString) then
    match value with
    | VStr s => new_ObjectId s
    | _ => ret value
    end
  else if String.eqb key "payments" then array_map convert_payment value
  else if String.eqb key "purchasedProducts" then
    array_map convert_purchasedProduct value
  else
    run is_arr := isArray value in
    if is_arr then array_map convert_item value
    else rec value.

(** One turn of the [for-in] loop: test [data.hasOwnProperty(key)], read
    [data[key]], convert, assign. *)
Definition convert_key (rec : jsvalue -> M jsvalue) (data : jsvalue) (key : string)
    (convertedData : props) : M props :=
  run own := hasOwnProperty data key in
  if own then
    run value := get data key in
    run v' := convert_field rec key value in
    ret (assign_prop key v' convertedData)
  else ret convertedData.

Fixpoint for_in {A} (body : string -> A -> M A) (keys : list string) (acc : A)
  : M A :=
  match keys with
  | [] => ret acc
  | k :: ks => run acc' := body k acc in for_in body ks acc'
  end.

(** [convertTypes(data)], with a recursion budget.  The object literal
    [convertedData] is local to the call until it is returned, so it enters
    the store when the loop is over. *)
Fixpoint convertTypes (fuel : nat) (data : jsvalue) : M jsvalue :=
  match fuel with
  | O => abort
  | S fuel' =>
      run is_arr := isArray data in
      if is_arr then array_map (convertTypes fuel') data
      else if bool_decide (typeof data = TyObject) && negb (bool_decide (data = VNull))
      then
        run keys := own_keys data in
        run convertedData := for_in (convert_key (convertTypes fuel') data) keys [] in
        alloc (OPlain convertedData)
      else ret data
  end.

End Normalizer.

(** ** Parsed JSON and its representation in the store *)

(** The value [require] returns for a [.json] file.  The fields of an object
    are listed in the order in which the engine enumerates them. *)
Inductive json : Type :=
| JNull
| JBool (b : bool)
| JNum (n : Z)
| JStr (s : string)
| JArr (items : list json)
| JObj (fields : list (string * json)).

(** Building the parsed value in the store, children first.  A repeated key
    keeps its first position and its last value, as [JSON.parse] does. *)
Fixpoint load (j : json) : M jsvalue :=
  match j with
  | JNull => ret VNull
  | JBool b => ret (VBool b)
  | JNum n => ret (VNum n)
  | JStr s => ret (VStr s)
  | JArr items => run vs := mapM load items in alloc (OArr vs)
  | JObj fields =>
      run ps := mapM (fun kj => run v := load (snd kj) in ret (fst kj, v)) fields in
      alloc (OPlain (foldl (fun acc kv => set_prop (fst kv) (snd kv) acc) [] ps))
  end.

(** ** A reference platform

    Used to run the program on concrete inputs.  The theorems below that
    quantify over [Platform] do not depend on it. *)
Module Reference.

#[local] Open Scope Z_scope.

Definition digit (c : ascii) : option Z :=
  let n := Z.of_nat (nat_of_ascii c) in
  if (48 <=? n) && (n <=? 57) then Some (n - 48) else None.

(** Exactly [n] decimal digits at the head of [s]. *)
Fixpoint digits (n : nat) (acc : Z) (s : string) : option (Z * string) :=
  match n with
  | O => Some (acc, s)
  | S n' =>
      match s with
      | String c s' =>
          match digit c with
          | Some d => digits n' (10 * acc + d) s'
          | None => None
          end
      | EmptyString => None
      end
  end.

(** Days from 1970-01-01 to the given civil day (proleptic Gregorian). *)
Definition days_from_civil (y m d : Z) : Z :=
  let y' := if m <=? 2 then y - 1 else y in
  let era := y' / 400 in
  let yoe := y' - era * 400 in
  let mp := if m <=? 2 then m + 9 else m - 3 in
  let doy := (153 * mp + 2) / 5 + d - 1 in
  let doe := yoe * 365 + yoe / 4 - yoe / 100 + doy in
  era * 146097 + doe - 719468.

Definition expect (c : ascii) (s : string) : option string :=
  match s with
  | String c' s' => if Ascii.eqb c c' then Some s' else None
  | EmptyString => None
  end.

(** [Z] or [+HH:mm] or [-HH:mm] or nothing, up to the end of the string:
    the offset in minutes.  The platform's local time zone is UTC. *)
Definition offset (s : string) : option Z :=
  match s with
  | EmptyString => Some 0
  | String c s' =>
      if Ascii.eqb c "Z" then (if String.eqb s' "" then Some 0 else None)
      else
        let sign := if Ascii.eqb c "+" then Some 1
                    else if Ascii.eqb c "-" then Some (-1) else None in
        sg ← sign;
        '(hh, s1) ← digits 2 0 s';
        s2 ← expect ":" s1;
        '(mm, s3) ← digits 2 0 s2;
        if String.eqb s3 "" && (hh <=? 23) && (mm <=? 59)
        then Some (sg * (hh * 60 + mm)) else None
  end.

(** [HH:mm], [HH:mm:ss] or [HH:mm:ss.sss], then the offset: milliseconds
    within the day, offset applied. *)
Definition time_of_day (s : string) : option Z :=
  '(hh, s1) ← digits 2 0 s;
  s2 ← expect ":" s1;
  '(mm, s3) ← digits 2 0 s2;
  '(ss, ms, s4) ←
    match expect ":" s3 with
    | Some s5 =>
        '(ss, s6) ← digits 2 0 s5;
        match expect "." s6 with
        | Some s7 => '(ms, r) ← digits 3 0 s7; Some (ss, ms, r)
        | None => Some (ss, 0, s6)
        end
    | None => Some (0, 0, s3)
    end;
  off ← offset s4;
  if ((hh <=? 23) || ((hh =? 24) && (mm =? 0) && (ss =? 0) && (ms =? 0)))
     && (mm <=? 59) && (ss <=? 59)
  then Some (hh * 3600000 + mm * 60000 + ss * 1000 + ms - off * 60000)
  else None.

(** The date-time string format of the language standard
    ([YYYY], [YYYY-MM], [YYYY-MM-DD], each optionally followed by [T] and a
    time), with the bounds the V8 engine puts on months and days.  Every
    other string is NaN here; an engine is free to accept more, and V8 does
    (a word followed by a number, for one). *)
Definition date_parse (s : string) : option Z :=
  '(y, s1) ← digits 4 0 s;
  '(m, d, rest) ←
    match expect "-" s1 with
    | Some s2 =>
        '(m, s3) ← digits 2 0 s2;
        match expect "-" s3 with
        | Some s4 => '(d, s5) ← digits 2 0 s4; Some (m, d, s5)
        | None => Some (m, 1, s3)
        end
    | None => Some (1, 1, s1)
    end;
  t ← match rest with
      | EmptyString => Some 0
      | String c r => if Ascii.eqb c "T" then time_of_day r else None
      end;
  if (1 <=? m) && (m <=? 12) && (1 <=? d) && (d <=? 31)
  then Some (days_from_civil y m d * 86400000 + t)
  else None.

Definition is_hex (c : ascii) : bool :=
  let n := nat_of_ascii c in
  ((48 <=? n) && (n <=? 57) || (65 <=? n) && (n <=? 70)
   || (97 <=? n) && (n <=? 102))%nat.

Definition lower (c : ascii) : ascii :=
  let n := nat_of_ascii c in
  if ((65 <=? n) && (n <=? 90))%nat then ascii_of_nat (n + 32) else c.

Fixpoint string_map (f : ascii -> ascii) (s : string) : string :=
  match s with
  | EmptyString => EmptyString
  | String c s' => String (f c) (string_map f s')
  end.

Fixpoint string_forall (f : ascii -> bool) (s : string) : bool :=
  match s with
  | EmptyString => true
  | String c s' => f c && string_forall f s'
  end.

(** Modelled from the spec: the identifier format of the [ObjectId] class of
    the driver, which is not part of this repository; an identifier is a
    string of 24 hexadecimal characters, and the constructor throws on
    anything else ("non-hex or wrong length"). *)
Definition oid_isValid (s : string) : bool :=
  (String.length s =? 24)%nat && string_forall is_hex s.

Definition oid_new (s : string) : option string :=
  if oid_isValid s then Some (string_map lower s) else None.

Definition platform : Platform :=
  {| Date_parse := date_parse;
     ObjectId_isValid := oid_isValid;
     ObjectId_new := oid_new |}.

End Reference.

(** ** The Restorer *)

(** What runs outside the program: the driver, the database server behind
    it, and the module loader.  The server answers a bulk insert from its
    own state; it does not write to the program's store.  Every call is
    answered, with a result or with an error: a promise that never settles
    is not represented. *)
Record Env : Type := {
  db : Type;
  (** [new MongoClient(dbUri, options)]: the constructor may refuse the URI *)
  client_new : string -> option exn;
  (** [await client.connect()] *)
  connect : string -> option exn;
  (** [client.db(dbName)] *)
  open_db : string -> string -> exn + db;
  (** [db.collection(collectionName)] *)
  collection : db -> string -> option exn;
  (** [await collection.insertMany(docs)] *)
  insertMany : db -> string -> heap -> jsvalue -> db * option exn;
  (** [await client.close()] *)
  close : string -> option exn;
  (** [require(backupFilePath)] *)
  require : string -> exn + json
}.

(** What an observer sees: the console lines and the calls to the driver. *)
Inductive event : Type :=
| Info_connecting (dbUri : string)
| Call_connect (dbUri : string)
| Info_connected
| Info_reading (backupFilePath : string)
| Warn_no_data (collectionName : string)
| Info_restoring (collectionName : string) (len : jsvalue)
| Call_insertMany (collectionName : string) (docs : jsvalue)
| Success_restored (collectionName : string) (len : jsvalue)
| Success_completed
| Error_restoration (e : exn)
| Call_close
| Info_closed.

Inductive completion (S : Type) : Type :=
| Done (s : S)
| Thrown (e : exn) (s : S)
| Aborted.
Arguments Done {S} s.
Arguments Thrown {S} e s.
Arguments Aborted {S}.

(** How the promise returned by [restoreBackup] settles, with the events of
    the run. *)
Inductive promise : Type :=
| Resolved (t : list event)
| Rejected (e : exn) (t : list event).

Section Restorer.

Variable P : Platform.
Variable E : Env.

Record rstate : Type := {
  store : heap;
  database : db E;
  trace : list event
}.

Definition emit (ev : event) (s : rstate) : rstate :=
  {| store := store s; database := database s; trace := trace s ++ [ev] |}.

Definition with_store (h : heap) (s : rstate) : rstate :=
  {| store := h; database := database s; trace := trace s |}.

(** Running a store computation inside the loop body. *)
Definition lift {A} (m : M A) (s : rstate) (k : A -> rstate -> completion rstate)
  : completion rstate :=
  match m (store s) with
  | Val a h => k a (with_store h s)
  | Exn e h => Thrown e (with_store h s)
  | Abort => Aborted
  end.

(** The body of the loop of lines 149-171 for one key of [backupData]. *)
Definition restore_collection (fuel : nat) (backupData : jsvalue)
    (collectionName : string) (s : rstate) : completion rstate :=
  lift (get backupData collectionName) s (fun collectionData s =>
  lift (get collectionData "length") s (fun len s =>
  if bool_decide (len = VNum 0) then Done (emit (Warn_no_data collectionName) s)
  else
    let s := emit (Info_restoring collectionName len) s in
    match collection E (database s) collectionName with
    | Some e => Thrown e s
    | None =>
        lift (array_map (convertTypes P fuel) collectionData) s (fun convertedData s =>
        let s := emit (Call_insertMany collectionName convertedData) s in
        let '(d, r) := insertMany E (database s) collectionName (store s) convertedData in
        let s := {| store := store s; database := d; trace := trace s |} in
        match r with
        | Some e => Thrown e s
        | None =>
            lift (get convertedData "length") s (fun n s =>
            Done (emit (Success_restored collectionName n) s))
        end)
    end)).

Fixpoint restore_loop (fuel : nat) (backupData : jsvalue)
    (keys : list string) (s : rstate) : completion rstate :=
  match keys with
  | [] => Done s
  | collectionName :: rest =>
      match restore_collection fuel backupData collectionName s with
      | Done s' => restore_loop fuel backupData rest s'
      | Thrown e s' => Thrown e s'
      | Aborted => Aborted
      end
  end.

(** The [catch] and [finally] blocks of lines 174-179. *)
Definition finish (dbUri : string) (t : list event) (failure : option exn)
  : promise :=
  let t := t ++ match failure with
                | Some e => [Error_restoration e]
                | None => []
                end ++ [Call_close] in
  match close E dbUri with
  | Some e => Rejected e t
  | None => Resolved (t ++ [Info_closed])
  end.

(** [restoreBackup(backupFilePath, dbUri, dbName)]: how the run ends, or
    [None] when the model gives no behaviour. *)
Definition restoreBackup (fuel : nat) (backupFilePath dbUri dbName : string)
  : option promise :=
  match client_new E dbUri with
  | Some e => Some (Rejected e [])
  | None =>
  let t := [Info_connecting dbUri; Call_connect dbUri] in
  match connect E dbUri with
  | Some e => Some (finish dbUri t (Some e))
  | None =>
  let t := t ++ [Info_connected] in
  match open_db E dbUri dbName with
  | inl e => Some (finish dbUri t (Some e))
  | inr d =>
  let t := t ++ [Info_reading backupFilePath] in
  match require E backupFilePath with
  | inl e => Some (finish dbUri t (Some e))
  | inr j =>
  match (run backupData := load j in
         run keys := own_keys backupData in ret (backupData, keys)) [] with
  | Val (backupData, keys) h =>
      match restore_loop fuel backupData keys
              {| store := h; database := d; trace := t |} with
      | Done s => Some (finish dbUri (trace s ++ [Success_completed]) None)
      | Thrown e s => Some (finish dbUri (trace s) (Some e))
      | Aborted => None
      end
  | _ => None
  end end end end end.

End Restorer.

(** A server that refuses every insert into one collection, and a loader
    that knows two backup files. *)
Module Example.

Definition backup : json :=
  JObj [("orders", JArr [JObj [("total", JNum 3)]]);
        ("archive", JArr []);
        ("users", JArr [JObj [("_id", JStr "507f1f77bcf86cd799439011");
                              ("name", JStr "Alice");
                              ("createdAt", JStr "2023-01-01T00:00:00Z")]])].

Definition broken : json :=
  JObj [("orders", JArr [JObj [("_id", JStr "not-an-id")]]);
        ("users", JArr [JObj [("name", JStr "Alice")]])].

Definition env (refused : string) : Env :=
  {| db := unit;
     client_new := fun _ => None;
     connect := fun _ => None;
     open_db := fun _ _ => inr tt;
     collection := fun _ _ => None;
     insertMany := fun d collectionName _ _ =>
       (d, if String.eqb collectionName refused
           then Some (DriverError "write refused") else None);
     close := fun _ => None;
     require := fun path =>
       if String.eqb path "backup.json" then inr backup
       else if String.eqb path "broken.json" then inr broken
       else inl ModuleError |}.

End Example.

(** ** The configuration file and the entry point *)

(** The result of a call into the file system, the JSON routines or the
    prompt library: a value, or the message of the error thrown. *)
Inductive result (A : Type) : Type :=
| Ok (a : A)
| Throws (message : string).
Arguments Ok {A} a.
Arguments Throws {A} message.

(** One entry of the array [questions] of [getUserInput]. *)
Record question : Type := {
  q_type : string;
  q_name : string;
  q_message : string;
  q_default : jsvalue;
  q_validate : string -> jsvalue
}.

(** What [main] and its helpers use outside the program: the file system
    with its state, the engine's [JSON] and [trim], the prompt library, and
    the backend as it stands for a state of the file system.  The prompt
    answers the three [input] questions with three strings. *)
Record World : Type := {
  files : Type;
  (** [path.join(__dirname, 'config.json')] *)
  CONFIG_FILE : string;
  existsSync : files -> string -> bool;
  readFileSync : files -> string -> result string;
  writeFileSync : files -> string -> string -> files * option string;
  JSON_parse : string -> result json;
  (** [JSON.stringify(value, null, 2)] *)
  JSON_stringify : json -> string;
  String_trim : string -> string;
  (** [await prompt(questions)]: the answers to [backupFilePath], [dbUri]
      and [dbName], or a rejection *)
  prompt : list question -> result (string * string * string);
  backend : files -> Env
}.

(** What [main] can catch. *)
Inductive failure : Type :=
| Message (message : string)
| Restoration_rejected (e : exn).

(** What an observer of [main] sees. *)
Inductive mevent : Type :=
| Asked (questions : list question)
| Call_writeFileSync (path text : string)
| Info_config_saved
| Error_not_found (backupFilePath : string)
| Restoration (t : list event)
| Error_went_wrong (e : failure).

Section Entry.

Variable P : Platform.
Variable W : World.

(** [loadConfig()] (lines 10-16); [JNull] is the [null] of line 15. *)
Definition loadConfig (f : files W) : result json :=
  if existsSync W f (CONFIG_FILE W) then
    match readFileSync W f (CONFIG_FILE W) with
    | Ok configData => JSON_parse W configData
    | Throws m => Throws m
    end
  else Ok JNull.

(** [saveConfig(config)] (lines 19-21) *)
Definition saveConfig (config : json) (f : files W) : files W * option string :=
  writeFileSync W f (CONFIG_FILE W) (JSON_stringify W config).

(** [a || b] *)
Definition or_else (a b : jsvalue) : jsvalue := if truthy a then a else b.

(** [(input) => input.trim() ? true : message] *)
Definition validate (message : string) (input : string) : jsvalue :=
  if truthy (VStr (String_trim W input)) then VBool true else VStr message.

(** The array [questions] of lines 25-51, given the three defaults. *)
Definition question_list (d1 d2 d3 : jsvalue) : list question :=
  [ {| q_type := "input"; q_name := "backupFilePath";
       q_message := "Enter the path to the backup JSON file:";
       q_default := d1;
       q_validate := validate "Backup file path cannot be empty." |};
    {| q_type := "input"; q_name := "dbUri";
       q_message :=
         "Enter your MongoDB connection URI (e.g., mongodb://localhost:27017):";
       q_default := d2;
       q_validate := validate "MongoDB connection URI cannot be empty." |};
    {| q_type := "input"; q_name := "dbName";
       q_message := "Enter the database name to restore the backup to:";
       q_default := d3;
       q_validate := validate "Database name cannot be empty." |} ].

(** [getUserInput(defaults = {})] (lines 24-55): the questions, and the
    settlement of the promise of [prompt(questions)]. *)
Definition getUserInput (defaults : jsvalue)
  : M (list question * result (string * string * string)) :=
  run defaults :=
    (if bool_decide (defaults = VUndefined) then alloc (OPlain [])
     else ret defaults) in
  run backupFilePath := get defaults "backupFilePath" in
  run dbUri := get defaults "dbUri" in
  run dbName := get defaults "dbName" in
  let questions :=
    question_list (or_else backupFilePath (VStr "")) (or_else dbUri (VStr ""))
      (or_else dbName (VStr "")) in
  ret (questions, prompt W questions).

(** [main()] (lines 182-207): the file system it leaves and what it showed,
    or [None] when the model gives no behaviour. *)
Definition main (fuel : nat) (f : files W) : option (files W * list mevent) :=
  match loadConfig f with
  | Throws m => Some (f, [Error_went_wrong (Message m)])
  | Ok config =>
  match (run config := load config in
         run defaults :=
           (if truthy config then ret config else alloc (OPlain [])) in
         run asked := getUserInput defaults in
         ret (truthy config, asked)) [] with
  | Val (has_config, (questions, answers)) _ =>
      let t := [Asked questions] in
      match answers with
      | Throws m => Some (f, t ++ [Error_went_wrong (Message m)])
      | Ok (backupFilePath, dbUri, dbName) =>
          let '(f, t, failed) :=
            if has_config then (f, t, None)
            else
              let config :=
                JObj [("backupFilePath", JStr backupFilePath);
                      ("dbUri", JStr dbUri); ("dbName", JStr dbName)] in
              let t :=
                t ++ [Call_writeFileSync (CONFIG_FILE W)
                        (JSON_stringify W config)] in
              match saveConfig config f with
              | (f, Some m) => (f, t, Some m)
              | (f, None) => (f, t ++ [Info_config_saved], None)
              end in
          match failed with
          | Some m => Some (f, t ++ [Error_went_wrong (Message m)])
          | None =>
              if existsSync W f backupFilePath then
                match restoreBackup P (backend W f) fuel
                        backupFilePath dbUri dbName with
                | Some (Resolved r) => Some (f, t ++ [Restoration r])
                | Some (Rejected e r) =>
                    Some (f, t ++ [Restoration r;
                                   Error_went_wrong (Restoration_rejected e)])
                | None => None
                end
              else Some (f, t ++ [Error_not_found backupFilePath])
          end
      end
  | _ => None
  end end.

End Entry.

(** A world for running [main]: the file system is a list of paths with
    their contents, the only text the parser knows is the one the printer
    makes, and the user gives the same three answers to any questions. *)
Module Session.

Definition answers : string * string * string :=
  ("backup.json", "mongodb://db", "shop").

Definition saved : json :=
  JObj [("backupFilePath", JStr "backup.json"); ("dbUri", JStr "mongodb://db");
        ("dbName", JStr "shop")].

Definition env : Env :=
  {| db := unit;
     client_new := fun _ => None;
     connect := fun _ => None;
     open_db := fun _ _ => inr tt;
     collection := fun _ _ => None;
     insertMany := fun d _ _ _ => (d, None);
     close := fun _ => None;
     require := fun path =>
       if String.eqb path "backup.json" then inr (JObj [("archive", JArr [])])
       else inl ModuleError |}.

Definition world : World :=
  {| files := list (string * string);
     CONFIG_FILE := "/app/config.json";
     existsSync := fun f path => bool_decide (path ∈ f.*1);
     readFileSync := fun f path =>
       match list_find (fun kv : string * string => kv.1 = path) f with
       | Some (_, kv) => Ok kv.2
       | None => Throws "ENOENT"
       end;
     writeFileSync := fun f path text => ((path, text) :: f, None);
     JSON_parse := fun text =>
       if String.eqb text "saved" then Ok saved else Throws "Unexpected token";
     JSON_stringify := fun _ => "saved";
     String_trim := fun s => s;
     prompt := fun _ => Ok answers;
     backend := fun _ => env |}.

End Session.

(** * Vocabulary of the properties *)

Definition children (o : obj) : list jsvalue :=
  match o with
  | OPlain ps => ps.*2
  | OArr es => es
  end.

(** [depth_within h n v]: every reference reachable from [v] is allocated
    and no chain of references from [v] is longer than [n].  Values built by
    [load] are of this kind ([load_depth_within] below); a store with a
    cycle through [v] is not. *)
Fixpoint depth_within (h : heap) (n : nat) (v : jsvalue) {struct n} : bool :=
  match v with
  | VRef l =>
      match n with
      | O => false
      | S n' =>
          match h !! l with
          | Some o => forallb (depth_within h n') (children o)
          | None => false
          end
      end
  | _ => true
  end.

Definition allocated (h : heap) (v : jsvalue) : Prop :=
  match v with
  | VRef l => is_Some (h !! l)
  | _ => True
  end.

Definition no_abort {A} (o : outcome A) : Prop :=
  match o with
  | Abort => False
  | _ => True
  end.

Definition is_typed (v : jsvalue) : bool :=
  match v with
  | VDate _ | VOid _ => true
  | _ => false
  end.

Definition plain_key (key : string) : Prop :=
  key <> "name" /\ key <> "payments" /\ key <> "purchasedProducts" /\
  key <> "__proto__".

Definition is_array (h : heap) (v : jsvalue) : bool :=
  match v with
  | VRef l => match h !! l with Some (OArr _) => true | _ => false end
  | _ => false
  end.

Definition plain_at (h : heap) (x : jsvalue) : Prop :=
  exists q ps, x = VRef q /\ h !! q = Some (OPlain ps).

Definition settled (k : string) (ps : props) : Prop :=
  match get_prop k ps with
  | Some (VStr s) => s = ""
  | _ => True
  end.

(** The nesting depth of a parsed JSON value. *)
Fixpoint json_depth (j : json) : nat :=
  match j with
  | JArr items => S (foldr (fun x n => Nat.max (json_depth x) n) O items)
  | JObj fields => S (foldr (fun kj n => Nat.max (json_depth kj.2) n) O fields)
  | _ => O
  end.

(** [shallower h n p]: the object at [p] is finite, of depth below [n]. *)
Definition shallower (h : heap) (n : nat) (p : nat) : Prop :=
  exists m, (m < n)%nat /\ depth_within h m (VRef p) = true.

(** [sbelow h v p]: the object at [p] is reached from [v] by following one
    or more references of the store [h]. *)
Inductive sbelow (h : heap) : jsvalue -> nat -> Prop :=
| sbelow_child l o p :
    h !! l = Some o -> VRef p ∈ children o -> sbelow h (VRef l) p
| sbelow_step l o c p :
    h !! l = Some o -> c ∈ children o -> sbelow h c p -> sbelow h (VRef l) p.

(** The same, decided for values of depth at most [n]. *)
Fixpoint reachable (h : heap) (n : nat) (v : jsvalue) (p : nat) : bool :=
  match v, n with
  | VRef l, S n' =>
      match h !! l with
      | Some o =>
          existsb (fun c => bool_decide (c = VRef p) || reachable h n' c p)
            (children o)
      | None => false
      end
  | _, _ => false
  end.

(** [unshared h n key ps es]: no element of the array [es] is reached from a
    field of [ps] other than [key] (as in a value built from JSON, where
    nothing is shared). *)
Definition unshared (h : heap) (n : nat) (key : string) (ps : props)
    (es : list jsvalue) : bool :=
  forallb (fun kv : string * jsvalue =>
             String.eqb kv.1 key
             || forallb (fun x => match x with
                                  | VRef p => negb (reachable h n kv.2 p)
                                  | _ => true
                                  end) es) ps.

(** [touches h v p]: the object at [p] is the one [v] refers to, or one
    below it. *)
Definition touches (h : heap) (v : jsvalue) (p : nat) : Prop :=
  v = VRef p \/ sbelow h v p.

(** [built h n lo v]: [v] is finite, of depth at most [n], and the objects
    it touches were all allocated at [lo] or later. *)
Definition built (h : heap) (n lo : nat) (v : jsvalue) : Prop :=
  depth_within h n v = true /\
  forall p, touches h v p -> (lo <= p < length h)%nat.

(** [within Q h h']: from [h] to [h'] only objects at locations in [Q] have
    changed. *)
Definition within (Q : nat -> Prop) (h h' : heap) : Prop :=
  forall p o, h !! p = Some o -> h' !! p = Some o \/ Q p.

Definition confined {A} (Q : nat -> Prop) (h : heap) (o : outcome A) : Prop :=
  match o with
  | Val _ h' | Exn _ h' => within Q h h'
  | Abort => True
  end.

Section Vocabulary.

Variable P : Platform.

(** The only update the program makes to a stored object: a non-empty string
    under [_id] or [productId] becomes the identifier built from it, one
    under [date] becomes the timestamp built from it. *)
Definition typed_of (k : string) (v : jsvalue) : option jsvalue :=
  match v with
  | VStr s =>
      if String.eqb s "" then None
      else if String.eqb k "_id" || String.eqb k "productId"
           then VOid <$> ObjectId_new P s
      else if String.eqb k "date" then Some (new_Date P s)
      else None
  | _ => None
  end.

Definition field_evolves (f f' : string * jsvalue) : Prop :=
  f.1 = f'.1 /\ (f'.2 = f.2 \/ typed_of f.1 f.2 = Some f'.2).

Definition obj_evolves (o o' : obj) : Prop :=
  match o, o' with
  | OPlain ps, OPlain ps' => Forall2 field_evolves ps ps'
  | OArr es, OArr es' => es' = es
  | _, _ => False
  end.

(** [stable h h']: every object of [h] is still there in [h'], arrays as they
    were, plain objects with the same keys and the same values up to the
    conversions above. *)
Definition stable (h h' : heap) : Prop :=
  forall l o, h !! l = Some o -> exists o', h' !! l = Some o' /\ obj_evolves o o'.

(** A computation frames the store when every run of it, normal or not, ends
    in a store that [stable] relates to the one it started from. *)
Definition frames {A} (m : M A) : Prop :=
  forall h, match m h with
            | Val _ h' | Exn _ h' => stable h h'
            | Abort => True
            end.

(** The effect of [convert_id_in_place] and [convert_date_in_place] on the
    properties of the object they are applied to. *)
Definition id_in_place (k : string) (ps : props) : option props :=
  match get_prop k ps with
  | Some (VStr s) =>
      if String.eqb s "" then Some ps
      else match ObjectId_new P s with
           | Some id => Some (set_prop k (VOid id) ps)
           | None => None
           end
  | _ => Some ps
  end.

Definition date_in_place (k : string) (ps : props) : props :=
  match get_prop k ps with
  | Some (VStr s) =>
      if String.eqb s "" then ps else set_prop k (new_Date P s) ps
  | _ => ps
  end.

Definition payment_props (ps : props) : option props :=
  date_in_place "date" <$> id_in_place "_id" ps.

Definition purchasedProduct_props (ps : props) : option props :=
  id_in_place "_id" ps ≫= id_in_place "productId".

End Vocabulary.


(** What lines 85-94 make of the properties [ps] of one element of a
    [payments] array: same keys; a non-empty string under [_id] becomes the
    identifier built from it, one under [date] the timestamp built from it;
    every other property, and an element with neither key, is as before. *)
Definition payment_converted (P : Platform) (ps ps' : props) : Prop :=
  ps'.*1 = ps.*1 /\
  (forall k, k <> "_id" -> k <> "date" -> get_prop k ps' = get_prop k ps) /\
  (forall v, get_prop "_id" ps = Some v ->
     match v with
     | VStr s =>
         if String.eqb s "" then get_prop "_id" ps' = Some v
         else exists id, ObjectId_new P s = Some id /\
                         get_prop "_id" ps' = Some (VOid id)
     | _ => get_prop "_id" ps' = Some v
     end) /\
  (forall v, get_prop "date" ps = Some v ->
     get_prop "date" ps' =
       Some match v with
            | VStr s => if String.eqb s "" then v else VDate (Date_parse P s)
            | _ => v
            end) /\
  (get_prop "_id" ps = None -> get_prop "date" ps = None -> ps' = ps).

(** [field_at h v path]: the value found from [v] by following the keys of
    [path] through nested documents. *)
Fixpoint field_at (h : heap) (v : jsvalue) (path : list string) : option jsvalue :=
  match path with
  | [] => Some v
  | key :: path' =>
      match v with
      | VRef l =>
          match h !! l with
          | Some (OPlain ps) => get_prop key ps ≫= fun c => field_at h c path'
          | _ => None
          end
      | _ => None
      end
  end.

(** The values that are not objects. *)
Definition is_primitive (v : jsvalue) : bool :=
  match v with
  | VUndefined | VNull | VBool _ | VNum _ | VStr _ => true
  | VDate _ | VOid _ | VRef _ => false
  end.

(** What lines 96-112 make of the properties [ps] of one element of a
    [purchasedProducts] array: same keys; a non-empty string under [_id] or
    [productId] becomes the identifier built from it; every other property
    is as before. *)
Definition purchasedProduct_converted (P : Platform) (ps ps' : props) : Prop :=
  ps'.*1 = ps.*1 /\
  (forall k, k <> "_id" -> k <> "productId" -> get_prop k ps' = get_prop k ps) /\
  (forall k v, k = "_id" \/ k = "productId" -> get_prop k ps = Some v ->
     match v with
     | VStr s =>
         if String.eqb s "" then get_prop k ps' = Some v
         else exists id, ObjectId_new P s = Some id /\
                         get_prop k ps' = Some (VOid id)
     | _ => get_prop k ps' = Some v
     end).

(** [extends m m']: whenever [m] has a behaviour, [m'] has the same one. *)
Definition extends {A} (m m' : M A) : Prop :=
  forall h, no_abort (m h) -> m' h = m h.

(** [throws_only Q m]: every exception [m] throws is one of [Q]. *)
Definition throws_only {A} (Q : exn -> Prop) (m : M A) : Prop :=
  forall h e h', m h = Exn e h' -> Q e.

(** The two exceptions of a conversion: a call on something that is not a
    function, and an identifier the driver refuses. *)
Definition conversion_error (e : exn) : Prop := e = TypeError \/ e = BSONError.

(** The events of a run before its verdict: neither the line that ends the
    [try] block or the [catch] block, nor the closing of the connection. *)
Definition progress (ev : event) : bool :=
  match ev with
  | Success_completed | Error_restoration _ | Call_close | Info_closed => false
  | _ => true
  end.

(** The truthiness of a parsed JSON value. *)
Definition json_truthy (j : json) : bool :=
  match j with
  | JNull => false
  | JBool b => b
  | JNum n => negb (n =? 0)%Z
  | JStr s => negb (String.eqb s "")
  | JArr _ | JObj _ => true
  end.

(** The value the parsed object with fields [fields] has under [key]: that of
    the last field of that name. *)
Fixpoint json_field (key : string) (fields : list (string * json)) : option json :=
  match fields with
  | [] => None
  | (k, j) :: fields' =>
      match json_field key fields' with
      | Some j' => Some j'
      | None => if String.eqb key k then Some j else None
      end
  end.

(** The default a question shows for a parsed field. *)
Definition default_of (field : option json) : jsvalue :=
  match field with
  | Some (JStr s) => VStr s
  | _ => VStr ""
  end.

(** The events of a run, however its promise settles. *)
Definition events (p : promise) : list event :=
  match p with
  | Resolved t | Rejected _ t => t
  end.

(** The collection an event is done with: skipped as empty, or inserted and
    reported. *)
Definition handled (ev : event) : option string :=
  match ev with
  | Warn_no_data name | Success_restored name _ => Some name
  | _ => None
  end.

(** The collection an [insertMany] is sent for. *)
Definition sent (ev : event) : option string :=
  match ev with
  | Call_insertMany name _ => Some name
  | _ => None
  end.

(** [has_documents h ps name]: in the backup object with properties [ps],
    the collection [name] is an array with at least one element. *)
Definition has_documents (h : heap) (ps : props) (name : string) : bool :=
  match get_prop name ps with
  | Some (VRef l) =>
      match h !! l with
      | Some (OArr (_ :: _)) => true
      | _ => false
      end
  | _ => false
  end.

(** * Lemmas *)

(** ** Running the monad *)

Lemma bind_val {A B} (m : M A) (k : A -> M B) h a h' :
  m h = Val a h' -> bind m k h = k a h'.
Proof. unfold bind. by intros ->. Qed.

Lemma bind_inv_val {A B} (m : M A) (k : A -> M B) h b h'' :
  bind m k h = Val b h'' -> exists a h', m h = Val a h' /\ k a h' = Val b h''.
Proof. unfold bind. destruct (m h); [eauto | done | done]. Qed.

Lemma get_store x k h v h' : get x k h = Val v h' -> h' = h.
Proof.
  unfold get. intros Hg.
  repeat (case_match; simplify_eq); done.
Qed.

Lemma get_plain l ps k h :
  h !! l = Some (OPlain ps) ->
  get (VRef l) k h = Val (default VUndefined (get_prop k ps)) h.
Proof. unfold get. by intros ->. Qed.

Lemma isArray_store x h b h' : isArray x h = Val b h' -> h' = h.
Proof. unfold isArray. intros Hg. repeat (case_match; simplify_eq); done. Qed.

Lemma hasOwnProperty_store x k h b h' : hasOwnProperty x k h = Val b h' -> h' = h.
Proof. unfold hasOwnProperty. intros Hg. repeat (case_match; simplify_eq); done. Qed.

Lemma hasOwnProperty_exn_store x k h e h' :
  hasOwnProperty x k h = Exn e h' -> h' = h.
Proof. unfold hasOwnProperty. intros Hg. repeat (case_match; simplify_eq); done. Qed.

Lemma own_keys_store x h ks h' : own_keys x h = Val ks h' -> h' = h.
Proof. unfold own_keys. intros Hg. repeat (case_match; simplify_eq); done. Qed.

(** ** What a call may change in the store *)

Section Frame.

Variable P : Platform.

Lemma typed_of_typed k v v' : typed_of P k v = Some v' -> typed_of P k v' = None.
Proof.
  destruct v; simpl; try done.
  repeat case_match; try done.
  - destruct (ObjectId_new P s); simpl; intros; by simplify_eq.
  - intros; by simplify_eq.
Qed.

Lemma field_evolves_refl f : field_evolves P f f.
Proof. split; auto. Qed.

Lemma field_evolves_trans f1 f2 f3 :
  field_evolves P f1 f2 -> field_evolves P f2 f3 -> field_evolves P f1 f3.
Proof.
  intros [Hk1 H1] [Hk2 H2]. split; [congruence |].
  destruct H1 as [H1 | H1].
  - rewrite H1, <- Hk1 in H2. done.
  - destruct H2 as [H2 | H2]; [rewrite H2; auto |].
    rewrite <- Hk1 in H2. apply typed_of_typed in H1. congruence.
Qed.

Lemma obj_evolves_refl o : obj_evolves P o o.
Proof.
  destruct o; simpl; [| done].
  induction ps; constructor; auto using field_evolves_refl.
Qed.

Lemma obj_evolves_trans o1 o2 o3 :
  obj_evolves P o1 o2 -> obj_evolves P o2 o3 -> obj_evolves P o1 o3.
Proof.
  destruct o1, o2, o3; simpl; try done; [| congruence].
  intros H1. revert ps1. induction H1; intros ps1 H2; inversion H2; subst;
    constructor; eauto using field_evolves_trans.
Qed.

Lemma stable_refl h : stable P h h.
Proof. intros l o Hl. eauto using obj_evolves_refl. Qed.

Lemma stable_trans h1 h2 h3 : stable P h1 h2 -> stable P h2 h3 -> stable P h1 h3.
Proof.
  intros H12 H23 l o Hl.
  destruct (H12 l o Hl) as (o2 & Hl2 & E12).
  destruct (H23 l o2 Hl2) as (o3 & Hl3 & E23).
  eauto using obj_evolves_trans.
Qed.

Lemma stable_length h h' : stable P h h' -> (length h <= length h')%nat.
Proof.
  intros Hs. destruct (decide (length h = 0)%nat) as [| Hn]; [lia |].
  destruct (lookup_lt_is_Some_2 h (length h - 1)) as [o Ho]; [lia |].
  destruct (Hs _ _ Ho) as (o' & Ho' & _).
  apply lookup_lt_Some in Ho'. lia.
Qed.

Lemma stable_alloc h o : stable P h (h ++ [o]).
Proof.
  intros l o' Hl. exists o'. split; [| apply obj_evolves_refl].
  by apply lookup_app_l_Some.
Qed.

Lemma set_prop_evolves k v v' ps :
  get_prop k ps = Some v -> typed_of P k v = Some v' ->
  Forall2 (field_evolves P) ps (set_prop k v' ps).
Proof.
  induction ps as [| [k0 v0] ps IH]; simpl; [done |].
  destruct (String.eqb_spec k k0) as [-> | Hne]; intros Hg Ht.
  - simplify_eq. constructor.
    + split; simpl; auto.
    + clear. induction ps; constructor; auto using field_evolves_refl.
  - constructor; [apply field_evolves_refl | auto].
Qed.

Lemma stable_set h l ps k v v' :
  h !! l = Some (OPlain ps) -> get_prop k ps = Some v -> typed_of P k v = Some v' ->
  stable P h (<[l := OPlain (set_prop k v' ps)]> h).
Proof.
  intros Hl Hg Ht l0 o Hl0.
  destruct (decide (l0 = l)) as [-> | Hne].
  - rewrite list_lookup_insert_eq by (by eapply lookup_lt_Some).
    simplify_eq. eexists; split; [done |]. simpl. eauto using set_prop_evolves.
  - rewrite list_lookup_insert_ne by done. eauto using obj_evolves_refl.
Qed.

Lemma frames_ret {A} (a : A) : frames P (ret a).
Proof. intros h. apply stable_refl. Qed.

Lemma frames_throw {A} e : frames P (@throw A e).
Proof. intros h. apply stable_refl. Qed.

Lemma frames_bind {A B} (m : M A) (k : A -> M B) :
  frames P m -> (forall a, frames P (k a)) -> frames P (bind m k).
Proof.
  intros Hm Hk h. unfold bind. specialize (Hm h).
  destruct (m h) as [a h' | e h' |]; [| done | done].
  specialize (Hk a h'). destruct (k a h'); eauto using stable_trans.
Qed.

Lemma frames_mapM {A B} (f : A -> M B) xs :
  (forall x, frames P (f x)) -> frames P (mapM f xs).
Proof.
  intros Hf. induction xs as [| x xs IH]; simpl; [apply frames_ret |].
  apply frames_bind; [done | intros y].
  apply frames_bind; [done | intros ys]. apply frames_ret.
Qed.

Lemma frames_for_in {A} (body : string -> A -> M A) ks acc :
  (forall k a, frames P (body k a)) -> frames P (for_in body ks acc).
Proof.
  intros Hb. revert acc. induction ks as [| k ks IH]; intros acc; simpl;
    [apply frames_ret |].
  apply frames_bind; auto.
Qed.

Lemma frames_get x k : frames P (get x k).
Proof.
  intros h. destruct (get x k h) eqn:Hg; [| | done].
  - apply get_store in Hg as ->. apply stable_refl.
  - unfold get in Hg. repeat (case_match; simplify_eq); apply stable_refl.
Qed.

Lemma frames_isArray x : frames P (isArray x).
Proof.
  intros h. destruct (isArray x h) eqn:Hg; [| | done].
  - apply isArray_store in Hg as ->. apply stable_refl.
  - unfold isArray in Hg. repeat (case_match; simplify_eq).
Qed.

Lemma frames_own_keys x : frames P (own_keys x).
Proof.
  intros h. destruct (own_keys x h) eqn:Hg; [| | done].
  - apply own_keys_store in Hg as ->. apply stable_refl.
  - unfold own_keys in Hg. repeat (case_match; simplify_eq).
Qed.

Lemma frames_hasOwnProperty x k : frames P (hasOwnProperty x k).
Proof.
  intros h. destruct (hasOwnProperty x k h) eqn:Hg; [| | done].
  - apply hasOwnProperty_store in Hg as ->. apply stable_refl.
  - apply hasOwnProperty_exn_store in Hg as ->. apply stable_refl.
Qed.

Lemma frames_alloc o : frames P (alloc o).
Proof. intros h. apply stable_alloc. Qed.

Lemma frames_array_map f x : (forall y, frames P (f y)) -> frames P (array_map f x).
Proof.
  intros Hf h. unfold array_map.
  destruct x; try apply stable_refl.
  destruct (h !! l) as [[ps | es] |] eqn:Hl; [apply stable_refl | | done].
  apply (frames_bind (mapM f es) (fun es' => alloc (OArr es'))
           (frames_mapM f es Hf) (fun es' => frames_alloc _) h).
Qed.

Lemma frames_new_ObjectId s : frames P (new_ObjectId P s).
Proof.
  intros h. unfold new_ObjectId. destruct (ObjectId_new P s); apply stable_refl.
Qed.

(** An assignment of a converted value over the string it was built from. *)
Lemma frames_set_typed x k s v' h :
  get x k h = Val (VStr s) h -> typed_of P k (VStr s) = Some v' ->
  match set x k v' h with
  | Val _ h' | Exn _ h' => stable P h h'
  | Abort => True
  end.
Proof.
  intros Hg Ht. unfold set. destruct x; try apply stable_refl.
  destruct (h !! l) as [[ps | es] |] eqn:Hl; try done.
  rewrite (get_plain _ _ _ _ Hl) in Hg.
  destruct (get_prop k ps) as [v |] eqn:Hp; simpl in Hg; simplify_eq.
  eauto using stable_set.
Qed.

Lemma frames_convert_id_in_place x k :
  k = "_id" \/ k = "productId" -> frames P (convert_id_in_place P x k).
Proof.
  intros Hk h. unfold convert_id_in_place, bind.
  destruct (get x k h) as [v h1 | e h1 |] eqn:Hg; [| | done].
  2: { pose proof (frames_get x k h) as Hf. by rewrite Hg in Hf. }
  pose proof (get_store _ _ _ _ _ Hg) as ->.
  destruct v; try apply stable_refl.
  destruct (truthy (VStr s)) eqn:Htr; [| apply stable_refl].
  unfold new_ObjectId. destruct (ObjectId_new P s) as [id |] eqn:Hid;
    [| apply stable_refl].
  unfold ret. apply (frames_set_typed x k s (VOid id) h Hg).
  simpl in *. destruct (String.eqb s ""); [done |].
  destruct Hk as [-> | ->]; simpl; by rewrite Hid.
Qed.

Lemma frames_convert_date_in_place x : frames P (convert_date_in_place P x "date").
Proof.
  intros h. unfold convert_date_in_place, bind.
  destruct (get x "date" h) as [v h1 | e h1 |] eqn:Hg; [| | done].
  2: { pose proof (frames_get x "date" h) as Hf. by rewrite Hg in Hf. }
  pose proof (get_store _ _ _ _ _ Hg) as ->.
  destruct v; try apply stable_refl.
  destruct (truthy (VStr s)) eqn:Htr; [| apply stable_refl].
  apply (frames_set_typed x "date" s (new_Date P s) h Hg).
  simpl in *. by destruct (String.eqb s "").
Qed.

Lemma frames_convert_payment x : frames P (convert_payment P x).
Proof.
  unfold convert_payment.
  apply frames_bind; [apply frames_convert_id_in_place; auto | intros _].
  apply frames_bind; [apply frames_convert_date_in_place | intros _].
  apply frames_ret.
Qed.

Lemma frames_convert_purchasedProduct x : frames P (convert_purchasedProduct P x).
Proof.
  unfold convert_purchasedProduct.
  apply frames_bind; [apply frames_convert_id_in_place; auto | intros _].
  apply frames_bind; [apply frames_convert_id_in_place; auto | intros _].
  apply frames_ret.
Qed.

Lemma frames_convert_item x : frames P (convert_item P x).
Proof.
  unfold convert_item. destruct x; try apply frames_ret.
  destruct (ObjectId_isValid P s); [apply frames_new_ObjectId | apply frames_ret].
Qed.

Lemma frames_convert_field rec key v :
  (forall x, frames P (rec x)) -> frames P (convert_field P rec key v).
Proof.
  intros Hrec. unfold convert_field.
  destruct (String.eqb key "name"); [apply frames_ret |].
  destruct (parses_as_date P v); [destruct v; apply frames_ret |].
  destruct (String.eqb key "_id" && bool_decide (typeof v = TyString)).
  { destruct v; try apply frames_ret. apply frames_new_ObjectId. }
  destruct (String.eqb key "payments");
    [apply frames_array_map, frames_convert_payment |].
  destruct (String.eqb key "purchasedProducts");
    [apply frames_array_map, frames_convert_purchasedProduct |].
  apply frames_bind; [apply frames_isArray | intros [|]]; [| done].
  apply frames_array_map, frames_convert_item.
Qed.

Lemma frames_convert_key rec data key acc :
  (forall x, frames P (rec x)) -> frames P (convert_key P rec data key acc).
Proof.
  intros Hrec. unfold convert_key.
  apply frames_bind; [apply frames_hasOwnProperty | intros [|]];
    [| apply frames_ret].
  apply frames_bind; [apply frames_get | intros v].
  apply frames_bind; [by apply frames_convert_field | intros v'].
  apply frames_ret.
Qed.

Lemma frames_convertTypes fuel data : frames P (convertTypes P fuel data).
Proof.
  revert data. induction fuel as [| fuel IH]; intros data; simpl; [done |].
  apply frames_bind; [apply frames_isArray | intros [|]].
  { by apply frames_array_map. }
  destruct (bool_decide (typeof data = TyObject) && negb (bool_decide (data = VNull)));
    [| apply frames_ret].
  apply frames_bind; [apply frames_own_keys | intros keys].
  apply frames_bind; [| intros ps; apply frames_alloc].
  apply frames_for_in. intros k a. by apply frames_convert_key.
Qed.

End Frame.

(** ** The fields of a normalized document *)

Lemma get_prop_set_eq k v ps : get_prop k (set_prop k v ps) = Some v.
Proof.
  induction ps as [| [k0 v0] ps IH]; simpl.
  - by rewrite String.eqb_refl.
  - destruct (String.eqb_spec k k0) as [-> | Hne]; simpl.
    + by rewrite String.eqb_refl.
    + by destruct (String.eqb_spec k k0).
Qed.

Lemma get_prop_set_ne k k' v ps :
  k <> k' -> get_prop k (set_prop k' v ps) = get_prop k ps.
Proof.
  intros Hne. induction ps as [| [k0 v0] ps IH]; simpl.
  - by destruct (String.eqb_spec k k').
  - destruct (String.eqb_spec k' k0) as [-> | Hne0]; simpl.
    + by destruct (String.eqb_spec k k0).
    + by rewrite IH.
Qed.

Lemma get_prop_keys k ps v : get_prop k ps = Some v -> k ∈ ps.*1.
Proof.
  induction ps as [| [k0 v0] ps IH]; simpl; [done |].
  destruct (String.eqb_spec k k0) as [-> | Hne]; intros Hg.
  - apply list_elem_of_here.
  - apply list_elem_of_further. auto.
Qed.

Lemma has_prop_keys k ps : k ∈ ps.*1 -> has_prop k ps = true.
Proof.
  unfold has_prop.
  induction ps as [| [k0 v0] ps IH]; simpl; [by intros ?%elem_of_nil |].
  destruct (String.eqb_spec k k0) as [-> | Hne]; [done |].
  intros [? | ?]%elem_of_cons; [done | auto].
Qed.

Lemma get_prop_not_keys k ps : k ∉ ps.*1 -> get_prop k ps = None.
Proof.
  induction ps as [| [k0 v0] ps IH]; simpl; [done |].
  intros Hn. destruct (String.eqb_spec k k0) as [-> | Hne].
  - exfalso. apply Hn, list_elem_of_here.
  - apply IH. intros ?. apply Hn. by apply list_elem_of_further.
Qed.

Lemma get_prop_values k ps v : get_prop k ps = Some v -> v ∈ ps.*2.
Proof.
  induction ps as [| [k0 v0] ps IH]; simpl; [done |].
  destruct (String.eqb k k0); intros Hg.
  - simplify_eq. apply list_elem_of_here.
  - apply list_elem_of_further. auto.
Qed.

Lemma set_prop_keys k v ps :
  is_Some (get_prop k ps) -> (set_prop k v ps).*1 = ps.*1.
Proof.
  induction ps as [| [k0 v0] ps IH]; simpl; [by intros [? ?] |].
  destruct (String.eqb_spec k k0) as [-> | Hne]; simpl; [done |].
  intros Hs. f_equal. by apply IH.
Qed.

Section Document.

Variable P : Platform.

Lemma evolves_keys ps ps' : Forall2 (field_evolves P) ps ps' -> ps'.*1 = ps.*1.
Proof.
  induction 1 as [| [k v] [k' v'] ps ps' [Hk _] _ IH]; [done |].
  simpl in Hk. rewrite !fmap_cons. simpl. by rewrite IH, Hk.
Qed.

(** Reading a property of an object that has evolved. *)
Lemma evolves_get_prop ps ps' k v :
  Forall2 (field_evolves P) ps ps' -> get_prop k ps = Some v ->
  exists v', get_prop k ps' = Some v' /\ (v' = v \/ typed_of P k v = Some v').
Proof.
  induction 1 as [| [k0 v0] [k0' v0'] ps ps' [Hk Hv] _ IH]; simpl in *; [done |].
  subst k0'. destruct (String.eqb_spec k k0) as [-> | Hne]; [| done].
  intros; simplify_eq. eauto.
Qed.

Lemma evolves_get_prop_none ps ps' k :
  Forall2 (field_evolves P) ps ps' -> get_prop k ps = None -> get_prop k ps' = None.
Proof.
  induction 1 as [| [k0 v0] [k0' v0'] ps ps' [Hk Hv] _ IH]; simpl in *; [done |].
  subst k0'. by destruct (String.eqb k k0).
Qed.

Lemma stable_plain h h' l ps :
  stable P h h' -> h !! l = Some (OPlain ps) ->
  exists ps', h' !! l = Some (OPlain ps') /\ Forall2 (field_evolves P) ps ps'.
Proof.
  intros Hs Hl. destruct (Hs _ _ Hl) as ([ps' | es'] & Hl' & He); [eauto | done].
Qed.

Lemma stable_array h h' l es :
  stable P h h' -> h !! l = Some (OArr es) -> h' !! l = Some (OArr es).
Proof.
  intros Hs Hl. destruct (Hs _ _ Hl) as ([ps' | es'] & Hl' & He); [done |].
  simpl in He. by subst.
Qed.

(** The value the loop reads for [key] at a later moment of the call. *)
Lemma stable_get h h' l ps key v0 v :
  stable P h h' -> h !! l = Some (OPlain ps) -> get_prop key ps = Some v0 ->
  get (VRef l) key h' = Val v h' ->
  v = v0 \/ typed_of P key v0 = Some v.
Proof.
  intros Hs Hl Hg Hget.
  destruct (stable_plain _ _ _ _ Hs Hl) as (ps' & Hl' & He).
  rewrite (get_plain _ _ _ _ Hl') in Hget.
  destruct (evolves_get_prop _ _ _ _ He Hg) as (v' & Hg' & Hv).
  rewrite Hg' in Hget. simpl in Hget. by simplify_eq.
Qed.

Section Loop.

Variable rec : jsvalue -> M jsvalue.
Hypothesis rec_frames : forall x, frames P (rec x).
Variable data : jsvalue.

(** What the [for-in] loop has stored under each key when it is over: the
    conversion of the value read at the turn that last visited the key
    (unless that turn found the key not to be an own property). *)
Lemma for_in_convert_key ks acc h acc' h' :
  for_in (convert_key P rec data) ks acc h = Val acc' h' ->
  stable P h h' /\
  forall key, key <> "__proto__" ->
    (key ∉ ks -> get_prop key acc' = get_prop key acc) /\
    (key ∈ ks -> exists ha,
        stable P h ha /\
        (hasOwnProperty data key ha = Val false ha \/
         exists v v' hb,
           get data key ha = Val v ha /\
           convert_field P rec key v ha = Val v' hb /\
           stable P hb h' /\ get_prop key acc' = Some v')).
Proof.
  revert acc h. induction ks as [| k ks IH]; intros acc h Hrun; simpl in Hrun.
  - unfold ret in Hrun. simplify_eq. split; [apply stable_refl |].
    intros key _. split; [done | by intros ?%elem_of_nil].
  - apply bind_inv_val in Hrun as (acc1 & h1 & Hk & Hrest).
    pose proof (frames_convert_key P rec data k acc rec_frames h) as Hf.
    rewrite Hk in Hf.
    destruct (IH _ _ Hrest) as [Hs1 IHk].
    split; [by eapply stable_trans |].
    unfold convert_key in Hk.
    apply bind_inv_val in Hk as (own & h0 & Hown & Hk).
    pose proof (hasOwnProperty_store _ _ _ _ _ Hown) as ->.
    intros key Hproto. destruct (IHk key Hproto) as [IHout IHin].
    destruct own.
    + apply bind_inv_val in Hk as (v & h0 & Hget & Hk).
      pose proof (get_store _ _ _ _ _ Hget) as ->.
      apply bind_inv_val in Hk as (v' & hb & Hconv & Hk).
      unfold ret in Hk. simplify_eq. split.
      * intros Hnot.
        rewrite IHout by (intros ?; apply Hnot; by apply list_elem_of_further).
        unfold assign_prop. destruct (String.eqb k "__proto__"); [done |].
        apply get_prop_set_ne. intros ->. apply Hnot, list_elem_of_here.
      * intros Hin. destruct (decide (key ∈ ks)) as [Hks | Hks].
        -- destruct (IHin Hks) as (ha & Hsa & Hcase).
           exists ha. split; [by eapply stable_trans | done].
        -- apply elem_of_cons in Hin as [-> | ?]; [| done].
           exists h. split; [apply stable_refl | right].
           exists v, v', h1. split_and!; try done.
           rewrite (IHout Hks). unfold assign_prop.
           destruct (String.eqb_spec k "__proto__"); [done |].
           apply get_prop_set_eq.
    + unfold ret in Hk. simplify_eq. split.
      * intros Hnot. apply IHout. intros ?. apply Hnot.
        by apply list_elem_of_further.
      * intros Hin. destruct (decide (key ∈ ks)) as [Hks | Hks].
        -- destruct (IHin Hks) as (ha & Hsa & Hcase).
           exists ha. split; done.
        -- apply elem_of_cons in Hin as [-> | ?]; [| done].
           eexists. split; [apply stable_refl | by left].
Qed.

End Loop.

(** Normalizing a stored document: the result is a new object, and each of
    its fields holds the conversion of the field of the same name. *)
Lemma convertTypes_document fuel l ps h r h' :
  h !! l = Some (OPlain ps) ->
  convertTypes P fuel (VRef l) h = Val r h' ->
  exists fuel' h1 ps',
    fuel = S fuel' /\ stable P h h1 /\ h' = h1 ++ [OPlain ps'] /\ r = VRef (length h1) /\
    forall key, key <> "__proto__" ->
      (key ∉ ps.*1 -> get_prop key ps' = None) /\
      (key ∈ ps.*1 -> exists ha v v' hb,
          stable P h ha /\ get (VRef l) key ha = Val v ha /\
          convert_field P (convertTypes P fuel') key v ha = Val v' hb /\
          stable P hb h1 /\ get_prop key ps' = Some v').
Proof.
  intros Hl Hrun. destruct fuel as [| fuel]; [done |]. simpl in Hrun.
  apply bind_inv_val in Hrun as (b & h0 & Harr & Hrun).
  unfold isArray in Harr. rewrite Hl in Harr. simplify_eq. simpl in Hrun.
  apply bind_inv_val in Hrun as (ks & h2 & Hkeys & Hrun).
  unfold own_keys in Hkeys. rewrite Hl in Hkeys. simplify_eq.
  apply bind_inv_val in Hrun as (ps' & h1 & Hloop & Hrun).
  unfold alloc in Hrun. simplify_eq.
  apply for_in_convert_key in Hloop as [Hs Hkeys]; [| apply frames_convertTypes].
  exists fuel, h1, ps'. split_and!; try done.
  intros key Hproto. destruct (Hkeys key Hproto) as [Hout Hin].
  split; [intros Hnot; by rewrite (Hout Hnot) |].
  intros Hkey. destruct (Hin Hkey) as (ha & Hsa & [Hskip | Hconv]).
  - (* the key is still an own property at that turn *)
    destruct (stable_plain _ _ _ _ Hsa Hl) as (psa & Hla & Hea).
    unfold hasOwnProperty in Hskip. rewrite Hla in Hskip.
    destruct (get_prop "hasOwnProperty" psa); [done |].
    rewrite has_prop_keys in Hskip; [done |].
    by rewrite (evolves_keys _ _ Hea).
  - destruct Hconv as (v & v' & hb & ?). exists ha, v, v', hb. tauto.
Qed.

End Document.

(** ** Termination on finite values *)

Lemma depth_within_ref h n l :
  depth_within h n (VRef l) = true ->
  exists n' o, n = S n' /\ h !! l = Some o /\
               Forall (fun c => depth_within h n' c = true) (children o).
Proof.
  destruct n as [| n]; simpl; [done |].
  destruct (h !! l) as [o |]; [| done].
  intros Hall. exists n, o. split_and!; try done.
  apply Forall_forall. intros c Hc%list_elem_of_In.
  by eapply forallb_forall in Hall.
Qed.

Lemma depth_within_intro h n l o :
  h !! l = Some o -> Forall (fun c => depth_within h n c = true) (children o) ->
  depth_within h (S n) (VRef l) = true.
Proof.
  intros Hl Hall. simpl. rewrite Hl. apply forallb_forall.
  intros c Hc%list_elem_of_In. by eapply Forall_forall in Hall.
Qed.

Lemma depth_within_allocated h n v : depth_within h n v = true -> allocated h v.
Proof.
  destruct v; simpl; try done.
  intros (? & ? & _ & -> & _)%depth_within_ref. eauto.
Qed.

Section Termination.

Variable P : Platform.

Lemma typed_of_leaf k v v' h n : typed_of P k v = Some v' -> depth_within h n v' = true.
Proof.
  destruct v; simpl; try done. repeat case_match; try done.
  - destruct (ObjectId_new P s); simpl; intros; simplify_eq. by destruct n.
  - intros; simplify_eq. by destruct n.
Qed.

Lemma depth_within_stable h h' n v :
  stable P h h' -> depth_within h n v = true -> depth_within h' n v = true.
Proof.
  intros Hs. revert v. induction n as [| n IH]; intros v; destruct v; try done.
  intros (n' & o & ? & Hl & Hall)%depth_within_ref. simplify_eq.
  destruct (Hs _ _ Hl) as (o' & Hl' & He).
  apply (depth_within_intro _ _ _ _ Hl').
  destruct o as [ps | es], o' as [ps' | es']; simpl in *; try done.
  - clear Hl Hl'. induction He as [| [k v] [k' v'] ps ps' [Hk Hv] _ IHe];
      [done |].
    rewrite fmap_cons in Hall. apply Forall_cons in Hall as [Hv0 Hall].
    rewrite fmap_cons. apply Forall_cons. split; [| auto].
    simpl in *. destruct Hv as [-> | Ht]; [auto |].
    by eapply typed_of_leaf.
  - subst. eapply Forall_impl; [done |]. simpl. auto.
Qed.

Lemma allocated_stable h h' v : stable P h h' -> allocated h v -> allocated h' v.
Proof.
  intros Hs. destruct v; simpl; try done.
  intros [o Hl]. destruct (Hs _ _ Hl) as (o' & Hl' & _). eauto.
Qed.

Lemma mapM_no_abort {A B} (f : A -> M B) xs h :
  (forall x, frames P (f x)) ->
  (forall x h', x ∈ xs -> stable P h h' -> no_abort (f x h')) ->
  no_abort (mapM f xs h).
Proof.
  intros Hf. revert h. induction xs as [| x xs IH]; intros h Hsafe; simpl; [done |].
  unfold bind. pose proof (Hsafe x h (list_elem_of_here _ _) (stable_refl P h)) as Hx.
  pose proof (Hf x h) as Hfx.
  destruct (f x h) as [y h1 | |]; [| done | done].
  fold (mapM f xs).
  assert (no_abort (mapM f xs h1)) as Hrest.
  { apply IH. intros x' h' Hin Hs'. apply Hsafe; [by apply list_elem_of_further |].
    by eapply stable_trans. }
  by destruct (mapM f xs h1).
Qed.

Lemma for_in_no_abort {A} (body : string -> A -> M A) ks acc h :
  (forall k a, frames P (body k a)) ->
  (forall k a h', k ∈ ks -> stable P h h' -> no_abort (body k a h')) ->
  no_abort (for_in body ks acc h).
Proof.
  intros Hf. revert acc h.
  induction ks as [| k ks IH]; intros acc h Hsafe; simpl; [done |].
  unfold bind. pose proof (Hsafe k acc h (list_elem_of_here _ _) (stable_refl P h)) as Hk.
  pose proof (Hf k acc h) as Hfk.
  destruct (body k acc h) as [acc1 h1 | |]; [| done | done].
  apply IH. intros k' a h' Hin Hs'. apply Hsafe; [by apply list_elem_of_further |].
  by eapply stable_trans.
Qed.

Lemma get_no_abort x k h : allocated h x -> no_abort (get x k h).
Proof.
  unfold get. destruct x; simpl; try done.
  - by case_match.
  - intros [o ->]. destruct o; [done | by case_match].
Qed.

Lemma set_after_get x k s v h :
  k = "_id" \/ k = "productId" \/ k = "date" ->
  get x k h = Val (VStr s) h -> no_abort (set x k v h).
Proof.
  intros Hk. unfold get, set. destruct x; try done.
  destruct (h !! l) as [[ps | es] |]; try done.
  destruct Hk as [-> | [-> | ->]]; simpl; done.
Qed.

Lemma convert_id_in_place_no_abort x k h :
  k = "_id" \/ k = "productId" -> allocated h x ->
  no_abort (convert_id_in_place P x k h).
Proof.
  intros Hk Ha. unfold convert_id_in_place, bind.
  pose proof (get_no_abort x k h Ha) as Hg.
  destruct (get x k h) as [v h1 | |] eqn:Hget; [| done | done].
  pose proof (get_store _ _ _ _ _ Hget) as ->.
  destruct v; try done. destruct (truthy (VStr s)); [| done].
  unfold new_ObjectId. destruct (ObjectId_new P s); [| done].
  eapply set_after_get; [| done]. tauto.
Qed.

Lemma convert_date_in_place_no_abort x h :
  allocated h x -> no_abort (convert_date_in_place P x "date" h).
Proof.
  intros Ha. unfold convert_date_in_place, bind.
  pose proof (get_no_abort x "date" h Ha) as Hg.
  destruct (get x "date" h) as [v h1 | |] eqn:Hget; [| done | done].
  pose proof (get_store _ _ _ _ _ Hget) as ->.
  destruct v; try done. destruct (truthy (VStr s)); [| done].
  eapply set_after_get; [| done]. tauto.
Qed.

Lemma convert_payment_no_abort x h :
  allocated h x -> no_abort (convert_payment P x h).
Proof.
  intros Ha. unfold convert_payment, bind.
  pose proof (convert_id_in_place_no_abort x "_id" h (or_introl eq_refl) Ha) as H1.
  pose proof (frames_convert_id_in_place P x "_id" (or_introl eq_refl) h) as F1.
  destruct (convert_id_in_place P x "_id" h) as [[] h1 | |]; [| done | done].
  pose proof (convert_date_in_place_no_abort x h1 (allocated_stable _ _ _ F1 Ha)) as H2.
  by destruct (convert_date_in_place P x "date" h1).
Qed.

Lemma convert_purchasedProduct_no_abort x h :
  allocated h x -> no_abort (convert_purchasedProduct P x h).
Proof.
  intros Ha. unfold convert_purchasedProduct, bind.
  pose proof (convert_id_in_place_no_abort x "_id" h (or_introl eq_refl) Ha) as H1.
  pose proof (frames_convert_id_in_place P x "_id" (or_introl eq_refl) h) as F1.
  destruct (convert_id_in_place P x "_id" h) as [[] h1 | |]; [| done | done].
  pose proof (convert_id_in_place_no_abort x "productId" h1 (or_intror eq_refl)
                (allocated_stable _ _ _ F1 Ha)) as H2.
  by destruct (convert_id_in_place P x "productId" h1).
Qed.

Lemma convert_item_no_abort x h : no_abort (convert_item P x h).
Proof.
  unfold convert_item. destruct x; try done.
  destruct (ObjectId_isValid P s); [| done].
  unfold new_ObjectId. by destruct (ObjectId_new P s).
Qed.

(** [x.map(f)] gives a result as soon as [f] does on the elements. *)
Lemma array_map_no_abort f x h :
  allocated h x -> (forall y, frames P (f y)) ->
  (forall es y h', x = VRef es.1 -> h !! es.1 = Some (OArr es.2) -> y ∈ es.2 ->
                   stable P h h' -> no_abort (f y h')) ->
  no_abort (array_map f x h).
Proof.
  intros Ha Hf Hsafe. unfold array_map. destruct x; try done.
  destruct Ha as [o Hl]. simpl. rewrite Hl. destruct o as [ps | es]; [done |].
  unfold bind.
  assert (no_abort (mapM f es h)) as Hm.
  { apply mapM_no_abort; [done |]. intros y h' Hy Hs.
    by apply (Hsafe (l, es) y h'). }
  by destruct (mapM f es h).
Qed.

Lemma convert_field_no_abort rec key v h n :
  depth_within h n v = true ->
  (forall x, frames P (rec x)) ->
  (forall x h', depth_within h' n x = true -> no_abort (rec x h')) ->
  no_abort (convert_field P rec key v h).
Proof.
  intros Hd Hrf Hrec. unfold convert_field.
  pose proof (depth_within_allocated _ _ _ Hd) as Ha.
  assert (forall es y h', v = VRef es.1 -> h !! es.1 = Some (OArr es.2) ->
            y ∈ es.2 -> stable P h h' ->
            depth_within h' (pred n) y = true) as Helem.
  { intros [l es] y h' -> Hl Hy Hs. simpl in *.
    apply depth_within_ref in Hd as (n' & o & -> & Hl' & Hall).
    simplify_eq. simpl in *.
    eapply depth_within_stable; [done |]. by eapply Forall_forall in Hall. }
  destruct (String.eqb key "name"); [done |].
  destruct (parses_as_date P v); [by destruct v |].
  destruct (String.eqb key "_id" && bool_decide (typeof v = TyString)).
  { destruct v; try done. unfold new_ObjectId. by destruct (ObjectId_new P s). }
  destruct (String.eqb key "payments").
  { apply array_map_no_abort; [done | apply frames_convert_payment |].
    intros es y h' Hv Hl Hy Hs. apply convert_payment_no_abort.
    eapply depth_within_allocated, Helem; eauto. }
  destruct (String.eqb key "purchasedProducts").
  { apply array_map_no_abort; [done | apply frames_convert_purchasedProduct |].
    intros es y h' Hv Hl Hy Hs. apply convert_purchasedProduct_no_abort.
    eapply depth_within_allocated, Helem; eauto. }
  unfold bind. destruct (isArray v h) as [b h1 | |] eqn:Harr.
  - pose proof (isArray_store _ _ _ _ Harr) as ->. destruct b; [| by apply Hrec].
    apply array_map_no_abort; [done | apply frames_convert_item |].
    intros. apply convert_item_no_abort.
  - unfold isArray in Harr. repeat (case_match; simplify_eq).
  - unfold isArray in Harr. destruct v; simplify_eq.
    destruct Ha as [o Hl]. rewrite Hl in Harr. by destruct o.
Qed.

(** A budget of one more than the depth of the value is enough: the call
    returns or throws. *)
Lemma convertTypes_no_abort n data h :
  depth_within h n data = true -> no_abort (convertTypes P (S n) data h).
Proof.
  revert data h. induction n as [| n IH]; intros data h Hd.
  - by destruct data.
  - destruct data; try done.
    apply depth_within_ref in Hd as Hd'. destruct Hd' as (n' & o & ? & Hl & Hall).
    simplify_eq. change (convertTypes P (S (S n')) (VRef l)) with
      (run is_arr := isArray (VRef l) in
       if is_arr then array_map (convertTypes P (S n')) (VRef l)
       else if bool_decide (typeof (VRef l) = TyObject)
               && negb (bool_decide (VRef l = VNull))
       then
         run keys := own_keys (VRef l) in
         run convertedData :=
           for_in (convert_key P (convertTypes P (S n')) (VRef l)) keys [] in
         alloc (OPlain convertedData)
       else ret (VRef l)).
    unfold bind at 1. unfold isArray. rewrite Hl. destruct o as [ps | es].
    + simpl. unfold bind at 1. unfold own_keys. rewrite Hl. unfold bind.
      assert (no_abort (for_in (convert_key P (convertTypes P (S n')) (VRef l))
                          ps.*1 [] h)) as Hloop.
      { apply for_in_no_abort.
        { intros. apply frames_convert_key, frames_convertTypes. }
        intros k a h' _ Hs. unfold convert_key, bind.
        pose proof (depth_within_stable _ _ _ _ Hs Hd) as Hd1.
        apply depth_within_ref in Hd1 as (n1 & o1 & ? & Hl1 & Hall1). simplify_eq.
        destruct (stable_plain _ _ _ _ _ Hs Hl) as (ps1 & Hl1' & He).
        pose proof (eq_trans (eq_sym Hl1) Hl1') as Ho. simplify_eq.
        unfold hasOwnProperty. rewrite Hl1.
        destruct (get_prop "hasOwnProperty" ps1); [done |].
        destruct (has_prop k ps1); [| done].
        rewrite (get_plain _ _ _ _ Hl1).
        assert (depth_within h' n1 (default VUndefined (get_prop k ps1)) = true) as Hv.
        { destruct (get_prop k ps1) as [v |] eqn:Hg; [| by destruct n1].
          apply get_prop_values in Hg. by eapply Forall_forall in Hall1. }
        pose proof (convert_field_no_abort (convertTypes P (S n1)) k _ h' n1 Hv
                      (frames_convertTypes P (S n1)) (fun x h'' => IH x h'')) as Hc.
        by destruct (convert_field P (convertTypes P (S n1)) k
                       (default VUndefined (get_prop k ps1)) h'). }
      by destruct (for_in _ _ _ _).
    + apply array_map_no_abort; [simpl; eauto | apply frames_convertTypes |].
      intros [l' es'] y h' ? Hl' Hy Hs. simplify_eq. simpl in *. simplify_eq.
      apply IH. eapply depth_within_stable; [done |].
      by eapply Forall_forall in Hall.
Qed.

End Termination.

(** ** The rules of [convertTypes], one key at a time *)

Section Rules.

Variable P : Platform.

Lemma typed_of_name v : typed_of P "name" v = None.
Proof. destruct v; simpl; try done. by destruct (String.eqb s ""). Qed.

Lemma typed_of_string k v v' : typed_of P k v = Some v' -> exists s, v = VStr s.
Proof. destruct v; simpl; try done. eauto. Qed.

(** The rule for [_id] comes second: a string is first tried as a date. *)
Lemma convert_field_id rec s h :
  convert_field P rec "_id" (VStr s) h =
    match Date_parse P s with
    | Some t => Val (VDate (Some t)) h
    | None => new_ObjectId P s h
    end.
Proof.
  unfold convert_field, parses_as_date, new_Date. simpl.
  destruct (Date_parse P s) as [t |] eqn:Ht.
  - by rewrite bool_decide_eq_true_2.
  - rewrite bool_decide_eq_false_2; [done | by intros [? ?]].
Qed.

End Rules.

(** ** Arrays *)


(** An array passed to [convertTypes] itself goes through the first test of
    the function (lines 59-61): each element is normalized. *)
Lemma convertTypes_array P fuel la es h :
  h !! la = Some (OArr es) ->
  convertTypes P (S fuel) (VRef la) h
  = (run es' := mapM (convertTypes P fuel) es in alloc (OArr es')) h.
Proof.
  intros Hl. simpl. unfold bind at 1. unfold isArray. rewrite Hl.
  unfold array_map. by rewrite Hl.
Qed.

(** ** Fields whose conversion throws *)

Lemma mapM_not_val {A B} P (f : A -> M B) xs x h :
  (forall y, frames P (f y)) ->
  x ∈ xs ->
  (forall h' y h'', stable P h h' -> f x h' <> Val y h'') ->
  forall ys h', mapM f xs h <> Val ys h'.
Proof.
  intros Hf Hin Hx. revert h Hx.
  induction xs as [| x0 xs IH]; intros h Hx ys h' Hrun; [by apply elem_of_nil in Hin |].
  simpl in Hrun. apply bind_inv_val in Hrun as (y & h1 & Hy & Hrun).
  apply bind_inv_val in Hrun as (ys' & h2 & Hys & _).
  pose proof (Hf x0 h) as Hfx. rewrite Hy in Hfx.
  apply elem_of_cons in Hin as [<- | Hin].
  - eapply (Hx h); [apply stable_refl | exact Hy].
  - eapply (IH Hin h1); [| done].
    intros h3 y3 h4 Hs3. apply Hx. by eapply stable_trans.
Qed.

(** If the conversion of one field cannot return, normalizing the document
    cannot either. *)
Lemma convertTypes_field_throws P fuel h l ps key v0 :
  h !! l = Some (OPlain ps) ->
  key <> "__proto__" ->
  get_prop key ps = Some v0 ->
  (forall rec v ha v' hb,
      stable P h ha -> v = v0 \/ typed_of P key v0 = Some v ->
      convert_field P rec key v ha <> Val v' hb) ->
  forall r h', convertTypes P fuel (VRef l) h <> Val r h'.
Proof.
  intros Hl Hproto Hk Hthrows r h' Hrun.
  destruct (convertTypes_document P _ _ _ _ _ _ Hl Hrun)
    as (fuel' & h1 & ps' & -> & Hs & -> & -> & Hkeys).
  destruct (Hkeys key Hproto) as [_ Hin].
  destruct (Hin (get_prop_keys _ _ _ Hk))
    as (ha & v & v' & hb & Hsa & Hget & Hconv & Hsb & Hres).
  apply (Hthrows (convertTypes P fuel') v ha v' hb Hsa); [| exact Hconv].
  exact (stable_get P _ _ _ _ _ _ _ Hsa Hl Hk Hget).
Qed.

Lemma no_abort_not_val {A} (o : outcome A) :
  no_abort o -> (forall a h, o <> Val a h) -> exists e h, o = Exn e h.
Proof. destruct o; [intros _ Hn; by destruct (Hn a h) | eauto | done]. Qed.

(** ** Elements converted in place *)

Section InPlace.

Variable P : Platform.

Lemma convert_id_in_place_plain l ps k h :
  h !! l = Some (OPlain ps) ->
  convert_id_in_place P (VRef l) k h =
    match id_in_place P k ps with
    | Some ps' => Val tt (<[l := OPlain ps']> h)
    | None => Exn BSONError h
    end.
Proof.
  intros Hl. unfold convert_id_in_place, id_in_place, bind.
  rewrite (get_plain _ _ _ _ Hl).
  destruct (get_prop k ps) as [v |]; simpl;
    [| by rewrite list_insert_id].
  destruct v; try by rewrite list_insert_id.
  simpl. destruct (String.eqb s ""); simpl; [by rewrite list_insert_id |].
  unfold new_ObjectId. destruct (ObjectId_new P s); [| done].
  unfold ret, set. by rewrite Hl.
Qed.

Lemma convert_date_in_place_plain l ps k h :
  h !! l = Some (OPlain ps) ->
  convert_date_in_place P (VRef l) k h
  = Val tt (<[l := OPlain (date_in_place P k ps)]> h).
Proof.
  intros Hl. unfold convert_date_in_place, date_in_place, bind.
  rewrite (get_plain _ _ _ _ Hl).
  destruct (get_prop k ps) as [v |]; simpl;
    [| by rewrite list_insert_id].
  destruct v; try by rewrite list_insert_id.
  simpl. destruct (String.eqb s ""); simpl; [by rewrite list_insert_id |].
  unfold set. by rewrite Hl.
Qed.

Lemma convert_payment_plain l ps h :
  h !! l = Some (OPlain ps) ->
  convert_payment P (VRef l) h =
    match payment_props P ps with
    | Some ps' => Val (VRef l) (<[l := OPlain ps']> h)
    | None => Exn BSONError h
    end.
Proof.
  intros Hl. unfold convert_payment, payment_props, bind.
  rewrite (convert_id_in_place_plain _ _ _ _ Hl).
  destruct (id_in_place P "_id" ps) as [ps1 |]; simpl; [| done].
  rewrite (convert_date_in_place_plain l ps1).
  - unfold ret. by rewrite list_insert_insert_eq.
  - apply list_lookup_insert_eq. by eapply lookup_lt_Some.
Qed.

Lemma convert_purchasedProduct_plain l ps h :
  h !! l = Some (OPlain ps) ->
  convert_purchasedProduct P (VRef l) h =
    match id_in_place P "_id" ps with
    | Some ps1 =>
        match id_in_place P "productId" ps1 with
        | Some ps' => Val (VRef l) (<[l := OPlain ps']> h)
        | None => Exn BSONError (<[l := OPlain ps1]> h)
        end
    | None => Exn BSONError h
    end.
Proof.
  intros Hl. unfold convert_purchasedProduct, bind.
  rewrite (convert_id_in_place_plain _ _ _ _ Hl).
  destruct (id_in_place P "_id" ps) as [ps1 |]; simpl; [| done].
  rewrite (convert_id_in_place_plain l ps1).
  - destruct (id_in_place P "productId" ps1); [| done].
    unfold ret. by rewrite list_insert_insert_eq.
  - apply list_lookup_insert_eq. by eapply lookup_lt_Some.
Qed.

Lemma plain_at_dec h x : plain_at h x \/ ~ plain_at h x.
Proof.
  destruct x; try (right; intros (? & ? & ? & ?); done).
  destruct (h !! l) as [[ps | es] |] eqn:Hl.
  - left. by exists l, ps.
  - right. intros (? & ? & ? & ?). simplify_eq.
  - right. intros (? & ? & ? & ?). simplify_eq.
Qed.

(** On anything but a stored plain object the two callbacks change nothing
    (or throw, on [null] and [undefined]). *)
Lemma get_not_plain x k h v h' :
  k = "_id" \/ k = "productId" \/ k = "date" ->
  ~ plain_at h x -> get x k h = Val v h' -> v = VUndefined.
Proof.
  intros Hk Hnp. unfold get. destruct x; try (intros; by simplify_eq).
  - destruct Hk as [-> | [-> | ->]]; simpl; intros; by simplify_eq.
  - destruct (h !! l) as [[ps | es] |] eqn:Hl; [| | done].
    + destruct Hnp. by exists l, ps.
    + destruct Hk as [-> | [-> | ->]]; simpl; intros; by simplify_eq.
Qed.

Lemma convert_id_in_place_other x k h u h' :
  k = "_id" \/ k = "productId" ->
  ~ plain_at h x -> convert_id_in_place P x k h = Val u h' -> h' = h.
Proof.
  intros Hk Hnp Hrun. unfold convert_id_in_place in Hrun.
  apply bind_inv_val in Hrun as (v & h0 & Hget & Hrun).
  pose proof (get_store _ _ _ _ _ Hget) as ->.
  apply get_not_plain in Hget as ->; [| tauto | done].
  unfold ret in Hrun. by simplify_eq.
Qed.

Lemma convert_date_in_place_other x h u h' :
  ~ plain_at h x -> convert_date_in_place P x "date" h = Val u h' -> h' = h.
Proof.
  intros Hnp Hrun. unfold convert_date_in_place in Hrun.
  apply bind_inv_val in Hrun as (v & h0 & Hget & Hrun).
  pose proof (get_store _ _ _ _ _ Hget) as ->.
  apply get_not_plain in Hget as ->; [| tauto | done].
  unfold ret in Hrun. by simplify_eq.
Qed.

Lemma convert_payment_other x h y h' :
  ~ plain_at h x -> convert_payment P x h = Val y h' -> y = x /\ h' = h.
Proof.
  intros Hnp Hrun. unfold convert_payment in Hrun.
  apply bind_inv_val in Hrun as (u & h1 & H1 & Hrun).
  apply convert_id_in_place_other in H1 as ->; [| tauto | done].
  apply bind_inv_val in Hrun as (u' & h2 & H2 & Hrun).
  apply convert_date_in_place_other in H2 as ->; [| done].
  unfold ret in Hrun. by simplify_eq.
Qed.

Lemma convert_purchasedProduct_other x h y h' :
  ~ plain_at h x -> convert_purchasedProduct P x h = Val y h' -> y = x /\ h' = h.
Proof.
  intros Hnp Hrun. unfold convert_purchasedProduct in Hrun.
  apply bind_inv_val in Hrun as (u & h1 & H1 & Hrun).
  apply convert_id_in_place_other in H1 as ->; [| tauto | done].
  apply bind_inv_val in Hrun as (u' & h2 & H2 & Hrun).
  apply convert_id_in_place_other in H2 as ->; [| tauto | done].
  unfold ret in Hrun. by simplify_eq.
Qed.

(** Mapping a callback that updates its argument in place over the elements
    of an array. *)
Section Map.

Variable f : jsvalue -> M jsvalue.
Variable F : props -> option props.

Hypothesis f_plain : forall q ps h y h',
  h !! q = Some (OPlain ps) -> f (VRef q) h = Val y h' ->
  exists ps', F ps = Some ps' /\ y = VRef q /\ h' = <[q := OPlain ps']> h.
Hypothesis f_other : forall x h y h',
  ~ plain_at h x -> f x h = Val y h' -> y = x /\ h' = h.
Hypothesis F_idem : forall ps ps', F ps = Some ps' -> F ps' = Some ps'.

Lemma mapM_in_place es h es' h' :
  mapM f es h = Val es' h' ->
  es' = es /\ length h' = length h /\
  forall p,
    (VRef p ∈ es -> forall ps, h !! p = Some (OPlain ps) ->
       exists ps', F ps = Some ps' /\ h' !! p = Some (OPlain ps')) /\
    (VRef p ∉ es -> h' !! p = h !! p) /\
    ((forall ps, h !! p <> Some (OPlain ps)) -> h' !! p = h !! p).
Proof.
  revert h es' h'. induction es as [| x es IH]; intros h es' h' Hrun; simpl in Hrun.
  - unfold ret in Hrun. simplify_eq. split_and!; try done.
    intros p. split_and!; try done. by intros ?%elem_of_nil.
  - apply bind_inv_val in Hrun as (y & h1 & Hy & Hrun).
    apply bind_inv_val in Hrun as (ys & h2 & Hys & Hrun).
    unfold ret in Hrun. simplify_eq.
    destruct (IH _ _ _ Hys) as (-> & Hlen & Hrest).
    destruct (plain_at_dec h x) as [(q & ps & -> & Hq) | Hnp].
    + destruct (f_plain _ _ _ _ _ Hq Hy) as (ps1 & HF & -> & ->).
      assert (<[q := OPlain ps1]> h !! q = Some (OPlain ps1)) as Hq1.
      { apply list_lookup_insert_eq. by eapply lookup_lt_Some. }
      split_and!; [done | by rewrite Hlen, length_insert |].
      intros p. destruct (Hrest p) as (Hin & Hout & Hnon).
      destruct (decide (p = q)) as [-> | Hne].
      * split_and!.
        -- intros _ ps0 Hp. rewrite Hq in Hp. simplify_eq.
           destruct (decide (VRef q ∈ es)) as [Hqe | Hqe].
           ++ destruct (Hin Hqe _ Hq1) as (ps2 & HF2 & Hp2).
              rewrite (F_idem _ _ HF) in HF2. simplify_eq. eauto.
           ++ rewrite (Hout Hqe). eauto.
        -- intros Hnot. destruct Hnot. apply list_elem_of_here.
        -- intros Hnone. by destruct (Hnone ps).
      * rewrite list_lookup_insert_ne in Hin, Hout, Hnon by done.
        split_and!; [| | done].
        -- intros [? | ?]%elem_of_cons; [by simplify_eq | auto].
        -- intros Hnot. apply Hout. intros ?. apply Hnot.
           by apply list_elem_of_further.
    + destruct (f_other _ _ _ _ Hnp Hy) as [-> ->].
      split_and!; [done | done |].
      intros p. destruct (Hrest p) as (Hin & Hout & Hnon). split_and!; [| | done].
      * intros [<- | ?]%elem_of_cons; [| auto].
        intros ps Hp. destruct Hnp. by exists p, ps.
      * intros Hnot. apply Hout. intros ?. apply Hnot.
        by apply list_elem_of_further.
Qed.

End Map.

(** *** What the two updates do to the properties *)

Lemma id_in_place_keys k ps ps' : id_in_place P k ps = Some ps' -> ps'.*1 = ps.*1.
Proof.
  unfold id_in_place. destruct (get_prop k ps) as [v |] eqn:Hg; [| by intros [= <-]].
  destruct v; try by intros [= <-].
  destruct (String.eqb s ""); [by intros [= <-] |].
  destruct (ObjectId_new P s); [| done]. intros [= <-].
  apply set_prop_keys. eauto.
Qed.

Lemma id_in_place_other k k' ps ps' :
  id_in_place P k ps = Some ps' -> k' <> k -> get_prop k' ps' = get_prop k' ps.
Proof.
  unfold id_in_place. destruct (get_prop k ps) as [v |] eqn:Hg; [| by intros [= <-]].
  destruct v; try by intros [= <-].
  destruct (String.eqb s ""); [by intros [= <-] |].
  destruct (ObjectId_new P s); [| done]. intros [= <-] Hne.
  by apply get_prop_set_ne.
Qed.

Lemma id_in_place_same k ps ps' v :
  id_in_place P k ps = Some ps' -> get_prop k ps = Some v ->
  match v with
  | VStr s =>
      if String.eqb s "" then get_prop k ps' = Some v
      else exists id, ObjectId_new P s = Some id /\ get_prop k ps' = Some (VOid id)
  | _ => get_prop k ps' = Some v
  end.
Proof.
  unfold id_in_place. intros Hrun Hg. rewrite Hg in Hrun.
  destruct v; try by simplify_eq.
  destruct (String.eqb s ""); [by simplify_eq |].
  destruct (ObjectId_new P s) as [id |]; [| done]. simplify_eq.
  exists id. split; [done | apply get_prop_set_eq].
Qed.

Lemma id_in_place_settled k ps ps' : id_in_place P k ps = Some ps' -> settled k ps'.
Proof.
  intros Hrun. unfold settled.
  destruct (get_prop k ps) as [v |] eqn:Hg.
  - pose proof (id_in_place_same _ _ _ _ Hrun Hg) as Hs.
    destruct v; try by rewrite Hs.
    destruct (String.eqb_spec s "") as [-> | Hne]; [by rewrite Hs |].
    destruct Hs as (id & _ & ->). done.
  - unfold id_in_place in Hrun. rewrite Hg in Hrun. simplify_eq. by rewrite Hg.
Qed.

Lemma settled_id_in_place k ps : settled k ps -> id_in_place P k ps = Some ps.
Proof.
  unfold settled, id_in_place. destruct (get_prop k ps) as [v |]; [| done].
  destruct v; try done. by intros ->.
Qed.

Lemma date_in_place_keys k ps : (date_in_place P k ps).*1 = ps.*1.
Proof.
  unfold date_in_place. destruct (get_prop k ps) as [v |] eqn:Hg; [| done].
  destruct v; try done. destruct (String.eqb s ""); [done |].
  apply set_prop_keys. eauto.
Qed.

Lemma date_in_place_other k k' ps :
  k' <> k -> get_prop k' (date_in_place P k ps) = get_prop k' ps.
Proof.
  intros Hne. unfold date_in_place. destruct (get_prop k ps) as [v |]; [| done].
  destruct v; try done. destruct (String.eqb s ""); [done |].
  by apply get_prop_set_ne.
Qed.

Lemma date_in_place_same k ps v :
  get_prop k ps = Some v ->
  get_prop k (date_in_place P k ps) =
    Some match v with
         | VStr s => if String.eqb s "" then v else new_Date P s
         | _ => v
         end.
Proof.
  intros Hg. unfold date_in_place. rewrite Hg.
  destruct v; try done. destruct (String.eqb s ""); [done |].
  apply get_prop_set_eq.
Qed.

Lemma settled_date_in_place k ps : settled k ps -> date_in_place P k ps = ps.
Proof.
  unfold settled, date_in_place. destruct (get_prop k ps) as [v |]; [| done].
  destruct v; try done. by intros ->.
Qed.

Lemma date_in_place_settled k ps : settled k (date_in_place P k ps).
Proof.
  unfold settled. destruct (get_prop k ps) as [v |] eqn:Hg.
  - rewrite (date_in_place_same _ _ _ Hg). destruct v; try done.
    by destruct (String.eqb_spec s "").
  - unfold date_in_place. by rewrite Hg, Hg.
Qed.

Lemma settled_other k ps ps' :
  get_prop k ps' = get_prop k ps -> settled k ps -> settled k ps'.
Proof. unfold settled. by intros ->. Qed.

Lemma payment_props_idem ps ps' :
  payment_props P ps = Some ps' -> payment_props P ps' = Some ps'.
Proof.
  unfold payment_props. destruct (id_in_place P "_id" ps) as [ps1 |] eqn:H1; [| done].
  simpl. intros [= <-].
  rewrite settled_id_in_place.
  - simpl. f_equal. apply settled_date_in_place, date_in_place_settled.
  - eapply settled_other; [| by eapply id_in_place_settled].
    by apply date_in_place_other.
Qed.

Lemma purchasedProduct_props_idem ps ps' :
  purchasedProduct_props P ps = Some ps' -> purchasedProduct_props P ps' = Some ps'.
Proof.
  unfold purchasedProduct_props.
  destruct (id_in_place P "_id" ps) as [ps1 |] eqn:H1; [| done]. simpl.
  intros H2. rewrite settled_id_in_place.
  - simpl. apply settled_id_in_place. by eapply id_in_place_settled.
  - eapply settled_other; [| by eapply id_in_place_settled].
    by eapply id_in_place_other.
Qed.

End InPlace.

Lemma payment_props_converted P ps ps' :
  payment_props P ps = Some ps' -> payment_converted P ps ps'.
Proof.
  unfold payment_props.
  destruct (id_in_place P "_id" ps) as [ps1 |] eqn:H1; [| done].
  simpl. intros [= <-]. split_and!.
  - rewrite date_in_place_keys. by eapply id_in_place_keys.
  - intros k Hid Hdate. rewrite date_in_place_other by done.
    by eapply id_in_place_other.
  - intros v Hv. pose proof (id_in_place_same _ _ _ _ _ H1 Hv) as Hs.
    rewrite date_in_place_other by done. done.
  - intros v Hv. apply date_in_place_same.
    by rewrite (id_in_place_other _ _ _ _ _ H1).
  - intros Hid Hdate. unfold id_in_place in H1. rewrite Hid in H1. simplify_eq.
    unfold date_in_place. by rewrite Hdate.
Qed.

(** ** The restore loop *)

Section RestoreLoop.

Variable P : Platform.
Variable E : Env.

Lemma restore_loop_app fuel backupData before rest s :
  restore_loop P E fuel backupData (before ++ rest) s =
    match restore_loop P E fuel backupData before s with
    | Done s1 => restore_loop P E fuel backupData rest s1
    | Thrown e s1 => Thrown e s1
    | Aborted => Aborted
    end.
Proof.
  revert s. induction before as [| k before IH]; intros s; simpl; [done |].
  destruct (restore_collection P E fuel backupData k s); auto.
Qed.

End RestoreLoop.

(** ** Which objects a call may update *)

Lemma depth_within_mono h m m' v :
  depth_within h m v = true -> (m <= m')%nat -> depth_within h m' v = true.
Proof.
  revert m' v. induction m as [| m IH]; intros m' v; destruct v;
    try (intros; by destruct m'); try done.
  intros (n' & o & ? & Hl & Hall)%depth_within_ref Hle. simplify_eq.
  destruct m' as [| m']; [lia |].
  apply (depth_within_intro _ _ _ _ Hl).
  eapply Forall_impl; [done |]. simpl. intros c Hc. apply IH; [done | lia].
Qed.

Lemma within_refl Q h : within Q h h.
Proof. intros p o Hp. by left. Qed.

Lemma within_trans Q h1 h2 h3 : within Q h1 h2 -> within Q h2 h3 -> within Q h1 h3.
Proof.
  intros H12 H23 p o Hp. destruct (H12 p o Hp) as [Hp2 | ?]; [| by right].
  by apply H23.
Qed.

Lemma within_mono (Q Q' : nat -> Prop) h h' :
  (forall p, Q p -> Q' p) -> within Q h h' -> within Q' h h'.
Proof. intros HQ Hw p o Hp. destruct (Hw p o Hp); auto. Qed.

Lemma within_alloc Q h o : within Q h (h ++ [o]).
Proof. intros p o' Hp. left. by apply lookup_app_l_Some. Qed.

Lemma confined_mono {A} (Q Q' : nat -> Prop) h (o : outcome A) :
  (forall p, Q p -> Q' p) -> confined Q h o -> confined Q' h o.
Proof. intros HQ. destruct o; simpl; eauto using within_mono. Qed.

Lemma confined_bind {A B} Q (m : M A) (k : A -> M B) h :
  confined Q h (m h) ->
  (forall a h1, m h = Val a h1 -> confined Q h1 (k a h1)) ->
  confined Q h (bind m k h).
Proof.
  intros Hm Hk. unfold bind. destruct (m h) as [a h1 | e h1 |] eqn:Hrun; try done.
  specialize (Hk a h1 eq_refl). simpl in Hm.
  destruct (k a h1); simpl in *; eauto using within_trans.
Qed.

Lemma get_exn_store x k h e h' : get x k h = Exn e h' -> h' = h.
Proof. unfold get. intros Hg. repeat (case_match; simplify_eq); done. Qed.

Lemma confined_get Q x k h : confined Q h (get x k h).
Proof.
  destruct (get x k h) eqn:Hg; simpl; [| | done].
  - apply get_store in Hg as ->. apply within_refl.
  - apply get_exn_store in Hg as ->. apply within_refl.
Qed.

Lemma confined_set x k v h : confined (fun p => x = VRef p) h (set x k v h).
Proof.
  unfold set. destruct x; simpl; try apply within_refl.
  destruct (h !! l) as [[ps | es] |] eqn:Hl; simpl; try done.
  intros p o Hp. destruct (decide (p = l)) as [-> | Hne]; [by right | left].
  by rewrite list_lookup_insert_ne.
Qed.

Section Confinement.

Variable P : Platform.

Lemma confined_new_ObjectId Q s h : confined Q h (new_ObjectId P s h).
Proof.
  unfold new_ObjectId. destruct (ObjectId_new P s); simpl; apply within_refl.
Qed.

Lemma confined_convert_id_in_place x k h :
  confined (fun p => x = VRef p) h (convert_id_in_place P x k h).
Proof.
  unfold convert_id_in_place. apply confined_bind; [apply confined_get |].
  intros v h1 _. destruct v; try apply within_refl.
  destruct (truthy (VStr s)); [| apply within_refl].
  apply confined_bind; [apply confined_new_ObjectId |].
  intros o h2 _. apply confined_set.
Qed.

Lemma confined_convert_date_in_place x k h :
  confined (fun p => x = VRef p) h (convert_date_in_place P x k h).
Proof.
  unfold convert_date_in_place. apply confined_bind; [apply confined_get |].
  intros v h1 _. destruct v; try apply within_refl.
  destruct (truthy (VStr s)); [| apply within_refl].
  apply confined_set.
Qed.

Lemma confined_convert_payment x h :
  confined (fun p => x = VRef p) h (convert_payment P x h).
Proof.
  unfold convert_payment.
  apply confined_bind; [apply confined_convert_id_in_place | intros _ h1 _].
  apply confined_bind; [apply confined_convert_date_in_place | intros _ h2 _].
  apply within_refl.
Qed.

Lemma confined_convert_purchasedProduct x h :
  confined (fun p => x = VRef p) h (convert_purchasedProduct P x h).
Proof.
  unfold convert_purchasedProduct.
  apply confined_bind; [apply confined_convert_id_in_place | intros _ h1 _].
  apply confined_bind; [apply confined_convert_id_in_place | intros _ h2 _].
  apply within_refl.
Qed.

Lemma confined_convert_item Q x h : confined Q h (convert_item P x h).
Proof.
  unfold convert_item. destruct x; try apply within_refl.
  destruct (ObjectId_isValid P s); [apply confined_new_ObjectId | apply within_refl].
Qed.

Lemma confined_mapM {A B} Q (f : A -> M B) xs h :
  (forall x, frames P (f x)) ->
  (forall x h1, x ∈ xs -> stable P h h1 -> confined Q h1 (f x h1)) ->
  confined Q h (mapM f xs h).
Proof.
  intros Hf. revert h. induction xs as [| x xs IH]; intros h Hc; simpl;
    [apply within_refl |].
  apply confined_bind.
  { apply Hc; [apply list_elem_of_here | apply stable_refl]. }
  intros y h1 Hy. fold (mapM f xs).
  pose proof (Hf x h) as Hfx. rewrite Hy in Hfx.
  apply confined_bind; [| intros; apply within_refl].
  apply IH. intros x' h2 Hin Hs. apply Hc; [by apply list_elem_of_further |].
  by eapply stable_trans.
Qed.

Lemma confined_for_in {A} Q (body : string -> A -> M A) ks acc h :
  (forall k a, frames P (body k a)) ->
  (forall k a h1, k ∈ ks -> stable P h h1 -> confined Q h1 (body k a h1)) ->
  confined Q h (for_in body ks acc h).
Proof.
  intros Hf. revert acc h. induction ks as [| k ks IH]; intros acc h Hc; simpl;
    [apply within_refl |].
  apply confined_bind.
  { apply Hc; [apply list_elem_of_here | apply stable_refl]. }
  intros acc1 h1 Hk.
  pose proof (Hf k acc h) as Hfk. rewrite Hk in Hfk.
  apply IH. intros k' a h2 Hin Hs. apply Hc; [by apply list_elem_of_further |].
  by eapply stable_trans.
Qed.

Lemma confined_array_map Q f x h :
  (forall y, frames P (f y)) ->
  (forall l es y h1, x = VRef l -> h !! l = Some (OArr es) -> y ∈ es ->
                     stable P h h1 -> confined Q h1 (f y h1)) ->
  confined Q h (array_map f x h).
Proof.
  intros Hf Hc. unfold array_map. destruct x; try apply within_refl.
  destruct (h !! l) as [[ps | es] |] eqn:Hl; simpl; [apply within_refl | | done].
  apply (confined_bind Q (mapM f es) (fun es' => alloc (OArr es'))).
  - apply confined_mapM; [done |]. intros y h1 Hy Hs. by eapply Hc.
  - intros es' h1 _. apply within_alloc.
Qed.

Variable h0 : heap.

Lemma sbelow_ref v q : sbelow h0 v q -> exists l, v = VRef l.
Proof. destruct 1; eauto. Qed.

(** The conversion of a field updates only objects below its value. *)
Lemma confined_convert_field rec key v h n :
  depth_within h0 n v = true -> stable P h0 h ->
  (forall x, frames P (rec x)) ->
  (forall h1, stable P h0 h1 -> confined (sbelow h0 v) h1 (rec v h1)) ->
  confined (sbelow h0 v) h (convert_field P rec key v h).
Proof.
  intros Hd Hs Hrf Hrec. unfold convert_field.
  assert (forall l es y, v = VRef l -> h !! l = Some (OArr es) -> y ∈ es ->
            forall p, y = VRef p -> sbelow h0 v p) as Helem.
  { intros l es y -> Hl Hy p ->.
    apply depth_within_ref in Hd as (n' & o & -> & Hl0 & Hall).
    pose proof (Hs _ _ Hl0) as (o' & Hl' & He).
    pose proof (eq_trans (eq_sym Hl') Hl) as Ho. simplify_eq.
    destruct o as [ps | es0]; simpl in He; [done |]. subst es0.
    by eapply sbelow_child. }
  destruct (String.eqb key "name"); [apply within_refl |].
  destruct (parses_as_date P v); [destruct v; apply within_refl |].
  destruct (String.eqb key "_id" && bool_decide (typeof v = TyString)).
  { destruct v; try apply within_refl. apply confined_new_ObjectId. }
  destruct (String.eqb key "payments").
  { apply confined_array_map; [apply frames_convert_payment |].
    intros l es y h1 Hv Hl Hy Hs1.
    eapply confined_mono; [| apply confined_convert_payment]. eauto. }
  destruct (String.eqb key "purchasedProducts").
  { apply confined_array_map; [apply frames_convert_purchasedProduct |].
    intros l es y h1 Hv Hl Hy Hs1.
    eapply confined_mono; [| apply confined_convert_purchasedProduct]. eauto. }
  apply confined_bind.
  { destruct (isArray v h) eqn:Harr; simpl; [| | done].
    - apply isArray_store in Harr as ->. apply within_refl.
    - unfold isArray in Harr. repeat (case_match; simplify_eq). }
  intros b h1 Harr. apply isArray_store in Harr as ->. destruct b.
  - apply confined_array_map; [apply frames_convert_item |].
    intros. apply confined_convert_item.
  - by apply Hrec.
Qed.

(** One turn of the loop over a document updates only objects below the
    value of the key it visits. *)
Lemma confined_convert_key rec l ps n k a h :
  depth_within h0 n (VRef l) = true -> h0 !! l = Some (OPlain ps) ->
  stable P h0 h ->
  (forall x, frames P (rec x)) ->
  (forall x m h1, depth_within h0 m x = true -> stable P h0 h1 ->
                  confined (sbelow h0 x) h1 (rec x h1)) ->
  confined (fun q => exists v, get_prop k ps = Some v /\ sbelow h0 v q) h
    (convert_key P rec (VRef l) k a h).
Proof.
  intros Hd Hl Hs Hrf Hrec. unfold convert_key.
  apply confined_bind.
  { destruct (hasOwnProperty (VRef l) k h) eqn:Hown; simpl; [| | done].
    - apply hasOwnProperty_store in Hown as ->. apply within_refl.
    - apply hasOwnProperty_exn_store in Hown as ->. apply within_refl. }
  intros own h1 Hown. pose proof (hasOwnProperty_store _ _ _ _ _ Hown) as ->.
  destruct own; [| apply within_refl].
  apply confined_bind; [apply confined_get |].
  intros v h1 Hget. pose proof (get_store _ _ _ _ _ Hget) as ->.
  apply confined_bind; [| intros; apply within_refl].
  apply depth_within_ref in Hd as (n' & o & -> & Hl0 & Hall).
  pose proof (eq_trans (eq_sym Hl0) Hl) as Ho. simplify_eq. simpl in Hall.
  destruct (stable_plain P _ _ _ _ Hs Hl0) as (ps1 & Hl1 & He).
  rewrite (get_plain _ _ _ _ Hl1) in Hget.
  assert (depth_within h0 n' v = true /\
          (get_prop k ps = Some v \/ forall q, ~ sbelow h0 v q)) as [Hv Hcase].
  { destruct (get_prop k ps) as [w0 |] eqn:Hw0.
    - destruct (evolves_get_prop P _ _ _ _ He Hw0) as (w' & Hw' & Hor).
      rewrite Hw' in Hget. simpl in Hget. simplify_eq.
      destruct Hor as [-> | Hty].
      + split; [| by left]. apply get_prop_values in Hw0.
        by eapply Forall_forall in Hall.
      + split; [by eapply typed_of_leaf | right].
        intros q [p ->]%sbelow_ref.
        by pose proof (typed_of_leaf P _ _ _ h0 O Hty).
    - rewrite (evolves_get_prop_none P _ _ _ He Hw0) in Hget.
      simpl in Hget. simplify_eq. split; [by destruct n' | right].
      by intros q [p ?]%sbelow_ref. }
  eapply confined_mono; [| apply (confined_convert_field rec k v h n'); eauto].
  intros q Hq. destruct Hcase as [Hk | Hno]; [eauto | by destruct (Hno q)].
Qed.

(** A call on a finite value updates only objects below the value. *)
Lemma confined_convertTypes fuel n data h :
  depth_within h0 n data = true -> stable P h0 h ->
  confined (sbelow h0 data) h (convertTypes P fuel data h).
Proof.
  revert n data h. induction fuel as [| fuel IH]; intros n data h Hd Hs; [done |].
  simpl. apply confined_bind.
  { destruct (isArray data h) eqn:Harr; simpl; [| | done].
    - apply isArray_store in Harr as ->. apply within_refl.
    - unfold isArray in Harr. repeat (case_match; simplify_eq). }
  intros b h1 Harr. pose proof (isArray_store _ _ _ _ Harr) as ->. destruct b.
  - apply confined_array_map; [apply frames_convertTypes |].
    intros l es y h1 -> Hl Hy Hs1.
    apply depth_within_ref in Hd as (n' & o & -> & Hl0 & Hall).
    pose proof (Hs _ _ Hl0) as (o' & Hl' & He).
    pose proof (eq_trans (eq_sym Hl') Hl) as Ho. simplify_eq.
    destruct o as [ps | es0]; simpl in He; [done |]. subst es0. simpl in Hall.
    eapply confined_mono; [| apply (IH n')].
    + intros p Hp. by eapply sbelow_step.
    + by eapply Forall_forall in Hall.
    + by eapply stable_trans.
  - destruct (bool_decide (typeof data = TyObject)
              && negb (bool_decide (data = VNull))) eqn:Hobj;
      [| apply within_refl].
    apply confined_bind.
    { destruct (own_keys data h) eqn:Hk; simpl; [| | done].
      - apply own_keys_store in Hk as ->. apply within_refl.
      - unfold own_keys in Hk. repeat (case_match; simplify_eq). }
    intros ks h1 Hk. pose proof (own_keys_store _ _ _ _ Hk) as ->.
    apply confined_bind; [| intros; apply within_alloc].
    apply confined_for_in.
    { intros. apply frames_convert_key, frames_convertTypes. }
    intros k a h1 Hin Hs1.
    pose proof (stable_trans P _ _ _ Hs Hs1) as Hs01.
    destruct data; try done;
      try (unfold own_keys in Hk; simplify_eq; by apply elem_of_nil in Hin).
    apply depth_within_ref in Hd as Hd'. destruct Hd' as (n' & o & -> & Hl0 & Hall).
    destruct o as [ps | es].
    2: { pose proof (stable_array P _ _ _ _ Hs Hl0) as Hl1.
         unfold isArray in Harr. rewrite Hl1 in Harr. simplify_eq. }
    eapply confined_mono;
      [| apply (confined_convert_key (convertTypes P fuel) l ps (S n'));
         eauto using frames_convertTypes].
    intros q (v & Hv & Hq). eapply sbelow_step; [done | | done].
    simpl. by eapply get_prop_values.
Qed.

End Confinement.

Lemma sbelow_shallower h n v p :
  depth_within h n v = true -> sbelow h v p -> shallower h n p.
Proof.
  intros Hd Hb. revert n Hd.
  induction Hb as [l o p Hl Hp | l o c p Hl Hc Hb IH]; intros n Hd.
  - apply depth_within_ref in Hd as (n' & o' & -> & Hl' & Hall).
    pose proof (eq_trans (eq_sym Hl') Hl) as Ho. simplify_eq.
    exists n'. split; [lia |]. by eapply Forall_forall in Hall.
  - apply depth_within_ref in Hd as (n' & o' & -> & Hl' & Hall).
    pose proof (eq_trans (eq_sym Hl') Hl) as Ho. simplify_eq.
    destruct (IH n') as (m & Hm & Hdm); [by eapply Forall_forall in Hall |].
    exists m. split; [lia | done].
Qed.

Lemma sbelow_reachable h n v p :
  depth_within h n v = true -> sbelow h v p -> reachable h n v p = true.
Proof.
  intros Hd Hb. revert n Hd.
  induction Hb as [l o p Hl Hp | l o c p Hl Hc Hb IH]; intros n Hd.
  - apply depth_within_ref in Hd as (n' & o' & -> & Hl' & Hall).
    pose proof (eq_trans (eq_sym Hl') Hl) as Ho. simplify_eq.
    simpl. rewrite Hl. apply existsb_exists. exists (VRef p).
    split; [by apply list_elem_of_In |]. by rewrite bool_decide_eq_true_2.
  - apply depth_within_ref in Hd as (n' & o' & -> & Hl' & Hall).
    pose proof (eq_trans (eq_sym Hl') Hl) as Ho. simplify_eq.
    simpl. rewrite Hl. apply existsb_exists. exists c.
    split; [by apply list_elem_of_In |].
    rewrite IH; [apply orb_true_r |]. by eapply Forall_forall in Hall.
Qed.

(** The document a call is applied to is not itself updated, as long as it
    is finite. *)
Lemma convertTypes_root_kept P fuel n l h :
  depth_within h n (VRef l) = true ->
  match convertTypes P fuel (VRef l) h with
  | Val _ h' | Exn _ h' => h' !! l = h !! l
  | Abort => True
  end.
Proof.
  intros Hd.
  assert (~ sbelow h (VRef l) l) as Hacyclic.
  { intros Hb.
    assert (exists m, depth_within h m (VRef l) = true /\ ~ shallower h m l)
      as (m & Hm & Hleast).
    { clear Hb. induction n as [| n IH]; [done |].
      destruct (depth_within h n (VRef l)) eqn:Hn; [by apply IH |].
      exists (S n). split; [done |]. intros (k & Hk & Hdk).
      rewrite (depth_within_mono _ k n) in Hn; [done | done | lia]. }
    apply Hleast. by eapply sbelow_shallower. }
  pose proof (confined_convertTypes P h fuel n (VRef l) h Hd (stable_refl P h)) as Hc.
  pose proof (depth_within_allocated _ _ _ Hd) as [o Ho].
  destruct (convertTypes P fuel (VRef l) h) as [r h' | e h' |]; simpl in Hc; [| | done].
  - destruct (Hc _ _ Ho) as [-> | ?]; done.
  - destruct (Hc _ _ Ho) as [-> | ?]; done.
Qed.

(** The turn of a loop that visits [key], and what the other turns may have
    updated before and after it. *)
Lemma for_in_visit {A} P (Q : string -> nat -> Prop) (body : string -> A -> M A)
    ks key acc h acc' h' :
  (forall k a, frames P (body k a)) ->
  (forall k a h1, k ∈ ks -> stable P h h1 -> confined (Q k) h1 (body k a h1)) ->
  NoDup ks -> key ∈ ks ->
  for_in body ks acc h = Val acc' h' ->
  exists ha acc_a acc_b hb,
    stable P h ha /\
    within (fun q => exists k, k ∈ ks /\ k <> key /\ Q k q) h ha /\
    body key acc_a ha = Val acc_b hb /\
    stable P hb h' /\
    within (fun q => exists k, k ∈ ks /\ k <> key /\ Q k q) hb h'.
Proof.
  intros Hf. revert acc h.
  induction ks as [| k ks IH]; intros acc h Hc Hnd Hin Hrun;
    [by apply elem_of_nil in Hin |].
  simpl in Hrun. apply bind_inv_val in Hrun as (acc1 & h1 & Hk & Hrest).
  apply NoDup_cons in Hnd as [Hk_notin Hnd].
  pose proof (Hf k acc h) as Hfk. rewrite Hk in Hfk.
  pose proof (Hc k acc h (list_elem_of_here _ _) (stable_refl P h)) as Hck.
  rewrite Hk in Hck. simpl in Hck.
  assert (forall k' a h2, k' ∈ ks -> stable P h1 h2 -> confined (Q k') h2 (body k' a h2))
    as Hc1.
  { intros k' a h2 Hk' Hs2. apply Hc; [by apply list_elem_of_further |].
    by eapply stable_trans. }
  destruct (decide (key = k)) as [-> | Hne].
  - exists h, acc, acc1, h1. split_and!; try done.
    + apply stable_refl.
    + apply within_refl.
    + pose proof (frames_for_in P body ks acc1 Hf h1) as Hfr. by rewrite Hrest in Hfr.
    + pose proof (confined_for_in P (fun q => exists k', k' ∈ k :: ks /\ k' <> k /\ Q k' q)
                    body ks acc1 h1 Hf) as Hcf.
      rewrite Hrest in Hcf. apply Hcf. intros k' a h2 Hk' Hs2.
      eapply confined_mono; [| by apply Hc1]. intros q Hq.
      exists k'. split_and!; [by apply list_elem_of_further | | done].
      intros ->. done.
  - apply elem_of_cons in Hin as [? | Hin]; [done |].
    destruct (IH acc1 h1 Hc1 Hnd Hin Hrest)
      as (ha & acc_a & acc_b & hb & Hsa & Hwa & Hbody & Hsb & Hwb).
    exists ha, acc_a, acc_b, hb. split_and!; try done.
    + by eapply stable_trans.
    + eapply within_trans.
      * eapply within_mono; [| exact Hck]. intros q Hq.
        exists k. split_and!; [apply list_elem_of_here | done | done].
      * eapply within_mono; [| exact Hwa]. intros q (k' & Hk' & Hne' & Hq).
        exists k'. split_and!; [by apply list_elem_of_further | done | done].
    + eapply within_mono; [| exact Hwb]. intros q (k' & Hk' & Hne' & Hq).
      exists k'. split_and!; [by apply list_elem_of_further | done | done].
Qed.

(** ** Parsed JSON is finite *)

Lemma json_nested_ind (Q : json -> Prop) :
  Q JNull -> (forall b, Q (JBool b)) -> (forall n, Q (JNum n)) ->
  (forall s, Q (JStr s)) ->
  (forall items, Forall Q items -> Q (JArr items)) ->
  (forall fields, Forall (fun kj => Q kj.2) fields -> Q (JObj fields)) ->
  forall j, Q j.
Proof.
  intros Hnull Hbool Hnum Hstr Harr Hobj.
  fix IH 1. intros [| b | n | s | items | fields].
  - exact Hnull.
  - apply Hbool.
  - apply Hnum.
  - apply Hstr.
  - apply Harr. induction items as [| x items IHitems]; constructor;
      [apply IH | exact IHitems].
  - apply Hobj. induction fields as [| [k x] fields IHfields]; constructor;
      [apply IH | exact IHfields].
Qed.

Lemma depth_within_app h ext n v :
  depth_within h n v = true -> depth_within (h ++ ext) n v = true.
Proof.
  revert v. induction n as [| n IH]; intros v; destruct v; try done.
  intros (n' & o & ? & Hl & Hall)%depth_within_ref. simplify_eq.
  apply (depth_within_intro _ _ _ o); [by apply lookup_app_l_Some |].
  eapply Forall_impl; [done |]. simpl. auto.
Qed.

Lemma set_prop_values k x ps v :
  v ∈ (set_prop k x ps).*2 -> v = x \/ v ∈ ps.*2.
Proof.
  induction ps as [| [k0 v0] ps IH]; simpl.
  - intros ?%list_elem_of_singleton. by left.
  - destruct (String.eqb k k0); simpl.
    + intros [-> | ?]%elem_of_cons; [by left | right].
      by apply list_elem_of_further.
    + intros [-> | Hin]%elem_of_cons; [right; apply list_elem_of_here |].
      destruct (IH Hin); [by left | right]. by apply list_elem_of_further.
Qed.

Lemma foldl_set_prop_values (kvs acc : props) v :
  v ∈ (foldl (fun acc kv => set_prop kv.1 kv.2 acc) acc kvs).*2 ->
  v ∈ acc.*2 \/ v ∈ kvs.*2.
Proof.
  revert acc. induction kvs as [| [k x] kvs IH]; intros acc; simpl; [by left |].
  intros [Hacc | Hkvs]%IH.
  - apply set_prop_values in Hacc as [-> | ?]; [right | by left].
    apply list_elem_of_here.
  - right. by apply list_elem_of_further.
Qed.

Lemma reachable_sbelow h n v p : reachable h n v p = true -> sbelow h v p.
Proof.
  revert v. induction n as [| n IH]; intros v; destruct v as [| | | | | | | l]; try done.
  simpl. destruct (h !! l) as [o |] eqn:Hl; [| done].
  intros (c & Hc & Hor)%existsb_exists. apply list_elem_of_In in Hc.
  apply orb_true_iff in Hor as [Heq | Hr].
  - apply bool_decide_eq_true in Heq as ->. by eapply sbelow_child.
  - eapply sbelow_step; eauto.
Qed.

Lemma sbelow_app h ext n v p :
  depth_within h n v = true -> sbelow (h ++ ext) v p -> sbelow h v p.
Proof.
  intros Hd Hb. revert n Hd.
  induction Hb as [l o p Hl Hp | l o c p Hl Hc Hb IH]; intros n Hd;
    apply depth_within_ref in Hd as (n' & o' & -> & Hl' & Hall);
    pose proof (lookup_app_l_Some _ ext _ _ Hl') as Hl'';
    pose proof (eq_trans (eq_sym Hl'') Hl) as Ho; simplify_eq.
  - by eapply sbelow_child.
  - eapply sbelow_step; [done | done |]. apply (IH n').
    by eapply Forall_forall in Hall.
Qed.

Lemma touches_app h ext n v p :
  depth_within h n v = true -> touches (h ++ ext) v p -> touches h v p.
Proof. intros Hd [-> | Hb]; [by left | right]. by eapply sbelow_app. Qed.

Lemma built_app h ext n lo v : built h n lo v -> built (h ++ ext) n lo v.
Proof.
  intros [Hd Hr]. split; [by apply depth_within_app |].
  intros p Hp%(touches_app _ _ n); [| done].
  apply Hr in Hp. rewrite length_app. lia.
Qed.

Lemma built_mono h n n' lo lo' v :
  built h n lo v -> (n <= n')%nat -> (lo' <= lo)%nat -> built h n' lo' v.
Proof.
  intros [Hd Hr] Hn Hlo. split; [by eapply depth_within_mono |].
  intros p Hp%Hr. lia.
Qed.

Lemma built_leaf h n lo v : (forall l, v <> VRef l) -> built h n lo v.
Proof.
  intros Hv. split; [destruct v as [| | | | | | | l]; [by destruct n .. | by destruct (Hv l)] |].
  intros p [-> | [l ->]%sbelow_ref]; by edestruct Hv.
Qed.

(** A new object whose children are built is built. *)
Lemma built_alloc h n lo o :
  Forall (built h n lo) (children o) -> (lo <= length h)%nat ->
  built (h ++ [o]) (S n) lo (VRef (length h)).
Proof.
  intros Hall Hlo.
  assert ((h ++ [o]) !! length h = Some o) as Hl
    by by rewrite lookup_app_r, Nat.sub_diag.
  split.
  - apply (depth_within_intro _ _ _ o); [done |].
    eapply Forall_impl; [done |]. simpl. intros c [Hd _].
    by apply depth_within_app.
  - intros p Hp. rewrite length_app. simpl.
    assert (p = length h \/ exists c, c ∈ children o /\ touches h c p)
      as [-> | (c & Hc & Hcp)]; [| lia |].
    + destruct Hp as [Heq | Hb]; [left; by simplify_eq | right].
      inversion Hb as [l o' p' Hl' Hin | l o' c p' Hl' Hin Hb']; subst;
        pose proof (eq_trans (eq_sym Hl') Hl) as Ho; simplify_eq.
      * exists (VRef p). split; [done | by left].
      * exists c. split; [done | right].
        eapply Forall_forall in Hall as [Hd _]; [| done].
        by eapply sbelow_app.
    + eapply Forall_forall in Hall as [_ Hr]; [| done]. apply Hr in Hcp. lia.
Qed.

(** Values built one after the other are built, and no object is touched
    by two of them. *)
Lemma mapM_built {A B} (f : A -> M B) (val : B -> jsvalue) (d : A -> nat) xs :
  Forall (fun x => forall h, exists y ext,
            f x h = Val y (h ++ ext) /\
            built (h ++ ext) (d x) (length h) (val y)) xs ->
  forall h, exists ys ext,
    mapM f xs h = Val ys (h ++ ext) /\
    Forall (fun y => built (h ++ ext)
                       (foldr (fun x n => Nat.max (d x) n) O xs)
                       (length h) (val y)) ys /\
    forall i j yi yj p,
      ys !! i = Some yi -> ys !! j = Some yj -> i <> j ->
      touches (h ++ ext) (val yi) p -> touches (h ++ ext) (val yj) p -> False.
Proof.
  induction 1 as [| x xs Hx _ IH]; intros h.
  - exists [], []. rewrite app_nil_r. split_and!; [done | constructor |].
    intros i j yi yj p Hi. by rewrite lookup_nil in Hi.
  - destruct (Hx h) as (y & e1 & Hy & Hb).
    destruct (IH (h ++ e1)) as (ys & e2 & Hys & Hbs & Hsep).
    exists (y :: ys), (e1 ++ e2). rewrite app_assoc.
    assert (forall z, z ∈ ys -> forall p,
              touches ((h ++ e1) ++ e2) (val z) p -> (length (h ++ e1) <= p)%nat)
      as Hlater.
    { intros z Hz p Hp. eapply Forall_forall in Hbs as [_ Hr]; [| done].
      apply Hr in Hp. lia. }
    assert (forall p, touches ((h ++ e1) ++ e2) (val y) p ->
                      (p < length (h ++ e1))%nat) as Hfirst.
    { intros p Hp. destruct Hb as [Hd Hr].
      apply (touches_app _ _ _ _ _ Hd), Hr in Hp. lia. }
    split_and!.
    + change (mapM f (x :: xs) h)
        with (bind (f x) (fun y => bind (mapM f xs) (fun ys => ret (y :: ys))) h).
      by rewrite (bind_val _ _ _ _ _ Hy), (bind_val _ _ _ _ _ Hys).
    + simpl. constructor.
      * apply built_app. eapply built_mono; [done | lia | lia].
      * eapply Forall_impl; [done |]. simpl. intros z Hz.
        eapply built_mono; [done | lia | rewrite length_app; lia].
    + intros [| i] [| j] yi yj p Hi Hj Hne Hti Htj; simpl in Hi, Hj;
        simplify_eq.
      * apply Hfirst in Hti. apply list_elem_of_lookup_2 in Hj.
        apply (Hlater _ Hj) in Htj. lia.
      * apply Hfirst in Htj. apply list_elem_of_lookup_2 in Hi.
        apply (Hlater _ Hi) in Hti. lia.
      * eapply (Hsep i j); eauto.
Qed.

(** What [load] builds is allocated on top of the store it starts from, is
    no deeper than the JSON value, and touches nothing that was there. *)
Lemma load_built j :
  forall h, exists v ext,
    load j h = Val v (h ++ ext) /\
    built (h ++ ext) (json_depth j) (length h) v.
Proof.
  induction j as [| b | n | s | items IH | fields IH] using json_nested_ind;
    intros h.
  - exists VNull, []. rewrite app_nil_r. split; [done | by apply built_leaf].
  - exists (VBool b), []. rewrite app_nil_r. split; [done | by apply built_leaf].
  - exists (VNum n), []. rewrite app_nil_r. split; [done | by apply built_leaf].
  - exists (VStr s), []. rewrite app_nil_r. split; [done | by apply built_leaf].
  - destruct (mapM_built load id json_depth items IH h)
      as (vs & ext & Hmap & Hbs & _).
    exists (VRef (length (h ++ ext))), (ext ++ [OArr vs]).
    cbn [load]. rewrite (bind_val _ _ _ _ _ Hmap). unfold alloc.
    rewrite app_assoc. split; [done |]. cbn [json_depth].
    eapply built_alloc; [exact Hbs | rewrite length_app; lia].
  - destruct (mapM_built (fun kj => run v := load kj.2 in ret (kj.1, v))
                snd (fun kj => json_depth kj.2) fields) with (h := h)
      as (ps & ext & Hmap & Hbs & _).
    { eapply Forall_impl; [exact IH |]. simpl. intros [k x] Hx h0.
      destruct (Hx h0) as (v & e & Hv & Hb). exists (k, v), e.
      simpl in *. by rewrite (bind_val _ _ _ _ _ Hv). }
    exists (VRef (length (h ++ ext))),
      (ext ++ [OPlain (foldl (fun acc kv => set_prop kv.1 kv.2 acc) [] ps)]).
    cbn [load]. rewrite (bind_val _ _ _ _ _ Hmap). unfold alloc.
    rewrite app_assoc. split; [done |]. cbn [json_depth].
    eapply built_alloc; [| rewrite length_app; lia].
    apply Forall_forall. intros w Hw. simpl in Hw.
    apply foldl_set_prop_values in Hw as [Hw | Hw]; [by apply elem_of_nil in Hw |].
    apply list_elem_of_fmap in Hw as (kv & -> & Hkv).
    by eapply Forall_forall in Hbs.
Qed.

Lemma load_depth_within j :
  forall h, exists v ext,
    load j h = Val v (h ++ ext) /\
    depth_within (h ++ ext) (json_depth j) v = true.
Proof.
  intros h. destruct (load_built j h) as (v & ext & Hload & Hd & _). eauto.
Qed.

Lemma set_prop_key_elem k v ps x :
  x ∈ (set_prop k v ps).*1 -> x = k \/ x ∈ ps.*1.
Proof.
  induction ps as [| [k0 v0] ps IH]; simpl.
  - intros ?%list_elem_of_singleton. by left.
  - destruct (String.eqb_spec k k0) as [-> | Hne]; simpl.
    + intros [-> | ?]%elem_of_cons; [by left | right].
      by apply list_elem_of_further.
    + intros [-> | Hin]%elem_of_cons; [right; apply list_elem_of_here |].
      destruct (IH Hin) as [-> | ?]; [by left | right].
      by apply list_elem_of_further.
Qed.

Lemma set_prop_NoDup k v ps : NoDup ps.*1 -> NoDup (set_prop k v ps).*1.
Proof.
  induction ps as [| [k0 v0] ps IH]; simpl.
  - intros _. apply NoDup_singleton.
  - intros [Hk0 Hnd]%NoDup_cons.
    destruct (String.eqb_spec k k0) as [-> | Hne]; simpl.
    + by apply NoDup_cons.
    + apply NoDup_cons. split; [| auto].
      intros [-> | ?]%set_prop_key_elem; done.
Qed.

Lemma foldl_set_prop_NoDup acc (kvs : props) :
  NoDup acc.*1 ->
  NoDup (foldl (fun acc kv => set_prop kv.1 kv.2 acc) acc kvs).*1.
Proof.
  revert acc. induction kvs as [| [k x] kvs IH]; intros acc Hnd; simpl; [done |].
  by apply IH, set_prop_NoDup.
Qed.

Lemma foldl_set_prop_lookup acc (kvs : props) k v :
  get_prop k (foldl (fun acc kv => set_prop kv.1 kv.2 acc) acc kvs) = Some v ->
  get_prop k acc = Some v \/ exists i, kvs !! i = Some (k, v).
Proof.
  revert acc. induction kvs as [| [k0 x] kvs IH]; intros acc; simpl; [by left |].
  intros [Hacc | [i Hi]]%IH.
  - destruct (decide (k = k0)) as [-> | Hne].
    + rewrite get_prop_set_eq in Hacc. simplify_eq. right. by exists O.
    + rewrite get_prop_set_ne in Hacc by done. by left.
  - right. by exists (S i).
Qed.

Lemma NoDup_get_prop k v ps :
  NoDup ps.*1 -> In (k, v) ps -> get_prop k ps = Some v.
Proof.
  induction ps as [| [k0 v0] ps IH]; simpl; [done |].
  intros [Hk0 Hnd]%NoDup_cons [Heq | Hin].
  - simplify_eq. by rewrite String.eqb_refl.
  - destruct (String.eqb_spec k k0) as [-> | Hne]; [| auto].
    destruct Hk0. apply list_elem_of_fmap. exists (k0, v).
    split; [done | by apply list_elem_of_In].
Qed.

(** A document parsed from JSON has distinct keys, is finite, and none of
    the elements of an array it holds in a field is shared with another
    field. *)
Lemma load_unshared fields h :
  exists l ps h1,
    load (JObj fields) h = Val (VRef l) h1 /\
    h1 !! l = Some (OPlain ps) /\
    depth_within h1 (json_depth (JObj fields)) (VRef l) = true /\
    NoDup ps.*1 /\
    forall key la es,
      get_prop key ps = Some (VRef la) -> h1 !! la = Some (OArr es) ->
      unshared h1 (Nat.pred (json_depth (JObj fields))) key ps es = true.
Proof.
  destruct (mapM_built (fun kj => run v := load kj.2 in ret (kj.1, v))
              snd (fun kj => json_depth kj.2) fields) with (h := h)
    as (kvs & ext & Hmap & Hbs & Hsep).
  { apply Forall_forall. intros [k x] _ h0.
    destruct (load_built x h0) as (v & e & Hv & Hb). exists (k, v), e.
    simpl in *. by rewrite (bind_val _ _ _ _ _ Hv). }
  set (ps := foldl (fun acc kv => set_prop kv.1 kv.2 acc) [] kvs).
  assert (Forall (built (h ++ ext)
                    (foldr (fun kj n => Nat.max (json_depth kj.2) n) O fields)
                    (length h)) (children (OPlain ps))) as Hch.
  { apply Forall_forall. intros w Hw. simpl in Hw.
    apply foldl_set_prop_values in Hw as [Hw | Hw]; [by apply elem_of_nil in Hw |].
    apply list_elem_of_fmap in Hw as (kv & -> & Hkv).
    by eapply Forall_forall in Hbs. }
  exists (length (h ++ ext)), ps, ((h ++ ext) ++ [OPlain ps]). split_and!.
  - cbn [load]. by rewrite (bind_val _ _ _ _ _ Hmap).
  - by rewrite lookup_app_r, Nat.sub_diag.
  - cbn [json_depth]. eapply built_alloc; [exact Hch | rewrite length_app; lia].
  - by apply foldl_set_prop_NoDup, NoDup_nil.
  - intros key la es Hkey Hla. cbn [json_depth Nat.pred].
    apply forallb_forall. intros [k v] Hin. simpl.
    destruct (String.eqb_spec k key) as [-> | Hne]; [done |]. simpl.
    apply forallb_forall. intros x Hx. destruct x as [| | | | | | | p]; try done.
    apply negb_true_iff. apply not_true_is_false. intros Hr%reachable_sbelow.
    apply NoDup_get_prop in Hin; [| by apply foldl_set_prop_NoDup, NoDup_nil].
    apply foldl_set_prop_lookup in Hin as [? | [i Hi]]; [done |].
    apply foldl_set_prop_lookup in Hkey as [? | [j Hj]]; [done |].
    pose proof (list_elem_of_lookup_2 _ _ _ Hi) as Hvi.
    pose proof (list_elem_of_lookup_2 _ _ _ Hj) as Hvj.
    destruct (proj1 (Forall_forall _ _) Hbs _ Hvi) as [Hdv _].
    destruct (proj1 (Forall_forall _ _) Hbs _ Hvj) as [_ Hrange].
    simpl in Hdv, Hrange.
    destruct (Hrange la) as [_ Hlt]; [by left |].
    rewrite lookup_app_l in Hla by done.
    apply (Hsep i j (k, v) (key, VRef la) p); try done.
    + intros ->. rewrite Hi in Hj. by simplify_eq.
    + right. by eapply sbelow_app.
    + right. eapply sbelow_child; [done |]. simpl. by apply list_elem_of_In.
Qed.

(** Normalizing what was loaded from a JSON value returns or throws. *)
Lemma convertTypes_on_json P j h :
  exists v h1,
    load j h = Val v h1 /\ no_abort (convertTypes P (S (json_depth j)) v h1).
Proof.
  destruct (load_depth_within j h) as (v & ext & Hload & Hd).
  exists v, (h ++ ext). split; [done |]. by apply convertTypes_no_abort.
Qed.

(** ** The fields of a finite document *)

(** A value read from a document that is the same at the end of the call as
    at its start is the value it had at the start. *)
Lemma read_while_kept P h ha h' l ps key v0 v :
  stable P h ha -> stable P ha h' ->
  h !! l = Some (OPlain ps) -> h' !! l = Some (OPlain ps) ->
  get_prop key ps = Some v0 ->
  get (VRef l) key ha = Val v ha -> v = v0.
Proof.
  intros Hsa Hend Hl Hkept Hk Hget.
  destruct (stable_plain P _ _ _ _ Hsa Hl) as (psa & Hla & Hea).
  rewrite (get_plain _ _ _ _ Hla) in Hget.
  destruct (evolves_get_prop P _ _ _ _ Hea Hk) as (va & Hga & Hor).
  rewrite Hga in Hget. simpl in Hget. simplify_eq.
  destruct Hor as [Heq | Ht]; [done |].
  destruct (stable_plain P _ _ _ _ Hend Hla) as (pse & Hle & Hee).
  pose proof (eq_trans (eq_sym Hle) Hkept) as Ho. simplify_eq.
  destruct (evolves_get_prop P _ _ _ _ Hee Hga) as (w & Hw & Hor).
  rewrite Hk in Hw. simplify_eq.
  destruct Hor as [Heq | Hor]; [done |].
  apply typed_of_typed in Ht. congruence.
Qed.

(** Normalizing a finite document: the result is a new object, and each of
    its fields holds the conversion of the value the field had when the call
    started. *)
Lemma convertTypes_finite_document P fuel n h l ps r h' :
  depth_within h n (VRef l) = true ->
  h !! l = Some (OPlain ps) ->
  convertTypes P fuel (VRef l) h = Val r h' ->
  exists fuel' l' ps',
    fuel = S fuel' /\ r = VRef l' /\ h !! l' = None /\
    h' !! l' = Some (OPlain ps') /\ stable P h h' /\
    forall key v0, key <> "__proto__" -> get_prop key ps = Some v0 ->
      exists ha v' hb,
        stable P h ha /\
        convert_field P (convertTypes P fuel') key v0 ha = Val v' hb /\
        stable P hb h' /\ get_prop key ps' = Some v'.
Proof.
  intros Hd Hl Hrun.
  pose proof (convertTypes_root_kept P fuel n l h Hd) as Hkept.
  rewrite Hrun in Hkept.
  destruct (convertTypes_document P _ _ _ _ _ _ Hl Hrun)
    as (fuel' & h1 & ps' & -> & Hs & -> & -> & Hkeys).
  exists fuel', (length h1), ps'. split_and!; try done.
  - apply lookup_ge_None. by eapply stable_length.
  - by rewrite lookup_app_r, Nat.sub_diag.
  - eapply stable_trans; [done | apply stable_alloc].
  - intros key v0 Hproto Hk.
    destruct (Hkeys key Hproto) as [_ Hin].
    destruct (Hin (get_prop_keys _ _ _ Hk))
      as (ha & v & v' & hb & Hsa & Hget & Hconv & Hsb & Hres).
    assert (stable P hb (h1 ++ [OPlain ps'])) as Hsb'
      by (eapply stable_trans; [done | apply stable_alloc]).
    assert (v = v0) as ->.
    { eapply (read_while_kept P h ha (h1 ++ [OPlain ps'])); try done.
      - pose proof (frames_convert_field P (convertTypes P fuel') key v
                      (frames_convertTypes P fuel') ha) as Hf.
        rewrite Hconv in Hf. by eapply stable_trans.
      - by rewrite Hkept. }
    by exists ha, v', hb.
Qed.

Lemma mapM_elementwise {A B} P (f : A -> M B) xs h ys h' :
  (forall x, frames P (f x)) ->
  mapM f xs h = Val ys h' ->
  length ys = length xs /\
  forall i x, xs !! i = Some x ->
    exists y ha hb,
      ys !! i = Some y /\ stable P h ha /\ f x ha = Val y hb /\ stable P hb h'.
Proof.
  intros Hf. revert h ys.
  induction xs as [| x0 xs IH]; intros h ys Hrun; simpl in Hrun.
  - unfold ret in Hrun. simplify_eq. split; [done |]. intros i x Hi.
    by rewrite lookup_nil in Hi.
  - apply bind_inv_val in Hrun as (y0 & h1 & Hy & Hrun).
    apply bind_inv_val in Hrun as (ys' & h2 & Hys & Hrun).
    unfold ret in Hrun. simplify_eq.
    pose proof (Hf x0 h) as Hf0. rewrite Hy in Hf0.
    pose proof (frames_mapM P f xs Hf h1) as Hfs. rewrite Hys in Hfs.
    destruct (IH _ _ Hys) as [Hlen Hall]. split; [simpl; by rewrite Hlen |].
    intros [| i] x Hi; simpl in Hi.
    + simplify_eq. exists y0, h, h1. split_and!; try done. apply stable_refl.
    + destruct (Hall i x Hi) as (y & ha & hb & Hyi & Hsa & Hrun & Hsb).
      exists y, ha, hb. split_and!; try done. by eapply stable_trans.
Qed.

(** * The properties of the specification *)

(** C1, as stated, fails: the whole loop sits in one [try] block.  When the
    insert into [orders] is refused, the run reports the error and closes
    the connection; [archive] and [users] are never looked at. *)
Lemma failure_ends_the_run :
  restoreBackup Reference.platform (Example.env "orders") 3
    "backup.json" "mongodb://localhost:27017" "shop"
  = Some (Resolved
            [Info_connecting "mongodb://localhost:27017";
             Call_connect "mongodb://localhost:27017";
             Info_connected;
             Info_reading "backup.json";
             Info_restoring "orders" (VNum 1);
             Call_insertMany "orders" (VRef 7);
             Error_restoration (DriverError "write refused");
             Call_close;
             Info_closed]).
Proof. reflexivity. Qed.

(** C1, amended: when the collections before [name] are restored and the
    restore of [name] fails (a conversion error while normalizing its
    documents, or an error from the driver), the run records that failure
    and ends there: its events are those up to the failure, the error report
    and the closing of the connection, whatever collections [rest] come
    after [name]; none of them is normalized or submitted. *)
Theorem failure_aborts_remaining P E fuel backupFilePath dbUri dbName
    d j backupData h before name rest s1 e s2 :
  client_new E dbUri = None ->
  connect E dbUri = None ->
  open_db E dbUri dbName = inr d ->
  require E backupFilePath = inr j ->
  (run backupData := load j in
   run keys := own_keys backupData in ret (backupData, keys)) []
  = Val (backupData, before ++ name :: rest) h ->
  restore_loop P E fuel backupData before
    {| store := h; database := d;
       trace := [Info_connecting dbUri; Call_connect dbUri; Info_connected;
                 Info_reading backupFilePath] |} = Done s1 ->
  restore_collection P E fuel backupData name s1 = Thrown e s2 ->
  restoreBackup P E fuel backupFilePath dbUri dbName
  = Some match close E dbUri with
         | Some e' =>
             Rejected e' (trace E s2 ++ [Error_restoration e; Call_close])
         | None =>
             Resolved (trace E s2 ++ [Error_restoration e; Call_close; Info_closed])
         end.
Proof.
  intros Hnew Hconn Hdb Hreq Hload Hbefore Hfail.
  unfold restoreBackup. rewrite Hnew, Hconn, Hdb, Hreq, Hload. simpl.
  rewrite restore_loop_app, Hbefore. simpl. rewrite Hfail.
  unfold finish. destruct (close E dbUri); [done |].
  by rewrite <- !app_assoc.
Qed.

Lemma failure_aborts_remaining_witness :
  restoreBackup Reference.platform (Example.env "none") 3
    "broken.json" "mongodb://localhost:27017" "shop"
  = Some (Resolved
            ([Info_connecting "mongodb://localhost:27017";
              Call_connect "mongodb://localhost:27017";
              Info_connected;
              Info_reading "broken.json";
              Info_restoring "orders" (VNum 1)]
             ++ [Error_restoration BSONError; Call_close; Info_closed])).
Proof.
  eapply (failure_aborts_remaining Reference.platform (Example.env "none") 3
            "broken.json" "mongodb://localhost:27017" "shop"
            tt Example.broken (VRef 4) _ [] "orders" ["users"] _
            BSONError
            {| store := _; database := tt : db (Example.env "none");
               trace := _ |});
    reflexivity.
Defined.

(** C2, as stated, fails: the date rule is tried before the [_id] rule, so a
    string [_id] that parses as a date becomes a timestamp. *)
Lemma id_rule_after_date_rule :
  let h := [OPlain [("_id", VStr "2023-01-01T00:00:00Z")]] in
  convertTypes Reference.platform 1 (VRef 0) h
  = Val (VRef 1) (h ++ [OPlain [("_id", VDate (Some 1672531200000))]]).
Proof. reflexivity. Qed.

(** The fate of a string [_id] in a document that the call leaves as it
    was. *)
Lemma id_field_converted_if_kept P fuel h l ps s r h' :
  h !! l = Some (OPlain ps) ->
  get_prop "_id" ps = Some (VStr s) ->
  convertTypes P fuel (VRef l) h = Val r h' ->
  h' !! l = Some (OPlain ps) ->
  exists l' ps',
    r = VRef l' /\ h !! l' = None /\ h' !! l' = Some (OPlain ps') /\
    match Date_parse P s with
    | Some t => get_prop "_id" ps' = Some (VDate (Some t))
    | None => exists id, ObjectId_new P s = Some id /\
                         get_prop "_id" ps' = Some (VOid id)
    end.
Proof.
  intros Hl Hid Hrun Hsame.
  destruct (convertTypes_document P _ _ _ _ _ _ Hl Hrun)
    as (fuel' & h1 & ps' & -> & Hs & -> & -> & Hkeys).
  destruct (Hkeys "_id" ltac:(done)) as [_ Hin].
  destruct (Hin (get_prop_keys _ _ _ Hid))
    as (ha & v & v' & hb & Hsa & Hget & Hconv & Hsb & Hres).
  exists (length h1), ps'. split_and!; try done.
  - apply lookup_ge_None. by eapply stable_length.
  - by rewrite lookup_app_r, Nat.sub_diag.
  - assert (v = VStr s) as ->.
    { destruct (stable_get P _ _ _ _ _ _ _ Hsa Hl Hid Hget) as [-> | Ht]; [done |].
      (* the value read later cannot be a converted one: the document still
         holds the string when the call is over *)
      pose proof (frames_convert_field P (convertTypes P fuel') "_id" v
                    (frames_convertTypes P fuel') ha) as Hf.
      rewrite Hconv in Hf.
      assert (stable P ha (h1 ++ [OPlain ps'])) as Hend.
      { eapply stable_trans; [done |]. eapply stable_trans; [done |].
        apply stable_alloc. }
      destruct (stable_plain P _ _ _ _ Hsa Hl) as (psa & Hla & Hea).
      rewrite (get_plain _ _ _ _ Hla) in Hget.
      destruct (evolves_get_prop P _ _ _ _ Hea Hid) as (va & Hga & _).
      rewrite Hga in Hget. simpl in Hget. simplify_eq.
      destruct (stable_plain P _ _ _ _ Hend Hla) as (pse & Hle & Hee).
      pose proof (eq_trans (eq_sym Hle) Hsame) as Ho. simplify_eq.
      destruct (evolves_get_prop P _ _ _ _ Hee Hga) as (w & Hw & Hor).
      rewrite Hid in Hw. simplify_eq.
      destruct Hor as [<- | Hor]; [done |].
      apply typed_of_typed in Ht. congruence. }
    rewrite convert_field_id in Hconv.
    destruct (Date_parse P s) as [t |]; [by simplify_eq |].
    unfold new_ObjectId in Hconv. destruct (ObjectId_new P s) as [id |]; [| done].
    unfold ret in Hconv. simplify_eq. eauto.
Qed.

(** C2, amended: in the result of normalizing a (finite) document, a string
    [_id] that does not parse as a date has become the identifier built from
    it; one that parses as a date has become a timestamp, because the date
    rule is tried before the [_id] rule. *)
Theorem id_field_converted P fuel n h l ps s r h' :
  depth_within h n (VRef l) = true ->
  h !! l = Some (OPlain ps) ->
  get_prop "_id" ps = Some (VStr s) ->
  convertTypes P fuel (VRef l) h = Val r h' ->
  exists l' ps',
    r = VRef l' /\ h !! l' = None /\ h' !! l' = Some (OPlain ps') /\
    match Date_parse P s with
    | Some t => get_prop "_id" ps' = Some (VDate (Some t))
    | None => exists id, ObjectId_new P s = Some id /\
                         get_prop "_id" ps' = Some (VOid id)
    end.
Proof.
  intros Hd Hl Hid Hrun.
  pose proof (convertTypes_root_kept P fuel n l h Hd) as Hkept.
  rewrite Hrun in Hkept.
  eapply id_field_converted_if_kept; try done. by rewrite Hkept.
Qed.

Lemma id_field_converted_witness :
  exists l' ps',
    VRef 1 = VRef l' /\
    [OPlain [("_id", VStr "507F1f77bcf86cd799439011")]] !! l' = None /\
    [OPlain [("_id", VStr "507F1f77bcf86cd799439011")];
     OPlain [("_id", VOid "507f1f77bcf86cd799439011")]] !! l' = Some (OPlain ps') /\
    exists id, Reference.oid_new "507F1f77bcf86cd799439011" = Some id /\
               get_prop "_id" ps' = Some (VOid id).
Proof.
  apply (id_field_converted Reference.platform 1 1
           [OPlain [("_id", VStr "507F1f77bcf86cd799439011")]] 0
           [("_id", VStr "507F1f77bcf86cd799439011")]
           "507F1f77bcf86cd799439011" (VRef 1)
           [OPlain [("_id", VStr "507F1f77bcf86cd799439011")];
            OPlain [("_id", VOid "507f1f77bcf86cd799439011")]]); reflexivity.
Defined.

(** C3, as stated, fails: the elements of a [payments] array are updated in
    place.  After the call the stored input element holds an identifier where
    it held a string, and the result shares that element with the input. *)
Lemma payment_updated_in_place :
  let h := [OPlain [("_id", VStr "507f1f77bcf86cd799439011")];
            OArr [VRef 0];
            OPlain [("payments", VRef 1)]] in
  convertTypes Reference.platform 1 (VRef 2) h
  = Val (VRef 4)
      [OPlain [("_id", VOid "507f1f77bcf86cd799439011")];
       OArr [VRef 0];
       OPlain [("payments", VRef 1)];
       OArr [VRef 0];
       OPlain [("payments", VRef 3)]].
Proof. reflexivity. Qed.

(** C3, amended: a call of [convertTypes], whether it returns or throws,
    leaves every stored array as it was and every stored object with the
    same keys in the same order; the only values it overwrites are non-empty
    strings under [_id], [productId] and [date], replaced in place by the
    identifier or timestamp built from them (this is what happens to the
    elements of [payments] and [purchasedProducts] arrays).  The (finite)
    object or array the call is applied to is itself left as it was.  The
    result of normalizing an object or an array is a newly allocated one;
    any other value is returned as it is. *)
Theorem convertTypes_frame P fuel data h :
  match convertTypes P fuel data h with
  | Val r h' =>
      stable P h h' /\
      (forall n l, data = VRef l -> depth_within h n data = true ->
                   h' !! l = h !! l) /\
      match data with
      | VRef _ | VDate _ | VOid _ =>
          exists l', r = VRef l' /\ h !! l' = None /\ is_Some (h' !! l')
      | _ => r = data /\ h' = h
      end
  | Exn _ h' =>
      stable P h h' /\
      (forall n l, data = VRef l -> depth_within h n data = true ->
                   h' !! l = h !! l)
  | Abort => True
  end.
Proof.
  pose proof (frames_convertTypes P fuel data h) as Hf.
  assert (forall n l, data = VRef l -> depth_within h n data = true ->
            match convertTypes P fuel data h with
            | Val _ h' | Exn _ h' => h' !! l = h !! l
            | Abort => True
            end) as Hroot.
  { intros n l -> Hd. by apply (convertTypes_root_kept P fuel n). }
  destruct (convertTypes P fuel data h) as [r h' | e h' |] eqn:Hrun; try done.
  split; [done |]. split; [done |].
  destruct fuel as [| fuel]; [done |]. simpl in Hrun.
  assert (forall h1 ps, stable P h h1 -> h' = h1 ++ [ps] -> r = VRef (length h1) ->
            exists l', r = VRef l' /\ h !! l' = None /\ is_Some (h' !! l')) as Hnew.
  { intros h1 o Hs -> ->. eexists; split_and!; [done | |].
    - apply lookup_ge_None. by eapply stable_length.
    - rewrite lookup_app_r, Nat.sub_diag by done. eauto. }
  destruct data; simpl in Hrun;
    try (unfold bind, isArray, ret in Hrun; simpl in Hrun; by simplify_eq).
  - unfold bind, isArray, own_keys, alloc in Hrun. simpl in Hrun. simplify_eq.
    by apply (Hnew h (OPlain [])); [apply stable_refl | |].
  - unfold bind, isArray, own_keys, alloc in Hrun. simpl in Hrun. simplify_eq.
    by apply (Hnew h (OPlain [])); [apply stable_refl | |].
  - apply bind_inv_val in Hrun as (b & h0 & Harr & Hrun).
    pose proof (isArray_store _ _ _ _ Harr) as ->.
    destruct b.
    + unfold array_map in Hrun.
      destruct (h !! l) as [[ps | es] |]; try done.
      apply bind_inv_val in Hrun as (es' & h1 & Hmap & Hrun).
      unfold alloc in Hrun. simplify_eq.
      pose proof (frames_mapM P (convertTypes P fuel) es
                    (frames_convertTypes P fuel) h) as Hm.
      rewrite Hmap in Hm. by apply (Hnew h1 (OArr es')).
    + simpl in Hrun.
      apply bind_inv_val in Hrun as (ks & h0 & Hkeys & Hrun).
      pose proof (own_keys_store _ _ _ _ Hkeys) as ->.
      apply bind_inv_val in Hrun as (ps' & h1 & Hloop & Hrun).
      unfold alloc in Hrun. simplify_eq.
      pose proof (frames_for_in P (convert_key P (convertTypes P fuel) (VRef l))
                    ks [] (fun k a => frames_convert_key P _ _ k a
                                        (frames_convertTypes P fuel)) h) as Hs.
      rewrite Hloop in Hs. by apply (Hnew h1 (OPlain ps')).
Qed.

Lemma convertTypes_frame_witness :
  let h := [OPlain [("_id", VStr "507f1f77bcf86cd799439011")];
            OArr [VRef 0];
            OPlain [("payments", VRef 1)]] in
  let h' := [OPlain [("_id", VOid "507f1f77bcf86cd799439011")];
             OArr [VRef 0];
             OPlain [("payments", VRef 1)];
             OArr [VRef 0];
             OPlain [("payments", VRef 3)]] in
  stable Reference.platform h h' /\
  (forall n l, VRef 2 = VRef l -> depth_within h n (VRef 2) = true ->
               h' !! l = h !! l) /\
  exists l', VRef 4 = VRef l' /\ h !! l' = None /\ is_Some (h' !! l').
Proof.
  exact (convertTypes_frame Reference.platform 1 (VRef 2)
           [OPlain [("_id", VStr "507f1f77bcf86cd799439011")];
            OArr [VRef 0];
            OPlain [("payments", VRef 1)]]).
Defined.

(** C4: a field whose key is exactly [name] keeps its value when the
    document is normalized: the result is a new object whose [name] field
    holds the very value the input held, whatever that value is (a string
    that parses as a date or has the shape of an identifier included). *)
Theorem name_field_kept P fuel h l ps x r h' :
  h !! l = Some (OPlain ps) ->
  get_prop "name" ps = Some x ->
  convertTypes P fuel (VRef l) h = Val r h' ->
  exists l' ps',
    r = VRef l' /\ h !! l' = None /\ h' !! l' = Some (OPlain ps') /\
    get_prop "name" ps' = Some x.
Proof.
  intros Hl Hname Hrun.
  destruct (convertTypes_document P _ _ _ _ _ _ Hl Hrun)
    as (fuel' & h1 & ps' & -> & Hs & -> & -> & Hkeys).
  destruct (Hkeys "name" ltac:(done)) as [_ Hin].
  destruct (Hin (get_prop_keys _ _ _ Hname))
    as (ha & v & v' & hb & Hsa & Hget & Hconv & Hsb & Hres).
  exists (length h1), ps'. split_and!; try done.
  - apply lookup_ge_None. by eapply stable_length.
  - by rewrite lookup_app_r, Nat.sub_diag.
  - destruct (stable_get P _ _ _ _ _ _ _ Hsa Hl Hname Hget) as [-> | Ht].
    + unfold convert_field in Hconv. simpl in Hconv. unfold ret in Hconv.
      by simplify_eq.
    + by rewrite typed_of_name in Ht.
Qed.

Lemma name_field_kept_witness :
  exists l' ps',
    VRef 1 = VRef l' /\
    [OPlain [("name", VStr "2023-01-01")]] !! l' = None /\
    [OPlain [("name", VStr "2023-01-01")]; OPlain [("name", VStr "2023-01-01")]] !! l'
      = Some (OPlain ps') /\
    get_prop "name" ps' = Some (VStr "2023-01-01").
Proof.
  apply (name_field_kept Reference.platform 1
           [OPlain [("name", VStr "2023-01-01")]] 0
           [("name", VStr "2023-01-01")] (VStr "2023-01-01") (VRef 1)
           [OPlain [("name", VStr "2023-01-01")];
            OPlain [("name", VStr "2023-01-01")]]); reflexivity.
Defined.

(** C5, as stated, fails: a second application turns the timestamp that the
    first one produced into an empty object. *)
Lemma second_pass_loses_timestamp :
  let h := [OPlain [("createdAt", VStr "2023-01-01T00:00:00Z")]] in
  (run once := convertTypes Reference.platform 2 (VRef 0) in
   convertTypes Reference.platform 2 once) h
  = Val (VRef 3)
      [OPlain [("createdAt", VStr "2023-01-01T00:00:00Z")];
       OPlain [("createdAt", VDate (Some 1672531200000))];
       OPlain [];
       OPlain [("createdAt", VRef 2)]].
Proof. reflexivity. Qed.

Lemma convert_field_typed P rec key v h :
  plain_key key -> is_typed v = true ->
  convert_field P rec key v h = rec v h.
Proof.
  intros (Hn & Hp & Hpp & _) Ht. unfold convert_field.
  apply String.eqb_neq in Hn, Hp, Hpp. rewrite Hn, Hp, Hpp.
  destruct v; try done; simpl; by rewrite andb_false_r.
Qed.

Lemma convertTypes_typed P fuel v h r h' :
  is_typed v = true -> convertTypes P fuel v h = Val r h' ->
  r = VRef (length h) /\ h' = h ++ [OPlain []].
Proof.
  intros Ht Hrun. destruct fuel as [| fuel]; [done |].
  destruct v; try done; simpl in Hrun;
    unfold bind, isArray, own_keys, alloc in Hrun; simpl in Hrun; by simplify_eq.
Qed.

(** C5, amended: normalization is not idempotent.  Take a finite document
    none of whose objects has a field called [__proto__], normalize it, and
    normalize the result again.  Whenever both applications return, every
    identifier- or timestamp-typed value stored in an object after the first
    application is still stored there after the second, so the values
    written in place into the elements of [payments] and [purchasedProducts]
    arrays are unchanged; but a string of the document itself that parses as
    a date, under a key other than [name], [payments] and
    [purchasedProducts], is a timestamp in the first result and a newly
    built empty document in the second. *)
Theorem typed_fields_second_pass P fuel fuel2 n h l ps r1 h1 r2 h2 :
  depth_within h n (VRef l) = true ->
  h !! l = Some (OPlain ps) ->
  (forall p qs, h !! p = Some (OPlain qs) -> "__proto__" ∉ qs.*1) ->
  convertTypes P fuel (VRef l) h = Val r1 h1 ->
  convertTypes P fuel2 r1 h1 = Val r2 h2 ->
  (forall p qs k v,
      h1 !! p = Some (OPlain qs) -> get_prop k qs = Some v -> is_typed v = true ->
      exists qs', h2 !! p = Some (OPlain qs') /\ get_prop k qs' = Some v) /\
  exists l1 ps1 l2 ps2,
    r1 = VRef l1 /\ h1 !! l1 = Some (OPlain ps1) /\
    r2 = VRef l2 /\ h2 !! l2 = Some (OPlain ps2) /\
    forall key s t,
      key <> "name" -> key <> "payments" -> key <> "purchasedProducts" ->
      get_prop key ps = Some (VStr s) -> Date_parse P s = Some t ->
      get_prop key ps1 = Some (VDate (Some t)) /\
      exists e, get_prop key ps2 = Some (VRef e) /\ h1 !! e = None /\
                h2 !! e = Some (OPlain []).
Proof.
  intros Hd Hl Hproto Hrun1 Hrun2. split.
  - intros p qs k v Hp Hk Ht.
    pose proof (frames_convertTypes P fuel2 r1 h1) as Hf. rewrite Hrun2 in Hf.
    destruct (stable_plain P _ _ _ _ Hf Hp) as (qs' & Hp' & He).
    destruct (evolves_get_prop P _ _ _ _ He Hk) as (v' & Hk' & [-> | Hty]); [eauto |].
    apply typed_of_string in Hty as [s ->]. done.
  - destruct (convertTypes_finite_document P _ _ _ _ _ _ _ Hd Hl Hrun1)
      as (fuel' & l1 & ps1 & -> & -> & Hfresh & Hl1 & Hs1 & Hfields).
    destruct (convertTypes_document P _ _ _ _ _ _ Hl1 Hrun2)
      as (fuel2' & hm & ps2 & -> & Hs2 & -> & -> & Hkeys).
    exists l1, ps1, (length hm), ps2. split_and!; [done | done | done | |].
    { by rewrite lookup_app_r, Nat.sub_diag. }
    intros key s t Hname Hpay Hprod Hk Ht.
    assert (key <> "__proto__") as Hkey.
    { intros ->. by apply (Hproto _ _ Hl), (get_prop_keys _ _ _ Hk). }
    destruct (Hfields key (VStr s) Hkey Hk) as (ha & v' & hb & Hsa & Hconv & Hsb & Hk1).
    assert (v' = VDate (Some t)) as ->.
    { revert Hconv. unfold convert_field.
      pose proof Hname as Hname'. apply String.eqb_neq in Hname'. rewrite Hname'.
      unfold parses_as_date.
      rewrite bool_decide_eq_true_2 by (rewrite Ht; eauto).
      unfold new_Date, ret. rewrite Ht. by intros [= <- _]. }
    split; [done |].
    destruct (Hkeys key Hkey) as [_ Hin].
    destruct (Hin (get_prop_keys _ _ _ Hk1))
      as (hc & w & w' & hd & Hsc & Hget & Hconv2 & Hsd & Hres).
    destruct (stable_get P _ _ _ _ _ _ _ Hsc Hl1 Hk1 Hget) as [-> | Hty];
      [| apply typed_of_string in Hty as [s' ?]; done].
    rewrite convert_field_typed in Hconv2 by done.
    apply convertTypes_typed in Hconv2 as [-> ->]; [| done].
    exists (length hc). split_and!; [done | |].
    + apply lookup_ge_None. by eapply stable_length.
    + apply lookup_app_l_Some.
      destruct (stable_plain P (hc ++ [OPlain []]) hm (length hc) [] Hsd)
        as (qs & Hq & He).
      { by rewrite lookup_app_r, Nat.sub_diag. }
      by inversion He; subst.
Qed.

Lemma typed_fields_second_pass_witness :
  let h1 := [OPlain [("createdAt", VStr "2023-01-01T00:00:00Z")];
             OPlain [("createdAt", VDate (Some 1672531200000))]] in
  let h2 := h1 ++ [OPlain []; OPlain [("createdAt", VRef 2)]] in
  (forall p qs k v,
      h1 !! p = Some (OPlain qs) -> get_prop k qs = Some v -> is_typed v = true ->
      exists qs', h2 !! p = Some (OPlain qs') /\ get_prop k qs' = Some v) /\
  exists l1 ps1 l2 ps2,
    VRef 1 = VRef l1 /\ h1 !! l1 = Some (OPlain ps1) /\
    VRef 3 = VRef l2 /\ h2 !! l2 = Some (OPlain ps2) /\
    forall key s t,
      key <> "name" -> key <> "payments" -> key <> "purchasedProducts" ->
      get_prop key [("createdAt", VStr "2023-01-01T00:00:00Z")] = Some (VStr s) ->
      Date_parse Reference.platform s = Some t ->
      get_prop key ps1 = Some (VDate (Some t)) /\
      exists e, get_prop key ps2 = Some (VRef e) /\ h1 !! e = None /\
                h2 !! e = Some (OPlain []).
Proof.
  apply (typed_fields_second_pass Reference.platform 2 2 1
           [OPlain [("createdAt", VStr "2023-01-01T00:00:00Z")]] 0
           [("createdAt", VStr "2023-01-01T00:00:00Z")]); try reflexivity.
  intros p qs Hp. destruct p as [| p]; simpl in Hp; [| by destruct p].
  injection Hp as <-. simpl.
  intros [Heq | Hin%elem_of_nil]%elem_of_cons; [discriminate Heq | exact Hin].
Defined.

(** C6, as stated, fails: an [_id] that is present and string-typed but
    empty is not converted (the test [payment._id && ...] skips it). *)
Lemma empty_payment_id_not_converted :
  let h := [OPlain [("_id", VStr ""); ("amount", VNum 5)];
            OArr [VRef 0];
            OPlain [("payments", VRef 1)]] in
  convertTypes Reference.platform 1 (VRef 2) h
  = Val (VRef 4) (h ++ [OArr [VRef 0]; OPlain [("payments", VRef 3)]]).
Proof. reflexivity. Qed.

(** The rule for the key [payments], applied to an array, returns a new
    array holding the very elements of the input, in order.  Each element
    that is a stored document has been updated in place; everything else in
    the store is unchanged. *)
Lemma convert_field_payments P rec h la es r h' :
  h !! la = Some (OArr es) ->
  convert_field P rec "payments" (VRef la) h = Val r h' ->
  exists h1,
    r = VRef (length h) /\ h' = h1 ++ [OArr es] /\ length h1 = length h /\
    forall p,
      (VRef p ∈ es -> forall ps, h !! p = Some (OPlain ps) ->
         exists ps', h1 !! p = Some (OPlain ps') /\ payment_converted P ps ps') /\
      (VRef p ∉ es -> h1 !! p = h !! p) /\
      ((forall ps, h !! p <> Some (OPlain ps)) -> h1 !! p = h !! p).
Proof.
  intros Hla Hrun. unfold convert_field in Hrun. simpl in Hrun.
  unfold array_map in Hrun. rewrite Hla in Hrun.
  apply bind_inv_val in Hrun as (es' & h1 & Hmap & Hrun).
  unfold alloc in Hrun. simplify_eq.
  apply (mapM_in_place (convert_payment P) (payment_props P)) in Hmap
    as (-> & Hlen & Hall).
  - exists h1. rewrite Hlen. split_and!; try done.
    intros p. destruct (Hall p) as (Hin & Hout & Hnon). split_and!; try done.
    intros Hp ps Hps. destruct (Hin Hp ps Hps) as (ps' & HF & Hp').
    eauto using payment_props_converted.
  - intros q ps h0 y h0' Hq Hy. rewrite (convert_payment_plain _ _ _ _ Hq) in Hy.
    destruct (payment_props P ps) as [ps' |]; [| done]. simplify_eq. eauto.
  - apply convert_payment_other.
  - apply payment_props_idem.
Qed.

Lemma get_prop_In k ps v : get_prop k ps = Some v -> In (k, v) ps.
Proof.
  induction ps as [| [k0 v0] ps IH]; simpl; [done |].
  destruct (String.eqb_spec k k0) as [-> | Hne]; intros Hg.
  - left. by simplify_eq.
  - right. auto.
Qed.

(** Under [unshared], no field other than [key] reaches an element of the
    array. *)
Lemma unshared_not_below h n l ps key es p :
  depth_within h (S n) (VRef l) = true -> h !! l = Some (OPlain ps) ->
  unshared h n key ps es = true -> VRef p ∈ es ->
  ~ exists k, k ∈ ps.*1 /\ k <> key /\
              exists v, get_prop k ps = Some v /\ sbelow h v p.
Proof.
  intros Hd Hl Hun Hp (k & _ & Hne & v & Hv & Hb).
  apply depth_within_ref in Hd as (n' & o & Hn & Hl' & Hall).
  pose proof (eq_trans (eq_sym Hl') Hl) as Ho. simplify_eq. simpl in Hall.
  unfold unshared in Hun. rewrite forallb_forall in Hun.
  pose proof (Hun (k, v) (get_prop_In _ _ _ Hv)) as Hkv. simpl in Hkv.
  apply String.eqb_neq in Hne. rewrite Hne in Hkv. simpl in Hkv.
  rewrite forallb_forall in Hkv.
  apply list_elem_of_In in Hp. pose proof (Hkv _ Hp) as Hr. simpl in Hr.
  rewrite (sbelow_reachable h n' v p) in Hr; [done | | done].
  apply get_prop_values in Hv. by eapply Forall_forall in Hall.
Qed.

(** C6, amended: when a finite document with distinct keys is normalized,
    its [payments] field being an array none of whose elements is shared
    with another field, the result holds under [payments] a new array with
    the very elements of the input, in order.  Each element that is a
    stored document has been updated in place: its [_id] and [date] fields
    hold the identifier and the timestamp built from them when they were
    non-empty strings (an empty one is kept as it is), and every other
    field is untouched (no recursion); an element with neither field is
    unchanged. *)
Theorem payments_converted_in_place P fuel n h l ps la es r h' :
  depth_within h (S n) (VRef l) = true ->
  h !! l = Some (OPlain ps) ->
  NoDup ps.*1 ->
  get_prop "payments" ps = Some (VRef la) ->
  h !! la = Some (OArr es) ->
  unshared h n "payments" ps es = true ->
  convertTypes P fuel (VRef l) h = Val r h' ->
  exists l' ps' la',
    r = VRef l' /\ h !! l' = None /\ h' !! l' = Some (OPlain ps') /\
    get_prop "payments" ps' = Some (VRef la') /\
    h !! la' = None /\ h' !! la' = Some (OArr es) /\
    forall p qs, VRef p ∈ es -> h !! p = Some (OPlain qs) ->
      exists qs', h' !! p = Some (OPlain qs') /\ payment_converted P qs qs'.
Proof.
  intros Hd Hl Hnd Hpay Hla Hun Hrun.
  pose proof (get_prop_keys _ _ _ Hpay) as Hkey.
  assert (forall ha v, stable P h ha -> get (VRef l) "payments" ha = Val v ha ->
                       v = VRef la /\ ha !! la = Some (OArr es)) as Hread.
  { intros ha v Hsa Hget. split; [| by eapply stable_array].
    destruct (stable_get P _ _ _ _ _ _ _ Hsa Hl Hpay Hget) as [-> | Hty]; [done |].
    by apply typed_of_string in Hty as [s ?]. }
  assert (forall p qs, VRef p ∈ es -> h !! p = Some (OPlain qs) ->
            exists qs', h' !! p = Some (OPlain qs') /\ payment_converted P qs qs')
    as Helems.
  { intros p qs Hp Hq.
    pose proof (unshared_not_below _ _ _ _ _ _ _ Hd Hl Hun Hp) as Hfresh.
    destruct fuel as [| fuel']; [done |]. simpl in Hrun.
    apply bind_inv_val in Hrun as (b & h0 & Harr & Hrun).
    unfold isArray in Harr. rewrite Hl in Harr. injection Harr as <- <-.
    simpl in Hrun.
    apply bind_inv_val in Hrun as (ks & h2 & Hkeys & Hrun).
    unfold own_keys in Hkeys. rewrite Hl in Hkeys. injection Hkeys as <- <-.
    apply bind_inv_val in Hrun as (ps1 & h1 & Hloop & Hrun).
    unfold alloc in Hrun. injection Hrun as <- <-.
    apply (for_in_visit P
             (fun k q => exists v, get_prop k ps = Some v /\ sbelow h v q))
      with (key := "payments") in Hloop
      as (ha & acc_a & acc_b & hb & Hsa & Hwa & Hbody & Hsb & Hwb);
      [| intros; apply frames_convert_key, frames_convertTypes | | done | done].
    2: { intros k a h2 _ Hs2.
         apply (confined_convert_key P h _ l ps (S n));
           eauto using frames_convertTypes.
         intros. by eapply confined_convertTypes. }
    destruct (Hwa _ _ Hq) as [Hqa | ?]; [| done].
    unfold convert_key in Hbody.
    apply bind_inv_val in Hbody as (own & h3 & Hown & Hbody).
    pose proof (hasOwnProperty_store _ _ _ _ _ Hown) as ->.
    destruct own.
    2: { destruct (stable_plain P _ _ _ _ Hsa Hl) as (psa & Hl_a & Hea).
         unfold hasOwnProperty in Hown. rewrite Hl_a in Hown.
         destruct (get_prop "hasOwnProperty" psa); [done |].
         rewrite has_prop_keys in Hown; [done |].
         by rewrite (evolves_keys P _ _ Hea). }
    apply bind_inv_val in Hbody as (v & h3 & Hget & Hbody).
    pose proof (get_store _ _ _ _ _ Hget) as ->.
    apply bind_inv_val in Hbody as (v' & h3 & Hconv & Hret).
    unfold ret in Hret. simplify_eq.
    destruct (Hread _ _ Hsa Hget) as [-> Hla_a].
    destruct (convert_field_payments P _ _ _ _ _ _ Hla_a Hconv)
      as (hb1 & _ & -> & _ & Hall).
    destruct (Hall p) as (Hin & _).
    destruct (Hin Hp qs Hqa) as (qs' & Hq' & Hconv').
    exists qs'. split; [| done].
    apply lookup_app_l_Some.
    destruct (Hwb p (OPlain qs')) as [? | ?]; [| done | done].
    by apply lookup_app_l_Some. }
  destruct (convertTypes_document P _ _ _ _ _ _ Hl Hrun)
    as (fuel' & h1 & ps' & -> & Hs1 & -> & -> & Hfields).
  destruct (Hfields "payments" ltac:(done)) as [_ Hin].
  destruct (Hin Hkey) as (ha & v & v' & hb & Hsa & Hget & Hconv & Hsb & Hres).
  destruct (Hread _ _ Hsa Hget) as [-> Hla_a].
  destruct (convert_field_payments P _ _ _ _ _ _ Hla_a Hconv)
    as (hb1 & -> & -> & Hlen & _).
  exists (length h1), ps', (length ha). split_and!; try done.
  - apply lookup_ge_None. by apply (stable_length P).
  - by rewrite lookup_app_r, Nat.sub_diag.
  - apply lookup_ge_None. by apply (stable_length P).
  - apply lookup_app_l_Some. apply (stable_array P _ _ _ _ Hsb).
    rewrite <- Hlen. by rewrite lookup_app_r, Nat.sub_diag.
Qed.

Lemma payments_converted_in_place_witness :
  exists l' ps' la',
    VRef 4 = VRef l' /\
    [OPlain [("_id", VStr "507f1f77bcf86cd799439011");
             ("date", VStr "2023-01-01"); ("amount", VNum 5)];
     OArr [VRef 0];
     OPlain [("payments", VRef 1); ("total", VNum 5)]] !! l' = None /\
    [OPlain [("_id", VOid "507f1f77bcf86cd799439011");
             ("date", VDate (Some 1672531200000)); ("amount", VNum 5)];
     OArr [VRef 0];
     OPlain [("payments", VRef 1); ("total", VNum 5)];
     OArr [VRef 0];
     OPlain [("payments", VRef 3); ("total", VNum 5)]] !! l' = Some (OPlain ps') /\
    get_prop "payments" ps' = Some (VRef la') /\
    [OPlain [("_id", VStr "507f1f77bcf86cd799439011");
             ("date", VStr "2023-01-01"); ("amount", VNum 5)];
     OArr [VRef 0];
     OPlain [("payments", VRef 1); ("total", VNum 5)]] !! la' = None /\
    [OPlain [("_id", VOid "507f1f77bcf86cd799439011");
             ("date", VDate (Some 1672531200000)); ("amount", VNum 5)];
     OArr [VRef 0];
     OPlain [("payments", VRef 1); ("total", VNum 5)];
     OArr [VRef 0];
     OPlain [("payments", VRef 3); ("total", VNum 5)]] !! la' = Some (OArr [VRef 0]) /\
    forall p qs, VRef p ∈ [VRef 0] ->
      [OPlain [("_id", VStr "507f1f77bcf86cd799439011");
               ("date", VStr "2023-01-01"); ("amount", VNum 5)];
       OArr [VRef 0];
       OPlain [("payments", VRef 1); ("total", VNum 5)]] !! p = Some (OPlain qs) ->
      exists qs',
        [OPlain [("_id", VOid "507f1f77bcf86cd799439011");
                 ("date", VDate (Some 1672531200000)); ("amount", VNum 5)];
         OArr [VRef 0];
         OPlain [("payments", VRef 1); ("total", VNum 5)];
         OArr [VRef 0];
         OPlain [("payments", VRef 3); ("total", VNum 5)]] !! p = Some (OPlain qs') /\
        payment_converted Reference.platform qs qs'.
Proof.
  apply (payments_converted_in_place Reference.platform 2 2
           [OPlain [("_id", VStr "507f1f77bcf86cd799439011");
                    ("date", VStr "2023-01-01"); ("amount", VNum 5)];
            OArr [VRef 0];
            OPlain [("payments", VRef 1); ("total", VNum 5)]]
           2 [("payments", VRef 1); ("total", VNum 5)] 1 [VRef 0] (VRef 4)
           [OPlain [("_id", VOid "507f1f77bcf86cd799439011");
                    ("date", VDate (Some 1672531200000)); ("amount", VNum 5)];
            OArr [VRef 0];
            OPlain [("payments", VRef 1); ("total", VNum 5)];
            OArr [VRef 0];
            OPlain [("payments", VRef 3); ("total", VNum 5)]]);
    try reflexivity.
  apply (bool_decide_unpack _). vm_compute. reflexivity.
Defined.




(** C8, as stated, fails: the [productId] of an element of
    [purchasedProducts] is not checked against the validator; a string that
    the validator rejects is handed to the constructor, which throws. *)
Lemma productId_not_validated :
  let h := [OPlain [("productId", VStr "widget-7")];
            OArr [VRef 0];
            OPlain [("purchasedProducts", VRef 1)]] in
  ObjectId_isValid Reference.platform "widget-7" = false /\
  convertTypes Reference.platform 1 (VRef 2) h = Exn BSONError h.
Proof. split; reflexivity. Qed.

(** C8, amended: for a string [s] that the identifier constructor and the
    validator reject, conversion is unconditional under [_id], when [s] does
    not parse as a date (a string that does becomes a timestamp first), and,
    when [s] is not empty, under the [productId] of an element of
    [purchasedProducts], whether or not [s] parses as a date: the
    constructor is called and throws, so the document cannot be normalized.
    Only as an element of a generic array is [s] checked first: the
    validator rejects it and it is left unchanged. *)
Theorem identifier_validation P s :
  ObjectId_new P s = None ->
  ObjectId_isValid P s = false ->
  (Date_parse P s = None ->
   (forall rec h, convert_field P rec "_id" (VStr s) h = Exn BSONError h) /\
   (forall fuel h l ps r h',
       h !! l = Some (OPlain ps) -> get_prop "_id" ps = Some (VStr s) ->
       convertTypes P fuel (VRef l) h <> Val r h')) /\
  (forall h, convert_item P (VStr s) h = Val (VStr s) h) /\
  (forall h p qs,
      s <> "" -> h !! p = Some (OPlain qs) ->
      get_prop "productId" qs = Some (VStr s) ->
      exists h', convert_purchasedProduct P (VRef p) h = Exn BSONError h') /\
  (forall fuel h l ps la es p qs r h',
      s <> "" -> h !! l = Some (OPlain ps) ->
      get_prop "purchasedProducts" ps = Some (VRef la) ->
      h !! la = Some (OArr es) -> VRef p ∈ es ->
      h !! p = Some (OPlain qs) -> get_prop "productId" qs = Some (VStr s) ->
      convertTypes P fuel (VRef l) h <> Val r h').
Proof.
  intros Hnew Hvalid.
  assert (forall h p qs,
             s <> "" -> h !! p = Some (OPlain qs) ->
             get_prop "productId" qs = Some (VStr s) ->
             exists h', convert_purchasedProduct P (VRef p) h = Exn BSONError h')
    as Hprod.
  { intros h p qs Hne Hp Hq. rewrite (convert_purchasedProduct_plain _ _ _ _ Hp).
    destruct (id_in_place P "_id" qs) as [qs1 |] eqn:H1; [| eauto].
    assert (id_in_place P "productId" qs1 = None) as ->; [| eauto].
    unfold id_in_place. rewrite (id_in_place_other _ _ _ _ _ H1) by done.
    rewrite Hq. apply String.eqb_neq in Hne. by rewrite Hne, Hnew. }
  split_and!; try done.
  - intros Hdate.
    assert (forall rec h, convert_field P rec "_id" (VStr s) h = Exn BSONError h)
      as Hid.
    { intros rec h. rewrite convert_field_id, Hdate. unfold new_ObjectId.
      by rewrite Hnew. }
    split; [done |].
    intros fuel h l ps r h' Hl Hk.
    apply (convertTypes_field_throws P fuel h l ps "_id" (VStr s) Hl
             ltac:(done) Hk).
    intros rec v ha v' hb _ [-> | Hty]; [by rewrite Hid |].
    simpl in Hty. rewrite Hnew in Hty. by destruct (String.eqb s "").
  - intros h. unfold convert_item. by rewrite Hvalid.
  - intros fuel h l ps la es p qs r h' Hne Hl Hk Hla Hp Hq Hprop.
    apply (convertTypes_field_throws P fuel h l ps "purchasedProducts" (VRef la)
             Hl ltac:(done) Hk).
    intros rec v ha v' hb Hsa [-> | Hty] Hconv; [| done].
    unfold convert_field in Hconv. simpl in Hconv.
    unfold array_map in Hconv. rewrite (stable_array P _ _ _ _ Hsa Hla) in Hconv.
    apply bind_inv_val in Hconv as (es' & h1 & Hmap & _).
    eapply (mapM_not_val P (convert_purchasedProduct P) es (VRef p) ha);
      [apply frames_convert_purchasedProduct | done | | done].
    intros h2 y h3 Hs2 Hy.
    destruct (stable_plain P _ _ _ _ (stable_trans P _ _ _ Hsa Hs2) Hq)
      as (qs2 & Hq2 & He2).
    destruct (evolves_get_prop P _ _ _ _ He2 Hprop) as (w & Hw & Hor).
    assert (w = VStr s) as ->.
    { destruct Hor as [-> | Hty]; [done |]. simpl in Hty. rewrite Hnew in Hty.
      by destruct (String.eqb s ""). }
    destruct (Hprod h2 p qs2 Hne Hq2 Hw) as (h4 & Hex). congruence.
Qed.

Lemma identifier_validation_witness :
  Date_parse Reference.platform "not-an-id" = None /\
  (forall rec h,
      convert_field Reference.platform rec "_id" (VStr "not-an-id") h
      = Exn BSONError h) /\
  (forall fuel h l ps r h',
      h !! l = Some (OPlain ps) -> get_prop "_id" ps = Some (VStr "not-an-id") ->
      convertTypes Reference.platform fuel (VRef l) h <> Val r h') /\
  (forall h, convert_item Reference.platform (VStr "not-an-id") h
             = Val (VStr "not-an-id") h) /\
  (forall h p qs,
      "not-an-id" <> "" -> h !! p = Some (OPlain qs) ->
      get_prop "productId" qs = Some (VStr "not-an-id") ->
      exists h', convert_purchasedProduct Reference.platform (VRef p) h
                 = Exn BSONError h') /\
  (forall fuel h l ps la es p qs r h',
      "not-an-id" <> "" -> h !! l = Some (OPlain ps) ->
      get_prop "purchasedProducts" ps = Some (VRef la) ->
      h !! la = Some (OArr es) -> VRef p ∈ es ->
      h !! p = Some (OPlain qs) ->
      get_prop "productId" qs = Some (VStr "not-an-id") ->
      convertTypes Reference.platform fuel (VRef l) h <> Val r h').
Proof.
  destruct (identifier_validation Reference.platform "not-an-id")
    as (Hid & Hitem & Hprod & Hdoc); [reflexivity | reflexivity |].
  destruct Hid as [Hfield Hroot]; [reflexivity |].
  split; [reflexivity |]. split; [exact Hfield |]. split; [exact Hroot |].
  split; [exact Hitem |]. split; [exact Hprod | exact Hdoc].
Defined.



(** C10: a document in which [payments] or [purchasedProducts] holds
    something that is neither an array nor a string that parses as a date
    cannot be normalized: the call never returns a value, and on a finite
    document it throws. *)
Theorem line_items_must_be_array P n h l ps key v :
  depth_within h n (VRef l) = true ->
  h !! l = Some (OPlain ps) ->
  key = "payments" \/ key = "purchasedProducts" ->
  get_prop key ps = Some v ->
  is_array h v = false ->
  parses_as_date P v = false ->
  (forall fuel r h', convertTypes P fuel (VRef l) h <> Val r h') /\
  exists e h', convertTypes P (S n) (VRef l) h = Exn e h'.
Proof.
  intros Hd Hl Hkey Hk Harr Hdate.
  assert (forall fuel r h', convertTypes P fuel (VRef l) h <> Val r h') as Hnever.
  { intros fuel. eapply convertTypes_field_throws; [done | | done |].
    { by destruct Hkey as [-> | ->]. }
    intros rec w ha w' hb Hsa [-> | Hty] Hconv.
    2: { destruct v; simpl in Hty; try done.
         destruct Hkey as [-> | ->]; simpl in Hty; by destruct (String.eqb s ""). }
    assert (allocated h v) as Ha.
    { apply depth_within_ref in Hd as (n' & o & -> & Hl' & Hall).
      pose proof (eq_trans (eq_sym Hl') Hl) as Ho. simplify_eq. simpl in Hall.
      apply (depth_within_allocated h n').
      eapply Forall_forall in Hall; [done |]. by eapply get_prop_values. }
    assert (forall f, array_map f v ha = Exn TypeError ha) as Hmap.
    { intros f. unfold array_map. destruct v; try done.
      destruct Ha as [o Hv]. simpl in Harr. rewrite Hv in Harr.
      destruct o as [qs | es]; [| done].
      destruct (stable_plain P _ _ _ _ Hsa Hv) as (qs' & -> & _). done. }
    unfold convert_field in Hconv. rewrite Hdate in Hconv.
    destruct Hkey as [-> | ->]; simpl in Hconv; by rewrite Hmap in Hconv. }
  split; [done |].
  apply no_abort_not_val; [by apply convertTypes_no_abort | done].
Qed.

Lemma line_items_must_be_array_witness :
  (forall fuel r h',
      convertTypes Reference.platform fuel (VRef 0)
        [OPlain [("payments", VStr "none")]] <> Val r h') /\
  exists e h',
    convertTypes Reference.platform 2 (VRef 0)
      [OPlain [("payments", VStr "none")]] = Exn e h'.
Proof.
  apply (line_items_must_be_array Reference.platform 1
           [OPlain [("payments", VStr "none")]] 0
           [("payments", VStr "none")] "payments" (VStr "none"));
    first [reflexivity | by left].
Defined.

(** * Further properties of the code *)

(** ** Nested documents *)

Lemma field_at_ref h c path k w :
  field_at h c (path ++ [k]) = Some w ->
  exists lc qs, c = VRef lc /\ h !! lc = Some (OPlain qs).
Proof.
  destruct path as [| k1 path]; simpl; destruct c; try done;
    destruct (h !! l) as [[qs | es] |] eqn:Hl; try done; intros _; by exists l, qs.
Qed.

(** A value that no in-place update applies to is found at the same place
    later in the call. *)
Lemma field_at_stable P h h' v path k w :
  stable P h h' -> typed_of P k w = None ->
  field_at h v (path ++ [k]) = Some w ->
  field_at h' v (path ++ [k]) = Some w.
Proof.
  intros Hs Hw. revert v. induction path as [| k1 path IH]; intros v; simpl.
  - destruct v; try done.
    destruct (h !! l) as [[ps | es] |] eqn:Hl; try done.
    destruct (stable_plain P _ _ _ _ Hs Hl) as (ps' & -> & He).
    destruct (get_prop k ps) as [w0 |] eqn:Hg; [| done]. simpl.
    intros [= ->].
    destruct (evolves_get_prop P _ _ _ _ He Hg) as (w' & -> & Hor).
    destruct Hor as [-> | Ht]; [done | congruence].
  - destruct v; try done.
    destruct (h !! l) as [[ps | es] |] eqn:Hl; try done.
    destruct (stable_plain P _ _ _ _ Hs Hl) as (ps' & -> & He).
    destruct (get_prop k1 ps) as [c |] eqn:Hg; [| done]. simpl.
    intros Hc.
    destruct (evolves_get_prop P _ _ _ _ He Hg) as (c' & -> & Hor). simpl.
    destruct Hor as [-> | Ht]; [auto |].
    apply typed_of_string in Ht as [s ->].
    by apply field_at_ref in Hc as (? & ? & ? & _).
Qed.

(** Under an ordinary key, a nested document goes to the recursive call. *)
Lemma convert_field_nested P rec k lc qs h :
  plain_key k -> h !! lc = Some (OPlain qs) ->
  convert_field P rec k (VRef lc) h = rec (VRef lc) h.
Proof.
  intros (Hname & Hpay & Hpp & _) Hl. unfold convert_field.
  apply String.eqb_neq in Hname, Hpay, Hpp. rewrite Hname, Hpay, Hpp. simpl.
  rewrite andb_false_r. unfold bind, isArray. by rewrite Hl.
Qed.

(** What the call makes of a leaf, at any depth below ordinary keys, when
    the rule for the leaf does not depend on the store. *)
Lemma convertTypes_leaf P k w w' :
  k <> "__proto__" ->
  (forall f ha v' hb,
      convert_field P (convertTypes P f) k w ha = Val v' hb -> v' = w') ->
  forall path,
    Forall plain_key path ->
    path = [] \/ (typed_of P k w = None /\ typed_of P k w' = None) ->
    forall fuel n h l r h',
      depth_within h n (VRef l) = true ->
      field_at h (VRef l) (path ++ [k]) = Some w ->
      convertTypes P fuel (VRef l) h = Val r h' ->
      field_at h' r (path ++ [k]) = Some w'.
Proof.
  intros Hproto Hrule path. induction path as [| k1 path IH];
    intros Hplain Hcase fuel n h l r h' Hd Hat Hrun; simpl in Hat.
  - destruct (h !! l) as [[ps | es] |] eqn:Hl; try done.
    destruct (get_prop k ps) as [w0 |] eqn:Hg; [| done].
    simpl in Hat. simplify_eq.
    destruct (convertTypes_finite_document P _ _ _ _ _ _ _ Hd Hl Hrun)
      as (fuel' & l' & ps' & -> & -> & _ & Hl' & _ & Hfields).
    destruct (Hfields k w Hproto Hg) as (ha & v' & hb & _ & Hconv & _ & Hres).
    apply Hrule in Hconv as ->. simpl. rewrite Hl', Hres. done.
  - destruct Hcase as [? | [Hw Hw']]; [done |].
    apply Forall_cons in Hplain as [Hk1 Hplain].
    destruct (h !! l) as [[ps | es] |] eqn:Hl; try done.
    destruct (get_prop k1 ps) as [c |] eqn:Hg; [| done]. simpl in Hat.
    destruct (field_at_ref _ _ _ _ _ Hat) as (lc & qs & -> & Hlc).
    destruct (convertTypes_finite_document P _ _ _ _ _ _ _ Hd Hl Hrun)
      as (fuel' & l' & ps' & -> & -> & _ & Hl' & _ & Hfields).
    destruct (Hfields k1 (VRef lc)) as (ha & v' & hb & Hsa & Hconv & Hsb & Hres);
      [apply Hk1 | done |].
    destruct (stable_plain P _ _ _ _ Hsa Hlc) as (qsa & Hlca & _).
    rewrite (convert_field_nested P _ _ _ _ _ Hk1 Hlca) in Hconv.
    apply depth_within_ref in Hd as (n' & o & -> & Hlo & Hall).
    pose proof (eq_trans (eq_sym Hlo) Hl) as Ho. simplify_eq. simpl in Hall.
    assert (depth_within ha n' (VRef lc) = true) as Hdc.
    { eapply depth_within_stable; [done |].
      apply get_prop_values in Hg. by eapply Forall_forall in Hall. }
    pose proof (IH Hplain (or_intror (conj Hw Hw')) fuel' n' ha lc v' hb Hdc
                  (field_at_stable P _ _ _ _ _ _ Hsa Hw Hat) Hconv) as Hin.
    apply (field_at_stable P _ _ _ _ _ _ Hsb Hw') in Hin.
    simpl. rewrite Hl', Hres. done.
Qed.

(** X1: in the result of normalizing a finite document, a string that parses
    as a date has become the timestamp of that date, under any key other
    than [name] and [__proto__], in the document itself and in every
    document nested in it below ordinary keys (in a nested document, for a
    key other than [_id], [productId] and [date], which the rules for
    [payments] and [purchasedProducts] update in place). *)
Theorem date_strings_converted P fuel n h l path k s t r h' :
  depth_within h n (VRef l) = true ->
  Forall plain_key path ->
  k <> "name" -> k <> "__proto__" ->
  path = [] \/ (k <> "_id" /\ k <> "productId" /\ k <> "date") ->
  field_at h (VRef l) (path ++ [k]) = Some (VStr s) ->
  Date_parse P s = Some t ->
  convertTypes P fuel (VRef l) h = Val r h' ->
  field_at h' r (path ++ [k]) = Some (VDate (Some t)).
Proof.
  intros Hd Hplain Hname Hproto Hcase Hat Ht Hrun.
  apply (convertTypes_leaf P k (VStr s) (VDate (Some t)) Hproto) with (2 := Hplain)
    (4 := Hd) (5 := Hat) (6 := Hrun).
  - intros f ha v' hb. unfold convert_field.
    apply String.eqb_neq in Hname. rewrite Hname. unfold parses_as_date.
    rewrite bool_decide_eq_true_2 by (rewrite Ht; eauto).
    unfold new_Date, ret. rewrite Ht. by intros [= <- _].
  - destruct Hcase as [-> | (Hid & Hpid & Hdate)]; [by left | right].
    split; [| done]. unfold typed_of.
    apply String.eqb_neq in Hid, Hpid, Hdate. rewrite Hid, Hpid, Hdate.
    by destruct (String.eqb s "").
Qed.

Lemma date_strings_converted_witness :
  field_at
    [OPlain [("createdAt", VStr "2023-01-01")]; OPlain [("meta", VRef 0)];
     OPlain [("createdAt", VDate (Some 1672531200000))];
     OPlain [("meta", VRef 2)]]
    (VRef 3) (["meta"] ++ ["createdAt"])
  = Some (VDate (Some 1672531200000)).
Proof.
  apply (date_strings_converted Reference.platform 2 2
           [OPlain [("createdAt", VStr "2023-01-01")]; OPlain [("meta", VRef 0)]]
           1 ["meta"] "createdAt" "2023-01-01" 1672531200000);
    try reflexivity; try done.
  - repeat constructor; done.
  - right. done.
Defined.

(** X2: numbers, booleans and [null] are kept as they are by normalization,
    and so is a string that does not parse as a date, at any depth below
    ordinary keys; the keys [payments] and [purchasedProducts] apart (they
    need an array), and for a string the keys [_id] (converted to an
    identifier) and, in a nested document, [productId] and [date]. *)
Theorem plain_values_kept P fuel n h l path k w r h' :
  depth_within h n (VRef l) = true ->
  Forall plain_key path ->
  k <> "payments" -> k <> "purchasedProducts" -> k <> "__proto__" ->
  match w with
  | VNull | VBool _ | VNum _ => True
  | VStr s =>
      Date_parse P s = None /\ k <> "_id" /\
      (path = [] \/ (k <> "productId" /\ k <> "date"))
  | _ => False
  end ->
  field_at h (VRef l) (path ++ [k]) = Some w ->
  convertTypes P fuel (VRef l) h = Val r h' ->
  field_at h' r (path ++ [k]) = Some w.
Proof.
  intros Hd Hplain Hpay Hpp Hproto Hw Hat Hrun.
  apply (convertTypes_leaf P k w w Hproto) with (2 := Hplain)
    (4 := Hd) (5 := Hat) (6 := Hrun).
  - intros f ha v' hb. unfold convert_field.
    destruct (String.eqb k "name"); [unfold ret; by intros [= <- _] |].
    apply String.eqb_neq in Hpay, Hpp. rewrite Hpay, Hpp.
    assert (parses_as_date P w = false) as ->.
    { destruct w; try done. destruct Hw as (Hs & _). simpl.
      rewrite Hs. apply bool_decide_eq_false_2. by intros [? ?]. }
    assert (String.eqb k "_id" && bool_decide (typeof w = TyString) = false) as ->.
    { destruct w; try (rewrite andb_false_r; done).
      destruct Hw as (_ & Hid%String.eqb_neq & _). by rewrite Hid. }
    unfold bind. destruct w; try done; simpl;
      (destruct f as [| f]; [done |]); simpl; unfold bind, ret; simpl;
      by intros [= <- _].
  - destruct w; try done; try (right; by split).
    destruct Hw as (_ & Hid & [-> | (Hpid & Hdate)]); [by left | right].
    assert (typed_of P k (VStr s) = None) as Hnone; [| done].
    unfold typed_of. apply String.eqb_neq in Hid, Hpid, Hdate.
    rewrite Hid, Hpid, Hdate. by destruct (String.eqb s "").
Qed.

Lemma plain_values_kept_witness :
  field_at
    [OPlain [("total", VNum 3); ("note", VStr "paid")]; OPlain [("meta", VRef 0)];
     OPlain [("total", VNum 3); ("note", VStr "paid")];
     OPlain [("meta", VRef 2)]]
    (VRef 3) (["meta"] ++ ["note"])
  = Some (VStr "paid").
Proof.
  apply (plain_values_kept Reference.platform 3 2
           [OPlain [("total", VNum 3); ("note", VStr "paid")];
            OPlain [("meta", VRef 0)]]
           1 ["meta"] "note" (VStr "paid"));
    try reflexivity; try done.
  - repeat constructor; done.
  - split_and!; [reflexivity | done | right; done].
Defined.

(** ** The keys of a normalized document *)

Lemma set_prop_keys_fresh k v ps :
  k ∉ ps.*1 -> (set_prop k v ps).*1 = ps.*1 ++ [k].
Proof.
  induction ps as [| [k0 v0] ps IH]; simpl; [done |]. intros Hnot.
  destruct (String.eqb_spec k k0) as [-> | Hne].
  - destruct Hnot. apply list_elem_of_here.
  - simpl. f_equal. apply IH. intros ?. apply Hnot. by apply list_elem_of_further.
Qed.

(** A key of a document is still an own property of it at every turn of
    the loop. *)
Lemma hasOwnProperty_stable P h ha l ps k :
  h !! l = Some (OPlain ps) -> k ∈ ps.*1 -> stable P h ha ->
  hasOwnProperty (VRef l) k ha <> Val false ha.
Proof.
  intros Hl Hk Hs. destruct (stable_plain P _ _ _ _ Hs Hl) as (psa & Hla & Hea).
  unfold hasOwnProperty. rewrite Hla.
  destruct (get_prop "hasOwnProperty" psa); [done |].
  rewrite has_prop_keys; [done |]. by rewrite (evolves_keys P _ _ Hea).
Qed.

Lemma for_in_convert_key_keys P rec l ks acc h acc' h' :
  (forall x, frames P (rec x)) ->
  (forall ha k, stable P h ha -> k ∈ ks ->
                hasOwnProperty (VRef l) k ha <> Val false ha) ->
  NoDup ks -> (forall k, k ∈ ks -> k ∉ acc.*1) ->
  for_in (convert_key P rec (VRef l)) ks acc h = Val acc' h' ->
  acc'.*1 = acc.*1 ++ filter (fun k => k <> "__proto__") ks.
Proof.
  intros Hf. revert acc h.
  induction ks as [| k ks IH]; intros acc h Hown Hnd Hfresh Hrun; simpl in Hrun.
  - unfold ret in Hrun. simplify_eq. by rewrite filter_nil, app_nil_r.
  - apply bind_inv_val in Hrun as (acc1 & h1 & Hk & Hrest).
    apply NoDup_cons in Hnd as [Hk_notin Hnd].
    pose proof (frames_convert_key P rec (VRef l) k acc Hf h) as Hfk.
    rewrite Hk in Hfk. unfold convert_key in Hk.
    apply bind_inv_val in Hk as (own & h0 & Ho & Hk).
    pose proof (hasOwnProperty_store _ _ _ _ _ Ho) as ->.
    destruct own.
    2: { destruct (Hown h k (stable_refl P h) (list_elem_of_here _ _) Ho). }
    apply bind_inv_val in Hk as (v & h0 & Hget & Hk).
    pose proof (get_store _ _ _ _ _ Hget) as ->.
    apply bind_inv_val in Hk as (v' & hb & Hconv & Hk).
    unfold ret in Hk. simplify_eq.
    rewrite (IH _ _ (fun ha k' Hs Hk' =>
                       Hown ha k' (stable_trans P _ _ _ Hfk Hs)
                         (list_elem_of_further _ _ _ Hk')) Hnd) with (2 := Hrest).
    + unfold assign_prop. destruct (String.eqb_spec k "__proto__") as [-> | Hne].
      * by rewrite filter_cons_False by (intros ?; done).
      * rewrite filter_cons_True by done.
        rewrite set_prop_keys_fresh, <- app_assoc; [done |].
        apply Hfresh, list_elem_of_here.
    + intros k' Hk' Hin. unfold assign_prop in Hin.
      destruct (String.eqb k "__proto__").
      * by apply (Hfresh k'); [apply list_elem_of_further |].
      * apply set_prop_key_elem in Hin as [-> | Hin]; [done |].
        by apply (Hfresh k'); [apply list_elem_of_further |].
Qed.

(** X3: the normalized document has the own keys of the document it was
    made from, in the same order, the key [__proto__] apart: the assignment
    [convertedData['__proto__'] = ...] creates no own property, so such a
    field is missing from the result. *)
Theorem normalized_keys P fuel h l ps r h' :
  h !! l = Some (OPlain ps) -> NoDup ps.*1 ->
  convertTypes P fuel (VRef l) h = Val r h' ->
  exists l' ps',
    r = VRef l' /\ h !! l' = None /\ h' !! l' = Some (OPlain ps') /\
    ps'.*1 = filter (fun k => k <> "__proto__") ps.*1.
Proof.
  intros Hl Hnd Hrun. destruct fuel as [| fuel']; [done |]. simpl in Hrun.
  apply bind_inv_val in Hrun as (b & h0 & Harr & Hrun).
  unfold isArray in Harr. rewrite Hl in Harr. injection Harr as <- <-.
  simpl in Hrun.
  apply bind_inv_val in Hrun as (ks & h2 & Hkeys & Hrun).
  unfold own_keys in Hkeys. rewrite Hl in Hkeys. injection Hkeys as <- <-.
  apply bind_inv_val in Hrun as (ps1 & h1 & Hloop & Hrun).
  unfold alloc in Hrun. injection Hrun as <- <-.
  pose proof (frames_for_in P (convert_key P (convertTypes P fuel') (VRef l))
                ps.*1 [] (fun k a => frames_convert_key P _ _ k a
                                       (frames_convertTypes P fuel')) h) as Hs.
  rewrite Hloop in Hs.
  exists (length h1), ps1. split_and!; try done.
  - apply lookup_ge_None. by eapply stable_length.
  - by rewrite lookup_app_r, Nat.sub_diag.
  - apply (for_in_convert_key_keys P _ _ _ _ _ _ _ (frames_convertTypes P fuel'))
      in Hloop; [done | | done |].
    + intros ha k Hsa Hk. by eapply hasOwnProperty_stable.
    + intros k _ ?%elem_of_nil. done.
Qed.

Lemma normalized_keys_witness :
  exists l' ps',
    VRef 1 = VRef l' /\
    [OPlain [("b", VNum 1); ("__proto__", VNull); ("a", VNum 2)]] !! l' = None /\
    [OPlain [("b", VNum 1); ("__proto__", VNull); ("a", VNum 2)];
     OPlain [("b", VNum 1); ("a", VNum 2)]] !! l' = Some (OPlain ps') /\
    ps'.*1 = filter (fun k => k <> "__proto__")
               [("b", VNum 1); ("__proto__", VNull); ("a", VNum 2)].*1.
Proof.
  apply (normalized_keys Reference.platform 2
           [OPlain [("b", VNum 1); ("__proto__", VNull); ("a", VNum 2)]] 0
           [("b", VNum 1); ("__proto__", VNull); ("a", VNum 2)] (VRef 1)
           [OPlain [("b", VNum 1); ("__proto__", VNull); ("a", VNum 2)];
            OPlain [("b", VNum 1); ("a", VNum 2)]]);
    [reflexivity | | reflexivity].
  apply (bool_decide_unpack _). vm_compute. reflexivity.
Defined.

(** X4: a document with an own property named [hasOwnProperty] cannot be
    normalized: the test [data.hasOwnProperty(key)] of the first turn of the
    loop finds that property instead of the method, and the call throws a
    [TypeError] before anything is converted. *)
Theorem hasOwnProperty_key_throws P fuel h l ps v :
  h !! l = Some (OPlain ps) ->
  get_prop "hasOwnProperty" ps = Some v ->
  convertTypes P (S fuel) (VRef l) h = Exn TypeError h.
Proof.
  intros Hl Hg. simpl. unfold bind at 1. unfold isArray. rewrite Hl. simpl.
  unfold bind at 1. unfold own_keys. rewrite Hl.
  destruct ps as [| [k0 v0] ps]; [done |]. simpl.
  unfold bind at 1. unfold bind at 1. unfold convert_key. unfold bind at 1.
  unfold hasOwnProperty. by rewrite Hl, Hg.
Qed.

Lemma hasOwnProperty_key_throws_witness :
  convertTypes Reference.platform 1 (VRef 0)
    [OPlain [("total", VNum 3); ("hasOwnProperty", VBool true)]]
  = Exn TypeError [OPlain [("total", VNum 3); ("hasOwnProperty", VBool true)]].
Proof.
  apply (hasOwnProperty_key_throws Reference.platform 0 _ 0
           [("total", VNum 3); ("hasOwnProperty", VBool true)] (VBool true));
    reflexivity.
Defined.

(** ** Arrays passed to [convertTypes] *)

(** X5: normalizing an array returns a new array of the same length whose
    element at each index is the normalization of the element at that index
    (lines 59-61); the array itself is not updated, and an element that is
    not an object (a string, whatever its shape, a number, a boolean,
    [null]) is kept as it is. *)
Theorem array_normalized P fuel h la es r h' :
  h !! la = Some (OArr es) ->
  convertTypes P fuel (VRef la) h = Val r h' ->
  exists fuel' la' es',
    fuel = S fuel' /\ r = VRef la' /\ h !! la' = None /\
    h' !! la' = Some (OArr es') /\ h' !! la = Some (OArr es) /\
    length es' = length es /\
    forall i x, es !! i = Some x ->
      exists y ha hb,
        es' !! i = Some y /\ stable P h ha /\
        convertTypes P fuel' x ha = Val y hb /\ stable P hb h' /\
        (is_primitive x = true -> y = x).
Proof.
  intros Hl Hrun. destruct fuel as [| fuel']; [done |].
  rewrite (convertTypes_array P _ _ _ _ Hl) in Hrun.
  apply bind_inv_val in Hrun as (es' & h1 & Hmap & Hrun).
  unfold alloc in Hrun. injection Hrun as <- <-.
  pose proof (frames_mapM P _ es (frames_convertTypes P fuel') h) as Hs.
  rewrite Hmap in Hs.
  apply (mapM_elementwise P) in Hmap as [Hlen Hall];
    [| apply frames_convertTypes].
  exists fuel', (length h1), es'. split_and!; try done.
  - apply lookup_ge_None. by eapply stable_length.
  - by rewrite lookup_app_r, Nat.sub_diag.
  - apply lookup_app_l_Some. by eapply stable_array.
  - intros i x Hi. destruct (Hall i x Hi) as (y & ha & hb & Hy & Hsa & Hx & Hsb).
    exists y, ha, hb. split_and!; try done.
    + eapply stable_trans; [done | apply stable_alloc].
    + intros Hprim. destruct fuel' as [| f]; [done |].
      destruct x; try done; simpl in Hx; unfold bind, ret in Hx; simpl in Hx;
        by simplify_eq.
Qed.

Lemma array_normalized_witness :
  exists fuel' la' es',
    2%nat = S fuel' /\ VRef 3 = VRef la' /\
    [OPlain [("createdAt", VStr "2023-01-01")];
     OArr [VStr "507f1f77bcf86cd799439011"; VRef 0]] !! la' = None /\
    [OPlain [("createdAt", VStr "2023-01-01")];
     OArr [VStr "507f1f77bcf86cd799439011"; VRef 0];
     OPlain [("createdAt", VDate (Some 1672531200000))];
     OArr [VStr "507f1f77bcf86cd799439011"; VRef 2]] !! la' = Some (OArr es') /\
    [OPlain [("createdAt", VStr "2023-01-01")];
     OArr [VStr "507f1f77bcf86cd799439011"; VRef 0];
     OPlain [("createdAt", VDate (Some 1672531200000))];
     OArr [VStr "507f1f77bcf86cd799439011"; VRef 2]] !! 1%nat
    = Some (OArr [VStr "507f1f77bcf86cd799439011"; VRef 0]) /\
    length es' = length [VStr "507f1f77bcf86cd799439011"; VRef 0] /\
    forall i x, [VStr "507f1f77bcf86cd799439011"; VRef 0] !! i = Some x ->
      exists y ha hb,
        es' !! i = Some y /\
        stable Reference.platform
          [OPlain [("createdAt", VStr "2023-01-01")];
           OArr [VStr "507f1f77bcf86cd799439011"; VRef 0]] ha /\
        convertTypes Reference.platform fuel' x ha = Val y hb /\
        stable Reference.platform hb
          [OPlain [("createdAt", VStr "2023-01-01")];
           OArr [VStr "507f1f77bcf86cd799439011"; VRef 0];
           OPlain [("createdAt", VDate (Some 1672531200000))];
           OArr [VStr "507f1f77bcf86cd799439011"; VRef 2]] /\
        (is_primitive x = true -> y = x).
Proof.
  apply (array_normalized Reference.platform 2
           [OPlain [("createdAt", VStr "2023-01-01")];
            OArr [VStr "507f1f77bcf86cd799439011"; VRef 0]] 1
           [VStr "507f1f77bcf86cd799439011"; VRef 0] (VRef 3)
           [OPlain [("createdAt", VStr "2023-01-01")];
            OArr [VStr "507f1f77bcf86cd799439011"; VRef 0];
            OPlain [("createdAt", VDate (Some 1672531200000))];
            OArr [VStr "507f1f77bcf86cd799439011"; VRef 2]]); reflexivity.
Defined.

(** ** Arrays whose elements are updated in place *)

(** From the rule for a key whose array is mapped in place to the document
    that holds the array. *)
Lemma field_elements_in_place P (R : props -> props -> Prop) key :
  key <> "__proto__" ->
  (forall rec h la es r h',
      h !! la = Some (OArr es) ->
      convert_field P rec key (VRef la) h = Val r h' ->
      exists h1,
        r = VRef (length h) /\ h' = h1 ++ [OArr es] /\ length h1 = length h /\
        forall p ps, VRef p ∈ es -> h !! p = Some (OPlain ps) ->
          exists ps', h1 !! p = Some (OPlain ps') /\ R ps ps') ->
  forall fuel n h l ps la es r h',
    depth_within h (S n) (VRef l) = true ->
    h !! l = Some (OPlain ps) ->
    NoDup ps.*1 ->
    get_prop key ps = Some (VRef la) ->
    h !! la = Some (OArr es) ->
    unshared h n key ps es = true ->
    convertTypes P fuel (VRef l) h = Val r h' ->
    exists l' ps' la',
      r = VRef l' /\ h !! l' = None /\ h' !! l' = Some (OPlain ps') /\
      get_prop key ps' = Some (VRef la') /\
      h !! la' = None /\ h' !! la' = Some (OArr es) /\
      forall p qs, VRef p ∈ es -> h !! p = Some (OPlain qs) ->
        exists qs', h' !! p = Some (OPlain qs') /\ R qs qs'.
Proof.
  intros Hproto Hrule fuel n h l ps la es r h' Hd Hl Hnd Hpay Hla Hun Hrun.
  pose proof (get_prop_keys _ _ _ Hpay) as Hkey.
  assert (forall ha v, stable P h ha -> get (VRef l) key ha = Val v ha ->
                       v = VRef la /\ ha !! la = Some (OArr es)) as Hread.
  { intros ha v Hsa Hget. split; [| by eapply stable_array].
    destruct (stable_get P _ _ _ _ _ _ _ Hsa Hl Hpay Hget) as [-> | Hty]; [done |].
    by apply typed_of_string in Hty as [s ?]. }
  assert (forall p qs, VRef p ∈ es -> h !! p = Some (OPlain qs) ->
            exists qs', h' !! p = Some (OPlain qs') /\ R qs qs') as Helems.
  { intros p qs Hp Hq.
    pose proof (unshared_not_below _ _ _ _ _ _ _ Hd Hl Hun Hp) as Hfresh.
    destruct fuel as [| fuel']; [done |]. simpl in Hrun.
    apply bind_inv_val in Hrun as (b & h0 & Harr & Hrun).
    unfold isArray in Harr. rewrite Hl in Harr. injection Harr as <- <-.
    simpl in Hrun.
    apply bind_inv_val in Hrun as (ks & h2 & Hkeys & Hrun).
    unfold own_keys in Hkeys. rewrite Hl in Hkeys. injection Hkeys as <- <-.
    apply bind_inv_val in Hrun as (ps1 & h1 & Hloop & Hrun).
    unfold alloc in Hrun. injection Hrun as <- <-.
    apply (for_in_visit P
             (fun k q => exists v, get_prop k ps = Some v /\ sbelow h v q))
      with (key := key) in Hloop
      as (ha & acc_a & acc_b & hb & Hsa & Hwa & Hbody & Hsb & Hwb);
      [| intros; apply frames_convert_key, frames_convertTypes | | done | done].
    2: { intros k a h2 _ Hs2.
         apply (confined_convert_key P h _ l ps (S n));
           eauto using frames_convertTypes.
         intros. by eapply confined_convertTypes. }
    destruct (Hwa _ _ Hq) as [Hqa | ?]; [| done].
    unfold convert_key in Hbody.
    apply bind_inv_val in Hbody as (own & h3 & Hown & Hbody).
    pose proof (hasOwnProperty_store _ _ _ _ _ Hown) as ->.
    destruct own; [| by destruct (hasOwnProperty_stable P h ha l ps key)].
    apply bind_inv_val in Hbody as (v & h3 & Hget & Hbody).
    pose proof (get_store _ _ _ _ _ Hget) as ->.
    apply bind_inv_val in Hbody as (v' & h3 & Hconv & Hret).
    unfold ret in Hret. simplify_eq.
    destruct (Hread _ _ Hsa Hget) as [-> Hla_a].
    destruct (Hrule _ _ _ _ _ _ Hla_a Hconv) as (hb1 & _ & -> & _ & Hall).
    destruct (Hall p qs Hp Hqa) as (qs' & Hq' & Hconv').
    exists qs'. split; [| done].
    apply lookup_app_l_Some.
    destruct (Hwb p (OPlain qs')) as [? | ?]; [| done | done].
    by apply lookup_app_l_Some. }
  destruct (convertTypes_document P _ _ _ _ _ _ Hl Hrun)
    as (fuel' & h1 & ps' & -> & Hs1 & -> & -> & Hfields).
  destruct (Hfields key Hproto) as [_ Hin].
  destruct (Hin Hkey) as (ha & v & v' & hb & Hsa & Hget & Hconv & Hsb & Hres).
  destruct (Hread _ _ Hsa Hget) as [-> Hla_a].
  destruct (Hrule _ _ _ _ _ _ Hla_a Hconv) as (hb1 & -> & -> & Hlen & _).
  exists (length h1), ps', (length ha). split_and!; try done.
  - apply lookup_ge_None. by apply (stable_length P).
  - by rewrite lookup_app_r, Nat.sub_diag.
  - apply lookup_ge_None. by apply (stable_length P).
  - apply lookup_app_l_Some. apply (stable_array P _ _ _ _ Hsb).
    rewrite <- Hlen. by rewrite lookup_app_r, Nat.sub_diag.
Qed.

Lemma purchasedProduct_props_converted P ps ps' :
  purchasedProduct_props P ps = Some ps' -> purchasedProduct_converted P ps ps'.
Proof.
  unfold purchasedProduct_props.
  destruct (id_in_place P "_id" ps) as [ps1 |] eqn:H1; [| done].
  simpl. intros H2. split_and!.
  - rewrite (id_in_place_keys _ _ _ _ H2). by eapply id_in_place_keys.
  - intros k Hid Hpid. rewrite (id_in_place_other _ _ _ _ _ H2) by done.
    by eapply id_in_place_other.
  - intros k v [-> | ->] Hv.
    + pose proof (id_in_place_same _ _ _ _ _ H1 Hv) as Hs.
      by rewrite (id_in_place_other _ _ "_id" _ _ H2).
    + apply (id_in_place_same _ _ _ _ _ H2).
      by rewrite (id_in_place_other _ _ "productId" _ _ H1).
Qed.

Lemma convert_field_purchasedProducts P rec h la es r h' :
  h !! la = Some (OArr es) ->
  convert_field P rec "purchasedProducts" (VRef la) h = Val r h' ->
  exists h1,
    r = VRef (length h) /\ h' = h1 ++ [OArr es] /\ length h1 = length h /\
    forall p ps, VRef p ∈ es -> h !! p = Some (OPlain ps) ->
      exists ps', h1 !! p = Some (OPlain ps') /\
                  purchasedProduct_converted P ps ps'.
Proof.
  intros Hla Hrun. unfold convert_field in Hrun. simpl in Hrun.
  unfold array_map in Hrun. rewrite Hla in Hrun.
  apply bind_inv_val in Hrun as (es' & h1 & Hmap & Hrun).
  unfold alloc in Hrun. simplify_eq.
  apply (mapM_in_place (convert_purchasedProduct P) (purchasedProduct_props P))
    in Hmap as (-> & Hlen & Hall).
  - exists h1. rewrite Hlen. split_and!; try done.
    intros p ps Hp Hps. destruct (Hall p) as (Hin & _).
    destruct (Hin Hp ps Hps) as (ps' & HF & Hp').
    eauto using purchasedProduct_props_converted.
  - intros q ps h0 y h0' Hq Hy.
    rewrite (convert_purchasedProduct_plain _ _ _ _ Hq) in Hy.
    unfold purchasedProduct_props.
    destruct (id_in_place P "_id" ps) as [ps1 |]; [| done]. simpl.
    destruct (id_in_place P "productId" ps1) as [ps' |]; [| done].
    simplify_eq. eauto.
  - apply convert_purchasedProduct_other.
  - apply purchasedProduct_props_idem.
Qed.

(** X6: when a finite document with distinct keys is normalized, its
    [purchasedProducts] field being an array none of whose elements is
    shared with another field, the result holds under [purchasedProducts] a
    new array with the very elements of the input, in order.  Each element
    that is a stored document has been updated in place: its [_id] and
    [productId] fields hold the identifiers built from them when they were
    non-empty strings, and every other field is untouched. *)
Theorem purchasedProducts_converted_in_place P fuel n h l ps la es r h' :
  depth_within h (S n) (VRef l) = true ->
  h !! l = Some (OPlain ps) ->
  NoDup ps.*1 ->
  get_prop "purchasedProducts" ps = Some (VRef la) ->
  h !! la = Some (OArr es) ->
  unshared h n "purchasedProducts" ps es = true ->
  convertTypes P fuel (VRef l) h = Val r h' ->
  exists l' ps' la',
    r = VRef l' /\ h !! l' = None /\ h' !! l' = Some (OPlain ps') /\
    get_prop "purchasedProducts" ps' = Some (VRef la') /\
    h !! la' = None /\ h' !! la' = Some (OArr es) /\
    forall p qs, VRef p ∈ es -> h !! p = Some (OPlain qs) ->
      exists qs', h' !! p = Some (OPlain qs') /\
                  purchasedProduct_converted P qs qs'.
Proof.
  apply (field_elements_in_place P (purchasedProduct_converted P)); [done |].
  apply convert_field_purchasedProducts.
Qed.

Lemma purchasedProducts_converted_in_place_witness :
  exists l' ps' la',
    VRef 4 = VRef l' /\
    [OPlain [("_id", VStr "507f1f77bcf86cd799439011");
             ("productId", VStr "507f191e810c19729de860ea"); ("qty", VNum 2)];
     OArr [VRef 0];
     OPlain [("purchasedProducts", VRef 1); ("total", VNum 5)]] !! l' = None /\
    [OPlain [("_id", VOid "507f1f77bcf86cd799439011");
             ("productId", VOid "507f191e810c19729de860ea"); ("qty", VNum 2)];
     OArr [VRef 0];
     OPlain [("purchasedProducts", VRef 1); ("total", VNum 5)];
     OArr [VRef 0];
     OPlain [("purchasedProducts", VRef 3); ("total", VNum 5)]] !! l'
    = Some (OPlain ps') /\
    get_prop "purchasedProducts" ps' = Some (VRef la') /\
    [OPlain [("_id", VStr "507f1f77bcf86cd799439011");
             ("productId", VStr "507f191e810c19729de860ea"); ("qty", VNum 2)];
     OArr [VRef 0];
     OPlain [("purchasedProducts", VRef 1); ("total", VNum 5)]] !! la' = None /\
    [OPlain [("_id", VOid "507f1f77bcf86cd799439011");
             ("productId", VOid "507f191e810c19729de860ea"); ("qty", VNum 2)];
     OArr [VRef 0];
     OPlain [("purchasedProducts", VRef 1); ("total", VNum 5)];
     OArr [VRef 0];
     OPlain [("purchasedProducts", VRef 3); ("total", VNum 5)]] !! la'
    = Some (OArr [VRef 0]) /\
    forall p qs, VRef p ∈ [VRef 0] ->
      [OPlain [("_id", VStr "507f1f77bcf86cd799439011");
               ("productId", VStr "507f191e810c19729de860ea"); ("qty", VNum 2)];
       OArr [VRef 0];
       OPlain [("purchasedProducts", VRef 1); ("total", VNum 5)]] !! p
      = Some (OPlain qs) ->
      exists qs',
        [OPlain [("_id", VOid "507f1f77bcf86cd799439011");
                 ("productId", VOid "507f191e810c19729de860ea"); ("qty", VNum 2)];
         OArr [VRef 0];
         OPlain [("purchasedProducts", VRef 1); ("total", VNum 5)];
         OArr [VRef 0];
         OPlain [("purchasedProducts", VRef 3); ("total", VNum 5)]] !! p
        = Some (OPlain qs') /\
        purchasedProduct_converted Reference.platform qs qs'.
Proof.
  apply (purchasedProducts_converted_in_place Reference.platform 2 2
           [OPlain [("_id", VStr "507f1f77bcf86cd799439011");
                    ("productId", VStr "507f191e810c19729de860ea");
                    ("qty", VNum 2)];
            OArr [VRef 0];
            OPlain [("purchasedProducts", VRef 1); ("total", VNum 5)]]
           2 [("purchasedProducts", VRef 1); ("total", VNum 5)] 1 [VRef 0] (VRef 4)
           [OPlain [("_id", VOid "507f1f77bcf86cd799439011");
                    ("productId", VOid "507f191e810c19729de860ea");
                    ("qty", VNum 2)];
            OArr [VRef 0];
            OPlain [("purchasedProducts", VRef 1); ("total", VNum 5)];
            OArr [VRef 0];
            OPlain [("purchasedProducts", VRef 3); ("total", VNum 5)]]);
    try reflexivity.
  apply (bool_decide_unpack _). vm_compute. reflexivity.
Defined.

(** ** The exceptions of a conversion *)

Section Throws.

Variable P : Platform.
Variable Q : exn -> Prop.

Lemma throws_only_ret {A} (a : A) : throws_only Q (ret a).
Proof. by intros h e h'. Qed.

Lemma throws_only_bind {A B} (m : M A) (k : A -> M B) :
  throws_only Q m -> (forall a, throws_only Q (k a)) -> throws_only Q (bind m k).
Proof.
  intros Hm Hk h e h' Hrun. unfold bind in Hrun.
  destruct (m h) as [a h1 | e1 h1 |] eqn:Hmh; [| | done].
  - by eapply Hk.
  - simplify_eq. by eapply Hm.
Qed.

Lemma throws_only_mapM {A B} (f : A -> M B) xs :
  (forall x, throws_only Q (f x)) -> throws_only Q (mapM f xs).
Proof.
  intros Hf. induction xs as [| x xs IH]; [apply throws_only_ret |].
  change (mapM f (x :: xs))
    with (bind (f x) (fun y => bind (mapM f xs) (fun ys => ret (y :: ys)))).
  apply throws_only_bind; [done |]. intros y.
  apply throws_only_bind; [done |]. intros ys. apply throws_only_ret.
Qed.

Lemma throws_only_for_in {A} (body : string -> A -> M A) ks acc :
  (forall k a, throws_only Q (body k a)) -> throws_only Q (for_in body ks acc).
Proof.
  intros Hb. revert acc. induction ks as [| k ks IH]; intros acc; simpl;
    [apply throws_only_ret |].
  apply throws_only_bind; [done |]. intros a. apply IH.
Qed.

Hypothesis Q_TypeError : Q TypeError.
Hypothesis Q_BSONError : Q BSONError.

Lemma throws_only_get x k : throws_only Q (get x k).
Proof.
  intros h e h' Hrun. unfold get in Hrun.
  repeat (case_match; simplify_eq); done.
Qed.

Lemma throws_only_set x k v : throws_only Q (set x k v).
Proof.
  intros h e h' Hrun. unfold set in Hrun.
  repeat (case_match; simplify_eq); done.
Qed.

Lemma throws_only_hasOwnProperty x k : throws_only Q (hasOwnProperty x k).
Proof.
  intros h e h' Hrun. unfold hasOwnProperty in Hrun.
  repeat (case_match; simplify_eq); done.
Qed.

Lemma throws_only_isArray x : throws_only Q (isArray x).
Proof.
  intros h e h' Hrun. unfold isArray in Hrun.
  repeat (case_match; simplify_eq); done.
Qed.

Lemma throws_only_own_keys x : throws_only Q (own_keys x).
Proof.
  intros h e h' Hrun. unfold own_keys in Hrun.
  repeat (case_match; simplify_eq); done.
Qed.

Lemma throws_only_array_map f x :
  (forall y, throws_only Q (f y)) -> throws_only Q (array_map f x).
Proof.
  intros Hf h e h' Hrun. unfold array_map in Hrun.
  destruct x; simplify_eq; try done.
  destruct (h !! l) as [[ps | es] |]; simplify_eq; try done.
  revert Hrun. apply throws_only_bind; [by apply throws_only_mapM |].
  by intros es' h0 e0 h0'.
Qed.

Lemma throws_only_new_ObjectId s : throws_only Q (new_ObjectId P s).
Proof.
  intros h e h' Hrun. unfold new_ObjectId in Hrun.
  destruct (ObjectId_new P s); unfold ret, throw in Hrun; by simplify_eq.
Qed.

Lemma throws_only_convert_id_in_place x k :
  throws_only Q (convert_id_in_place P x k).
Proof.
  apply throws_only_bind; [apply throws_only_get |]. intros v.
  destruct v; try apply throws_only_ret.
  destruct (truthy (VStr s)); [| apply throws_only_ret].
  apply throws_only_bind; [apply throws_only_new_ObjectId |].
  intros o. apply throws_only_set.
Qed.

Lemma throws_only_convert_date_in_place x k :
  throws_only Q (convert_date_in_place P x k).
Proof.
  apply throws_only_bind; [apply throws_only_get |]. intros v.
  destruct v; try apply throws_only_ret.
  destruct (truthy (VStr s)); [apply throws_only_set | apply throws_only_ret].
Qed.

Lemma throws_only_convert_field rec key v :
  (forall x, throws_only Q (rec x)) -> throws_only Q (convert_field P rec key v).
Proof.
  intros Hrec. unfold convert_field.
  destruct (String.eqb key "name"); [apply throws_only_ret |].
  destruct (parses_as_date P v); [destruct v; apply throws_only_ret |].
  destruct (String.eqb key "_id" && bool_decide (typeof v = TyString)).
  { destruct v; try apply throws_only_ret. apply throws_only_new_ObjectId. }
  destruct (String.eqb key "payments").
  { apply throws_only_array_map. intros y.
    apply throws_only_bind; [apply throws_only_convert_id_in_place |]. intros _.
    apply throws_only_bind; [apply throws_only_convert_date_in_place |].
    intros _. apply throws_only_ret. }
  destruct (String.eqb key "purchasedProducts").
  { apply throws_only_array_map. intros y.
    apply throws_only_bind; [apply throws_only_convert_id_in_place |]. intros _.
    apply throws_only_bind; [apply throws_only_convert_id_in_place |].
    intros _. apply throws_only_ret. }
  apply throws_only_bind; [apply throws_only_isArray |]. intros [|]; [| done].
  apply throws_only_array_map. intros y. unfold convert_item.
  destruct y; try apply throws_only_ret.
  destruct (ObjectId_isValid P s);
    [apply throws_only_new_ObjectId | apply throws_only_ret].
Qed.

Lemma throws_only_convertTypes fuel data :
  throws_only Q (convertTypes P fuel data).
Proof.
  revert data. induction fuel as [| fuel IH]; intros data; [by intros h e h' |].
  simpl. apply throws_only_bind; [apply throws_only_isArray |].
  intros [|]; [by apply throws_only_array_map |].
  destruct (bool_decide (typeof data = TyObject) && negb (bool_decide (data = VNull)));
    [| apply throws_only_ret].
  apply throws_only_bind; [apply throws_only_own_keys |]. intros ks.
  apply throws_only_bind; [| by intros a h e h'].
  apply throws_only_for_in. intros k a. unfold convert_key.
  apply throws_only_bind; [apply throws_only_hasOwnProperty |].
  intros [|]; [| apply throws_only_ret].
  apply throws_only_bind; [apply throws_only_get |]. intros v.
  apply throws_only_bind; [by apply throws_only_convert_field |].
  intros v'. apply throws_only_ret.
Qed.

End Throws.

(** ** The recursion budget *)

Lemma extends_refl {A} (m : M A) : extends m m.
Proof. by intros h _. Qed.

Lemma extends_bind {A B} (m m' : M A) (k k' : A -> M B) :
  extends m m' -> (forall a, extends (k a) (k' a)) ->
  extends (bind m k) (bind m' k').
Proof.
  intros Hm Hk h Hna. unfold bind in *.
  destruct (m h) as [a h1 | e h1 |] eqn:Hmh; [| | done].
  - rewrite (Hm h) by by rewrite Hmh. rewrite Hmh. by apply Hk.
  - rewrite (Hm h) by by rewrite Hmh. by rewrite Hmh.
Qed.

Lemma extends_mapM {A B} (f f' : A -> M B) xs :
  (forall x, extends (f x) (f' x)) -> extends (mapM f xs) (mapM f' xs).
Proof.
  intros Hf. induction xs as [| x xs IH]; [apply extends_refl |].
  change (mapM f (x :: xs))
    with (bind (f x) (fun y => bind (mapM f xs) (fun ys => ret (y :: ys)))).
  change (mapM f' (x :: xs))
    with (bind (f' x) (fun y => bind (mapM f' xs) (fun ys => ret (y :: ys)))).
  apply extends_bind; [done |]. intros y.
  apply extends_bind; [done |]. intros ys. apply extends_refl.
Qed.

Lemma extends_for_in {A} (body body' : string -> A -> M A) ks acc :
  (forall k a, extends (body k a) (body' k a)) ->
  extends (for_in body ks acc) (for_in body' ks acc).
Proof.
  intros Hb. revert acc. induction ks as [| k ks IH]; intros acc; simpl;
    [apply extends_refl |].
  apply extends_bind; [done |]. intros a. apply IH.
Qed.

Lemma extends_array_map f f' x :
  (forall y, extends (f y) (f' y)) -> extends (array_map f x) (array_map f' x).
Proof.
  intros Hf h. unfold array_map. destruct x; try done.
  destruct (h !! l) as [[ps | es] |]; try done.
  apply extends_bind; [by apply extends_mapM |]. intros es'. apply extends_refl.
Qed.

Lemma extends_convert_field P rec rec' key v :
  (forall x, extends (rec x) (rec' x)) ->
  extends (convert_field P rec key v) (convert_field P rec' key v).
Proof.
  intros Hrec. unfold convert_field.
  repeat (case_match; try apply extends_refl).
  apply extends_bind; [apply extends_refl |]. intros [|]; [apply extends_refl | done].
Qed.

(** A larger budget changes nothing to a call that has a behaviour. *)
Lemma extends_convertTypes P fuel data :
  extends (convertTypes P fuel data) (convertTypes P (S fuel) data).
Proof.
  revert data. induction fuel as [| fuel IH]; intros data; [by intros h |].
  change (convertTypes P (S (S fuel)) data) with
    (run is_arr := isArray data in
     if is_arr then array_map (convertTypes P (S fuel)) data
     else if bool_decide (typeof data = TyObject) && negb (bool_decide (data = VNull))
     then
       run keys := own_keys data in
       run convertedData :=
         for_in (convert_key P (convertTypes P (S fuel)) data) keys [] in
       alloc (OPlain convertedData)
     else ret data).
  simpl. apply extends_bind; [apply extends_refl |].
  intros [|]; [by apply extends_array_map |].
  destruct (bool_decide (typeof data = TyObject) && negb (bool_decide (data = VNull)));
    [| apply extends_refl].
  apply extends_bind; [apply extends_refl |]. intros ks.
  apply extends_bind; [| intros; apply extends_refl].
  apply extends_for_in. intros k a. unfold convert_key.
  apply extends_bind; [apply extends_refl |]. intros [|]; [| apply extends_refl].
  apply extends_bind; [apply extends_refl |]. intros v.
  apply extends_bind; [by apply extends_convert_field |].
  intros v'. apply extends_refl.
Qed.

Lemma convertTypes_budget P n fuel data h :
  depth_within h n data = true -> (n < fuel)%nat ->
  convertTypes P fuel data h = convertTypes P (S n) data h.
Proof.
  intros Hd Hlt. pose proof (convertTypes_no_abort P n data h Hd) as Hna.
  replace fuel with (S n + (fuel - S n))%nat by lia.
  induction (fuel - S n)%nat as [| k IH]; [by rewrite Nat.add_0_r |].
  rewrite Nat.add_succ_r, extends_convertTypes; [done |]. by rewrite IH.
Qed.

(** X7: on a finite value, and with a stack deep enough for its nesting (in
    the model: a recursion budget above the depth of the value; the engine's
    [RangeError] on an exhausted stack is the case the model gives no
    behaviour to), a call of [convertTypes] returns, or throws a [TypeError]
    (a [map] or [hasOwnProperty] that is not a function, a property read on
    [null]) or the error of the [ObjectId] constructor: it throws nothing
    else. *)
Theorem convertTypes_throws P n fuel data h :
  depth_within h n data = true -> (n < fuel)%nat ->
  match convertTypes P fuel data h with
  | Val _ _ => True
  | Exn e _ => conversion_error e
  | Abort => False
  end.
Proof.
  intros Hd Hlt. rewrite (convertTypes_budget P n fuel data h Hd Hlt).
  pose proof (convertTypes_no_abort P n data h Hd) as Hna.
  destruct (convertTypes P (S n) data h) as [r h' | e h' |] eqn:Hrun; [done | | done].
  revert Hrun. apply (throws_only_convertTypes P conversion_error); [by left | by right].
Qed.

Lemma convertTypes_throws_witness :
  match convertTypes Reference.platform 5 (VRef 2)
          [OPlain [("productId", VStr "not-an-id")];
           OArr [VRef 0];
           OPlain [("purchasedProducts", VRef 1)]] with
  | Val _ _ => True
  | Exn e _ => conversion_error e
  | Abort => False
  end.
Proof.
  apply (convertTypes_throws Reference.platform 3 5 (VRef 2)
           [OPlain [("productId", VStr "not-an-id")];
            OArr [VRef 0];
            OPlain [("purchasedProducts", VRef 1)]]); [reflexivity | lia].
Defined.

(** X8: the recursion of [convertTypes] ends on every finite value: with a
    budget above the depth of the value the call returns or throws, and the
    outcome is the same for every such budget. *)
Theorem convertTypes_terminates P n data h :
  depth_within h n data = true ->
  no_abort (convertTypes P (S n) data h) /\
  forall fuel, (n < fuel)%nat ->
    convertTypes P fuel data h = convertTypes P (S n) data h.
Proof.
  intros Hd. pose proof (convertTypes_no_abort P n data h Hd) as Hna.
  split; [done |]. intros fuel Hlt.
  replace fuel with (S n + (fuel - S n))%nat by lia.
  induction (fuel - S n)%nat as [| k IH]; [by rewrite Nat.add_0_r |].
  rewrite Nat.add_succ_r, extends_convertTypes; [done |]. by rewrite IH.
Qed.

Lemma convertTypes_terminates_witness :
  no_abort (convertTypes Reference.platform 3 (VRef 1)
              [OArr [VStr "a"]; OPlain [("tags", VRef 0)]]) /\
  forall fuel, (2 < fuel)%nat ->
    convertTypes Reference.platform fuel (VRef 1)
      [OArr [VStr "a"]; OPlain [("tags", VRef 0)]]
    = convertTypes Reference.platform 3 (VRef 1)
        [OArr [VStr "a"]; OPlain [("tags", VRef 0)]].
Proof.
  apply (convertTypes_terminates Reference.platform 2 (VRef 1)
           [OArr [VStr "a"]; OPlain [("tags", VRef 0)]]).
  reflexivity.
Defined.

(** ** The run of [restoreBackup] *)

Section Run.

Variable P : Platform.
Variable E : Env.

(** The loop only adds events of progress to the trace. *)
Lemma restore_collection_trace fuel backupData name s :
  match restore_collection P E fuel backupData name s with
  | Done s' | Thrown _ s' =>
      exists ext, trace E s' = trace E s ++ ext /\ forallb progress ext = true
  | Aborted => True
  end.
Proof.
  unfold restore_collection, lift. destruct s as [h d t]. simpl.
  destruct (get backupData name h) as [c h1 | e h1 |]; simpl;
    [| by exists []; rewrite app_nil_r | done].
  destruct (get c "length" h1) as [len h2 | e h2 |]; simpl;
    [| by exists []; rewrite app_nil_r | done].
  destruct (bool_decide (len = VNum 0)); simpl; [by eexists [_] |].
  destruct (collection E d name); simpl; [by eexists [_] |].
  destruct (array_map (convertTypes P fuel) c h2) as [cd h3 | e h3 |]; simpl;
    [| by eexists [_] | done].
  destruct (insertMany E d name h3 cd) as [d' [e |]]; simpl;
    [eexists [_; _]; by rewrite <- app_assoc |].
  destruct (get cd "length" h3) as [n h4 | e h4 |]; simpl; [| | done].
  - eexists [_; _; _]. by rewrite <- !app_assoc.
  - eexists [_; _]. by rewrite <- !app_assoc.
Qed.

Lemma restore_loop_trace fuel backupData keys s :
  match restore_loop P E fuel backupData keys s with
  | Done s' | Thrown _ s' =>
      exists ext, trace E s' = trace E s ++ ext /\ forallb progress ext = true
  | Aborted => True
  end.
Proof.
  revert s. induction keys as [| k keys IH]; intros s; simpl.
  - exists []. by rewrite app_nil_r.
  - pose proof (restore_collection_trace fuel backupData k s) as Hk.
    destruct (restore_collection P E fuel backupData k s) as [s1 | e s1 |];
      [| done | done].
    destruct Hk as (ext1 & Ht1 & Hp1). specialize (IH s1).
    destruct (restore_loop P E fuel backupData keys s1) as [s2 | e s2 |];
      [| | done]; destruct IH as (ext2 & Ht2 & Hp2); exists (ext1 ++ ext2);
      rewrite Ht2, Ht1, <- app_assoc, forallb_app, Hp1, Hp2; done.
Qed.

(** What a run leaves in the store keeps the backup finite. *)
Lemma get_depth_within x k h n v h' :
  depth_within h n x = true -> get x k h = Val v h' ->
  depth_within h n v = true.
Proof.
  intros Hd Hget. unfold get in Hget. destruct x; simplify_eq;
    try by destruct n.
  - destruct (String.eqb k "length"); simplify_eq; [by destruct n |].
    destruct (index_of k (String.length s) ≫= string_nth s); simpl;
      by destruct n.
  - apply depth_within_ref in Hd as (n' & o & -> & Hl & Hall).
    rewrite Hl in Hget.
    assert (forall c, c ∈ children o -> depth_within h (S n') c = true) as Hc.
    { intros c Hc. eapply depth_within_mono; [| apply Nat.le_succ_diag_r].
      by eapply Forall_forall in Hall. }
    destruct o as [ps | es]; simpl in *.
    + simplify_eq. destruct (get_prop k ps) as [c |] eqn:Hg; [| done].
      simpl. apply Hc. by eapply get_prop_values.
    + destruct (String.eqb k "length"); simplify_eq; [done |].
      destruct (index_of k (length es)) as [i |]; simpl; [| done].
      destruct (es !! i) as [c |] eqn:Hi; simpl; [| done].
      apply Hc. by eapply list_elem_of_lookup_2.
Qed.

Lemma array_map_val f x h r h' :
  array_map f x h = Val r h' -> allocated h' r.
Proof.
  unfold array_map. destruct x; try done.
  destruct (h !! l) as [[ps | es] |]; try done.
  intros (es' & h1 & _ & Hr)%bind_inv_val. unfold alloc in Hr.
  simplify_eq. simpl. rewrite lookup_app_r, Nat.sub_diag by done. eauto.
Qed.

Lemma restore_collection_no_abort n h0 backupData name s :
  depth_within h0 n backupData = true -> stable P h0 (store E s) ->
  match restore_collection P E (S n) backupData name s with
  | Done s' | Thrown _ s' => stable P h0 (store E s')
  | Aborted => False
  end.
Proof.
  intros Hd Hs. unfold restore_collection, lift. destruct s as [h d t].
  cbn [store database trace emit with_store] in *.
  pose proof (depth_within_stable P _ _ _ _ Hs Hd) as Hd1.
  pose proof (get_no_abort backupData name h (depth_within_allocated _ _ _ Hd1))
    as Hg.
  destruct (get backupData name h) as [c h1 | e h1 |] eqn:Hget; cbn [store database trace emit with_store];
    [| by apply get_exn_store in Hget as -> | done].
  pose proof (get_store _ _ _ _ _ Hget) as ->.
  pose proof (get_depth_within _ _ _ _ _ _ Hd1 Hget) as Hc.
  pose proof (get_no_abort c "length" h (depth_within_allocated _ _ _ Hc)) as Hg2.
  destruct (get c "length" h) as [len h2 | e h2 |] eqn:Hlen; cbn [store database trace emit with_store];
    [| by apply get_exn_store in Hlen as -> | done].
  pose proof (get_store _ _ _ _ _ Hlen) as ->.
  destruct (bool_decide (len = VNum 0)); cbn [store database trace emit with_store]; [done |].
  destruct (collection E d name); cbn [store database trace emit with_store]; [done |].
  pose proof (frames_array_map P (convertTypes P (S n)) c
                (frames_convertTypes P (S n)) h) as Hf.
  assert (no_abort (array_map (convertTypes P (S n)) c h)) as Hna.
  { apply (array_map_no_abort P);
      [by eapply depth_within_allocated | apply frames_convertTypes |].
    intros [l es] y h' -> Hl Hy Hs'. simpl in *.
    apply convertTypes_no_abort. eapply depth_within_stable; [done |].
    apply depth_within_ref in Hc as (n' & o & -> & Hl' & Hall).
    pose proof (eq_trans (eq_sym Hl') Hl) as Ho. simplify_eq. simpl in Hall.
    eapply depth_within_mono; [| apply Nat.le_succ_diag_r].
    by eapply Forall_forall in Hall. }
  destruct (array_map (convertTypes P (S n)) c h) as [cd h3 | e h3 |] eqn:Hmap;
    cbn [store database trace emit with_store]; [| by eapply stable_trans | done].
  assert (stable P h0 h3) as Hs3 by by eapply stable_trans.
  destruct (insertMany E d name h3 cd) as [d' [e |]]; cbn [store database trace emit with_store]; [done |].
  pose proof (get_no_abort cd "length" h3 (array_map_val _ _ _ _ _ Hmap)) as Hg3.
  destruct (get cd "length" h3) as [m h4 | e h4 |] eqn:Hlen3; cbn [store database trace emit with_store];
    [| by apply get_exn_store in Hlen3 as -> | done].
  by pose proof (get_store _ _ _ _ _ Hlen3) as ->.
Qed.

Lemma restore_loop_no_abort n h0 backupData keys s :
  depth_within h0 n backupData = true -> stable P h0 (store E s) ->
  restore_loop P E (S n) backupData keys s <> Aborted.
Proof.
  intros Hd. revert s. induction keys as [| k keys IH]; intros s Hs; simpl;
    [done |].
  pose proof (restore_collection_no_abort n h0 backupData k s Hd Hs) as Hk.
  destruct (restore_collection P E (S n) backupData k s) as [s1 | e s1 |];
    [by apply IH | done | done].
Qed.

End Run.

(** X9: whenever the client could be constructed, a run of [restoreBackup]
    consists of events of progress, then exactly one verdict (the line of
    success that ends the [try] block, or the one error line of the [catch]
    block), then the one call of [client.close()].  The promise is rejected
    only when [close] fails, with its error: a failure of the restoration
    itself is logged and the promise is resolved.  When the constructor
    throws, which happens outside the [try] block, the promise is rejected
    and nothing is logged or closed. *)
Theorem restoreBackup_run P E fuel backupFilePath dbUri dbName p :
  restoreBackup P E fuel backupFilePath dbUri dbName = Some p ->
  match client_new E dbUri with
  | Some e => p = Rejected e []
  | None =>
      exists t verdict,
        forallb progress t = true /\
        (verdict = Success_completed \/ exists e, verdict = Error_restoration e) /\
        p = match close E dbUri with
            | Some e => Rejected e (t ++ [verdict; Call_close])
            | None => Resolved (t ++ [verdict; Call_close; Info_closed])
            end
  end.
Proof.
  unfold restoreBackup, finish. intros Hrun.
  destruct (client_new E dbUri); [by simplify_eq |].
  destruct (connect E dbUri) as [e |].
  { simplify_eq.
    exists [Info_connecting dbUri; Call_connect dbUri], (Error_restoration e).
    split_and!; [done | eauto |]. by destruct (close E dbUri). }
  destruct (open_db E dbUri dbName) as [e | d].
  { simplify_eq.
    exists [Info_connecting dbUri; Call_connect dbUri; Info_connected],
      (Error_restoration e).
    split_and!; [done | eauto |]. by destruct (close E dbUri). }
  destruct (require E backupFilePath) as [e | j].
  { simplify_eq.
    exists [Info_connecting dbUri; Call_connect dbUri; Info_connected;
            Info_reading backupFilePath], (Error_restoration e).
    split_and!; [done | eauto |]. by destruct (close E dbUri). }
  destruct ((run backupData := load j in
             run keys := own_keys backupData in ret (backupData, keys)) [])
    as [[backupData keys] h | |]; [| done | done].
  pose proof (restore_loop_trace P E fuel backupData keys
                {| store := h; database := d;
                   trace := [Info_connecting dbUri; Call_connect dbUri;
                             Info_connected; Info_reading backupFilePath] |}) as Ht.
  destruct (restore_loop P E fuel backupData keys _) as [s | e s |]; [| | done];
    destruct Ht as (ext & Ht & Hp); simpl in Ht; simplify_eq; rewrite Ht.
  - exists ([Info_connecting dbUri; Call_connect dbUri; Info_connected;
             Info_reading backupFilePath] ++ ext), Success_completed.
    split_and!; [| eauto |].
    + by rewrite forallb_app, Hp.
    + destruct (close E dbUri); simpl; by rewrite <- ?app_assoc.
  - exists ([Info_connecting dbUri; Call_connect dbUri; Info_connected;
             Info_reading backupFilePath] ++ ext), (Error_restoration e).
    split_and!; [| eauto |].
    + by rewrite forallb_app, Hp.
    + destruct (close E dbUri); simpl; by rewrite <- ?app_assoc.
Qed.

Lemma restoreBackup_run_witness :
  exists t verdict,
    forallb progress t = true /\
    (verdict = Success_completed \/ exists e, verdict = Error_restoration e) /\
    Resolved [Info_connecting "mongodb://db"; Call_connect "mongodb://db";
              Info_connected; Info_reading "missing.json";
              Error_restoration ModuleError; Call_close; Info_closed]
    = Resolved (t ++ [verdict; Call_close; Info_closed]).
Proof.
  apply (restoreBackup_run Reference.platform (Example.env "none") 1
           "missing.json" "mongodb://db" "shop"
           (Resolved [Info_connecting "mongodb://db"; Call_connect "mongodb://db";
                      Info_connected; Info_reading "missing.json";
                      Error_restoration ModuleError; Call_close; Info_closed])).
  reflexivity.
Defined.

(** X10: provided every awaited call (the driver's [connect], [insertMany]
    and [close]) settles, with a result or with an error, [restoreBackup]
    itself settles on every backup file: with a recursion budget above the
    nesting depth of the parsed file, neither the loop over the collections
    nor the recursion of [convertTypes] on their documents fails to end,
    whatever the file contains and whatever the driver answers.  (A call
    that never settles is not a behaviour of the model: the environment
    answers each call.) *)
Theorem restoreBackup_terminates P E fuel backupFilePath dbUri dbName :
  (forall j, require E backupFilePath = inr j -> (json_depth j < fuel)%nat) ->
  is_Some (restoreBackup P E fuel backupFilePath dbUri dbName).
Proof.
  intros Hfuel. unfold restoreBackup.
  destruct (client_new E dbUri); [done |].
  destruct (connect E dbUri); [done |].
  destruct (open_db E dbUri dbName) as [e | d]; [done |].
  destruct (require E backupFilePath) as [e | j]; [done |].
  specialize (Hfuel j eq_refl).
  destruct (load_depth_within j []) as (v & ext & Hload & Hd). simpl in *.
  rewrite (bind_val _ _ _ _ _ Hload).
  assert (exists keys, own_keys v ext = Val keys ext) as [keys Hkeys].
  { apply depth_within_allocated in Hd. unfold own_keys.
    destruct v; simpl in *; eauto.
    destruct Hd as [o ->]. destruct o; eauto. }
  rewrite (bind_val _ _ _ _ _ Hkeys). unfold ret.
  destruct fuel as [| n]; [lia |].
  assert (depth_within ext n v = true) as Hdn
    by (eapply depth_within_mono; [done | lia]).
  pose proof (restore_loop_no_abort P E n ext v keys
                {| store := ext; database := d;
                   trace := [Info_connecting dbUri; Call_connect dbUri;
                             Info_connected; Info_reading backupFilePath] |}
                Hdn (stable_refl P ext)) as Hna.
  by destruct (restore_loop P E (S n) v keys _).
Qed.

Lemma restoreBackup_terminates_witness :
  is_Some (restoreBackup Reference.platform (Example.env "orders") 4
             "backup.json" "mongodb://db" "shop").
Proof.
  apply (restoreBackup_terminates Reference.platform (Example.env "orders") 4
           "backup.json" "mongodb://db" "shop").
  intros j Hj. simpl in Hj. injection Hj as <-. vm_compute. lia.
Defined.



(** ** The entry point *)

Lemma load_truthy j h v h' : load j h = Val v h' -> truthy v = json_truthy j.
Proof.
  destruct j; simpl; unfold ret; try (intros; by simplify_eq).
  - intros (vs & h1 & _ & Hr)%bind_inv_val. unfold alloc in Hr. by simplify_eq.
  - intros (ps & h1 & _ & Hr)%bind_inv_val. unfold alloc in Hr. by simplify_eq.
Qed.

(** The fields of a parsed object, as [get] finds them. *)
Lemma mapM_load_fields fields h ps h' :
  mapM (fun kj : string * json => run v := load kj.2 in ret (kj.1, v)) fields h
  = Val ps h' ->
  Forall2 (fun (kj : string * json) (kv : string * jsvalue) =>
             kv.1 = kj.1 /\ forall s, kj.2 = JStr s -> kv.2 = VStr s) fields ps.
Proof.
  revert h ps. induction fields as [| [k j] fields IH]; intros h ps Hrun;
    simpl in Hrun.
  - unfold ret in Hrun. simplify_eq. constructor.
  - apply bind_inv_val in Hrun as ([k' v] & h1 & Hv & Hrun).
    apply bind_inv_val in Hrun as (ps' & h2 & Hps & Hrun).
    unfold ret in Hrun. simplify_eq.
    apply bind_inv_val in Hv as (v0 & h0 & Hv & Hr). unfold ret in Hr.
    simplify_eq. constructor; [| by eapply IH]. split; [done |].
    simpl. intros s ->. simpl in Hv. unfold ret in Hv. by simplify_eq.
Qed.

Lemma foldl_set_prop_field fields ps acc key :
  Forall2 (fun (kj : string * json) (kv : string * jsvalue) =>
             kv.1 = kj.1 /\ forall s, kj.2 = JStr s -> kv.2 = VStr s) fields ps ->
  match json_field key fields with
  | Some j =>
      exists v, get_prop key (foldl (fun acc kv => set_prop kv.1 kv.2 acc) acc ps)
                = Some v /\ forall s, j = JStr s -> v = VStr s
  | None =>
      get_prop key (foldl (fun acc kv => set_prop kv.1 kv.2 acc) acc ps)
      = get_prop key acc
  end.
Proof.
  intros HF. revert acc.
  induction HF as [| [k j] [k' v] fields ps [Hk Hv] _ IH]; intros acc; simpl;
    [done |].
  simpl in Hk, Hv. subst k'. specialize (IH (set_prop k v acc)).
  destruct (json_field key fields) as [j' |]; [done |].
  destruct (String.eqb_spec key k) as [-> | Hne].
  - rewrite get_prop_set_eq in IH. eauto.
  - by rewrite get_prop_set_ne in IH.
Qed.

Section EntryFacts.

Variable P : Platform.
Variable W : World.

(** The questions [main] asks for a loaded configuration. *)
Lemma main_asks j has questions answers h :
  (run config := load j in
   run defaults := (if truthy config then ret config else alloc (OPlain [])) in
   run asked := getUserInput W defaults in
   ret (truthy config, asked)) [] = Val (has, (questions, answers)) h ->
  has = json_truthy j /\ answers = prompt W questions /\
  (json_truthy j = false ->
   questions = question_list W (VStr "") (VStr "") (VStr "")) /\
  (forall fields, j = JObj fields ->
     (forall k, k ∈ ["backupFilePath"; "dbUri"; "dbName"] ->
        match json_field k fields with
        | Some (JStr _) | None => True
        | _ => False
        end) ->
     questions = question_list W
                   (default_of (json_field "backupFilePath" fields))
                   (default_of (json_field "dbUri" fields))
                   (default_of (json_field "dbName" fields))).
Proof.
  intros Hrun.
  apply bind_inv_val in Hrun as (c & h1 & Hload & Hrun).
  apply bind_inv_val in Hrun as (d & h2 & Hd & Hrun).
  apply bind_inv_val in Hrun as ([qs ans] & h3 & Hq & Hrun).
  unfold ret in Hrun. simplify_eq.
  pose proof (load_truthy _ _ _ _ Hload) as Ht.
  unfold getUserInput in Hq.
  apply bind_inv_val in Hq as (d' & h4 & Hd' & Hq).
  apply bind_inv_val in Hq as (v1 & h5 & H1 & Hq).
  apply bind_inv_val in Hq as (v2 & h6 & H2 & Hq).
  apply bind_inv_val in Hq as (v3 & h7 & H3 & Hq).
  unfold ret in Hq. simplify_eq.
  pose proof (get_store _ _ _ _ _ H1) as ->.
  pose proof (get_store _ _ _ _ _ H2) as ->.
  pose proof (get_store _ _ _ _ _ H3) as ->.
  split_and!; [done | done | |].
  - intros Hfalse. rewrite Hfalse in Ht. rewrite Ht in Hd.
    unfold alloc in Hd. simplify_eq. simpl in Hd'. unfold ret in Hd'.
    simplify_eq.
    assert ((h1 ++ [OPlain []]) !! length h1 = Some (OPlain [])) as Hl
      by by rewrite lookup_app_r, Nat.sub_diag.
    rewrite (get_plain _ _ _ _ Hl) in H1.
    rewrite (get_plain _ _ _ _ Hl) in H2.
    rewrite (get_plain _ _ _ _ Hl) in H3.
    by simplify_eq.
  - intros fields -> Hfields. simpl in Ht. rewrite Ht in Hd. unfold ret in Hd.
    simplify_eq.
    simpl in Hload. apply bind_inv_val in Hload as (ps & h0 & Hps & Hr).
    unfold alloc in Hr. simplify_eq. simpl in Hd'. unfold ret in Hd'.
    simplify_eq.
    match type of H1 with
    | get _ _ (_ ++ [?o]) = _ =>
        assert ((h0 ++ [o]) !! length h0 = Some o) as Hl
          by by rewrite lookup_app_r, Nat.sub_diag
    end.
    rewrite (get_plain _ _ _ _ Hl) in H1.
    rewrite (get_plain _ _ _ _ Hl) in H2.
    rewrite (get_plain _ _ _ _ Hl) in H3.
    apply mapM_load_fields in Hps.
    assert (forall k, k ∈ ["backupFilePath"; "dbUri"; "dbName"] ->
              or_else (default VUndefined
                         (get_prop k (foldl (fun acc kv => set_prop kv.1 kv.2 acc)
                                        [] ps))) (VStr "")
              = default_of (json_field k fields)) as Hdef.
    { intros k Hk. specialize (Hfields k Hk).
      pose proof (foldl_set_prop_field fields ps [] k Hps) as Hg.
      destruct (json_field k fields) as [j |].
      - destruct j; try done. destruct Hg as (v & -> & Hv).
        rewrite (Hv s eq_refl). simpl. unfold or_else. simpl.
        by destruct (String.eqb_spec s "") as [-> |].
      - rewrite Hg. done. }
    simplify_eq. by rewrite !Hdef by repeat constructor.
Qed.

End EntryFacts.

Ltac elems :=
  repeat match goal with
         | H : _ ∈ _ ++ _ |- _ => apply elem_of_app in H as [H | H]
         | H : _ ∈ _ :: _ |- _ => apply elem_of_cons in H as [H | H]
         | H : _ ∈ [] |- _ => by apply elem_of_nil in H
         end;
  simplify_eq; try done.

Ltac asked H Hask :=
  match type of H with
  | context [match ?c with Val _ _ => _ | _ => _ end] =>
      destruct c as [[? [? ?]] ? | |] eqn:Hask; [| done | done]
  end.

(** The end of [main]: the test of the backup file and the restoration. *)
Lemma main_tail P W fuel path uri name f1 t1 (failed : option string) f' t r :
  Restoration r ∉ t1 -> Restoration r ∈ t ->
  match failed with
  | Some m => Some (f1, t1 ++ [Error_went_wrong (Message m)])
  | None =>
      if existsSync W f1 path then
        match restoreBackup P (backend W f1) fuel path uri name with
        | Some (Resolved r) => Some (f1, t1 ++ [Restoration r])
        | Some (Rejected e r) =>
            Some (f1, t1 ++ [Restoration r;
                             Error_went_wrong (Restoration_rejected e)])
        | None => None
        end
      else Some (f1, t1 ++ [Error_not_found path])
  end = Some (f', t) ->
  existsSync W f' path = true /\
  exists p, restoreBackup P (backend W f') fuel path uri name = Some p /\
            (p = Resolved r \/ exists e, p = Rejected e r).
Proof.
  intros Hnot Hin Hrest.
  destruct failed; [simplify_eq; elems |].
  destruct (existsSync W f1 path) eqn:Hex; [| simplify_eq; elems].
  destruct (restoreBackup P (backend W f1) fuel path uri name)
    as [[r' | e r'] |] eqn:Hr; [| | done].
  - simplify_eq. elems. split; [done |]. eexists. split; [done |]. by left.
  - simplify_eq. elems. split; [done |]. eexists. split; [done |].
    right. by eexists.
Qed.

(** X12: [main] starts a restoration only for a backup file that exists
    when it checks, after the configuration was saved if it had to be: for
    a path that does not exist no client is constructed and nothing is
    sent. *)
Theorem main_checks_backup_file P W fuel f f' t r :
  main P W fuel f = Some (f', t) ->
  Restoration r ∈ t ->
  exists questions backupFilePath dbUri dbName p,
    prompt W questions = Ok (backupFilePath, dbUri, dbName) /\
    existsSync W f' backupFilePath = true /\
    restoreBackup P (backend W f') fuel backupFilePath dbUri dbName = Some p /\
    (p = Resolved r \/ exists e, p = Rejected e r).
Proof.
  unfold main. intros Hrun Hin.
  destruct (loadConfig W f) as [j | m]; [| simplify_eq; elems].
  asked Hrun Hask. apply main_asks in Hask as (-> & -> & _ & _).
  destruct (prompt W _) as [[[path uri] name] | m] eqn:Hp;
    [| simplify_eq; simpl in Hin; elems].
  destruct (json_truthy j).
  - destruct (main_tail P W fuel path uri name f [Asked l] None f' t r)
      as (Hex & p & Hp' & Hr); [intros ?; elems | done | done |].
    by exists l, path, uri, name, p.
  - destruct (saveConfig W _ f) as [f1 [m |]] eqn:Hsave.
    + simplify_eq. simpl in Hin. elems.
    + eapply (main_tail P W fuel path uri name f1 _ None f' t r) in Hrun
        as (Hex & p & Hp' & Hr); [| intros ?; simpl in *; elems | done].
      by exists l, path, uri, name, p.
Qed.

Lemma main_checks_backup_file_witness :
  exists questions backupFilePath dbUri dbName p,
    prompt Session.world questions = Ok (backupFilePath, dbUri, dbName) /\
    existsSync Session.world
      [("/app/config.json", "saved"); ("backup.json", "{}")] backupFilePath
    = true /\
    restoreBackup Reference.platform
      (backend Session.world [("/app/config.json", "saved"); ("backup.json", "{}")])
      3 backupFilePath dbUri dbName = Some p /\
    (p = Resolved [Info_connecting "mongodb://db"; Call_connect "mongodb://db";
                   Info_connected; Info_reading "backup.json";
                   Warn_no_data "archive"; Success_completed; Call_close;
                   Info_closed]
     \/ exists e,
         p = Rejected e [Info_connecting "mongodb://db";
                         Call_connect "mongodb://db"; Info_connected;
                         Info_reading "backup.json"; Warn_no_data "archive";
                         Success_completed; Call_close; Info_closed]).
Proof.
  apply (main_checks_backup_file Reference.platform Session.world 3
           [("backup.json", "{}")]
           [("/app/config.json", "saved"); ("backup.json", "{}")]
           [Asked (question_list Session.world (VStr "") (VStr "") (VStr ""));
            Call_writeFileSync "/app/config.json" "saved"; Info_config_saved;
            Restoration [Info_connecting "mongodb://db";
                         Call_connect "mongodb://db"; Info_connected;
                         Info_reading "backup.json"; Warn_no_data "archive";
                         Success_completed; Call_close; Info_closed]]).
  - reflexivity.
  - repeat constructor.
Defined.

(** X13: when a configuration was loaded (any parsed value that is not
    falsy), [main] leaves the file system as it found it: the
    configuration file is not written again, whatever the answers to the
    questions, and nothing announces a saved configuration. *)
Theorem config_kept P W fuel f j f' t :
  loadConfig W f = Ok j -> json_truthy j = true ->
  main P W fuel f = Some (f', t) ->
  f' = f /\ (Info_config_saved ∉ t) /\
  forall path text, Call_writeFileSync path text ∉ t.
Proof.
  unfold main. intros -> Htrue Hrun.
  asked Hrun Hask. apply main_asks in Hask as (-> & -> & _ & _).
  rewrite Htrue in Hrun.
  destruct (prompt W _) as [[[path uri] name] | m].
  - destruct (existsSync W f path).
    + destruct (restoreBackup P (backend W f) fuel path uri name)
        as [[r | e r] |]; [| | done]; simplify_eq;
        (split_and!; [done | intros ?; elems | intros ? ? ?; elems]).
    + simplify_eq. split_and!; [done | intros ?; elems | intros ? ? ?; elems].
  - simplify_eq. split_and!; [done | intros ?; elems | intros ? ? ?; elems].
Qed.

Lemma config_kept_witness :
  [("/app/config.json", "saved")] = [("/app/config.json", "saved")] /\
  (Info_config_saved ∉
     [Asked (question_list Session.world (VStr "backup.json")
               (VStr "mongodb://db") (VStr "shop"));
      Error_not_found "backup.json"]) /\
  forall path text,
    Call_writeFileSync path text ∉
      [Asked (question_list Session.world (VStr "backup.json")
                (VStr "mongodb://db") (VStr "shop"));
       Error_not_found "backup.json"].
Proof.
  apply (config_kept Reference.platform Session.world 3
           [("/app/config.json", "saved")] Session.saved
           [("/app/config.json", "saved")]); reflexivity.
Defined.

(** X14: when no configuration was loaded (no file, or a file holding a
    falsy value), [main] writes the answers to the configuration file as
    soon as it has them, as the object of the three strings
    [backupFilePath], [dbUri] and [dbName] in that order: before it checks
    that the backup file exists, so also when it does not. *)
Theorem first_run_saves_answers P W fuel f j a b c f' t :
  loadConfig W f = Ok j -> json_truthy j = false ->
  prompt W (question_list W (VStr "") (VStr "") (VStr "")) = Ok (a, b, c) ->
  main P W fuel f = Some (f', t) ->
  f' = (saveConfig W
          (JObj [("backupFilePath", JStr a); ("dbUri", JStr b);
                 ("dbName", JStr c)]) f).1 /\
  exists t',
    t = Asked (question_list W (VStr "") (VStr "") (VStr ""))
        :: Call_writeFileSync (CONFIG_FILE W)
             (JSON_stringify W
                (JObj [("backupFilePath", JStr a); ("dbUri", JStr b);
                       ("dbName", JStr c)])) :: t'.
Proof.
  unfold main. intros -> Hfalse Hp Hrun.
  asked Hrun Hask. apply main_asks in Hask as (-> & -> & Hqs & _).
  rewrite (Hqs Hfalse), Hp, Hfalse in Hrun.
  destruct (saveConfig W _ f) as [f1 [m |]]; simpl in *.
  - simplify_eq. eauto.
  - destruct (existsSync W f1 a).
    + destruct (restoreBackup P (backend W f1) fuel a b c) as [[r | e r] |];
        [| | done]; simplify_eq; eauto.
    + simplify_eq. eauto.
Qed.

Lemma first_run_saves_answers_witness :
  [("/app/config.json", "saved")]
  = (saveConfig Session.world
       (JObj [("backupFilePath", JStr "backup.json");
              ("dbUri", JStr "mongodb://db"); ("dbName", JStr "shop")]) []).1 /\
  exists t',
    [Asked (question_list Session.world (VStr "") (VStr "") (VStr ""));
     Call_writeFileSync "/app/config.json" "saved"; Info_config_saved;
     Error_not_found "backup.json"]
    = Asked (question_list Session.world (VStr "") (VStr "") (VStr ""))
      :: Call_writeFileSync (CONFIG_FILE Session.world)
           (JSON_stringify Session.world
              (JObj [("backupFilePath", JStr "backup.json");
                     ("dbUri", JStr "mongodb://db"); ("dbName", JStr "shop")]))
      :: t'.
Proof.
  apply (first_run_saves_answers Reference.platform Session.world 3 []
           JNull "backup.json" "mongodb://db" "shop"
           [("/app/config.json", "saved")]
           [Asked (question_list Session.world (VStr "") (VStr "") (VStr ""));
            Call_writeFileSync "/app/config.json" "saved"; Info_config_saved;
            Error_not_found "backup.json"]); reflexivity.
Defined.

(** X15: the defaults of the three questions are the strings the loaded
    configuration holds under [backupFilePath], [dbUri] and [dbName] (for a
    repeated key, the last one), and the empty string for a field that is
    missing. *)
Theorem defaults_from_config P W fuel f fields f' t :
  loadConfig W f = Ok (JObj fields) ->
  (forall k, k ∈ ["backupFilePath"; "dbUri"; "dbName"] ->
     match json_field k fields with
     | Some (JStr _) | None => True
     | _ => False
     end) ->
  main P W fuel f = Some (f', t) ->
  exists t',
    t = Asked (question_list W
                 (default_of (json_field "backupFilePath" fields))
                 (default_of (json_field "dbUri" fields))
                 (default_of (json_field "dbName" fields))) :: t'.
Proof.
  unfold main. intros -> Hfields Hrun.
  asked Hrun Hask. apply main_asks in Hask as (-> & -> & _ & Hqs).
  rewrite (Hqs fields eq_refl Hfields) in Hrun. simpl in Hrun.
  destruct (prompt W _) as [[[path uri] name] | m]; [| simplify_eq; eauto].
  destruct (existsSync W f path); [| simplify_eq; eauto].
  destruct (restoreBackup P (backend W f) fuel path uri name) as [[r | e r] |];
    [| | done]; simplify_eq; eauto.
Qed.

Lemma defaults_from_config_witness :
  exists t',
    [Asked (question_list Session.world (VStr "backup.json")
              (VStr "mongodb://db") (VStr "shop"));
     Error_not_found "backup.json"]
    = Asked (question_list Session.world
               (default_of (json_field "backupFilePath"
                              [("backupFilePath", JStr "backup.json");
                               ("dbUri", JStr "mongodb://db");
                               ("dbName", JStr "shop")]))
               (default_of (json_field "dbUri"
                              [("backupFilePath", JStr "backup.json");
                               ("dbUri", JStr "mongodb://db");
                               ("dbName", JStr "shop")]))
               (default_of (json_field "dbName"
                              [("backupFilePath", JStr "backup.json");
                               ("dbUri", JStr "mongodb://db");
                               ("dbName", JStr "shop")]))) :: t'.
Proof.
  apply (defaults_from_config Reference.platform Session.world 3
           [("/app/config.json", "saved")]
           [("backupFilePath", JStr "backup.json"); ("dbUri", JStr "mongodb://db");
            ("dbName", JStr "shop")]
           [("/app/config.json", "saved")]).
  - reflexivity.
  - intros k Hk. repeat (apply elem_of_cons in Hk as [-> | Hk]; [done |]).
    by apply elem_of_nil in Hk.
  - reflexivity.
Defined.

(** X16: a configuration file that exists but cannot be read or parsed
    stops [main] at once: the error is shown, no question is asked, nothing
    is written and no restoration is started. *)
Theorem unreadable_config_stops P W fuel f m :
  existsSync W f (CONFIG_FILE W) = true ->
  readFileSync W f (CONFIG_FILE W) = Throws m \/
  (exists configData,
      readFileSync W f (CONFIG_FILE W) = Ok configData /\
      JSON_parse W configData = Throws m) ->
  main P W fuel f = Some (f, [Error_went_wrong (Message m)]).
Proof.
  intros Hex Hcase. unfold main, loadConfig. rewrite Hex.
  destruct Hcase as [-> | (configData & -> & ->)]; done.
Qed.

Lemma unreadable_config_stops_witness :
  main Reference.platform Session.world 3 [("/app/config.json", "oops")]
  = Some ([("/app/config.json", "oops")],
          [Error_went_wrong (Message "Unexpected token")]).
Proof.
  apply (unreadable_config_stops Reference.platform Session.world 3
           [("/app/config.json", "oops")] "Unexpected token").
  - reflexivity.
  - right. exists "oops". split; reflexivity.
Defined.

(** X17: what [main] saves on a first run is what it offers on the next
    one.  On a file system that gives back what was written to it (after a
    successful write the file exists and reading it returns the text
    written), and with a [JSON.parse] that inverts [JSON.stringify] on the
    object of the three answers: when a run that loaded no configuration
    reports that the configuration was saved, the run that follows it asks
    its questions with the answers of the first run as defaults, and leaves
    the file system as it is. *)
Theorem saved_answers_are_next_defaults P W fuel f j a b c f1 t1 fuel' f2 t2 :
  (forall g path text g',
      writeFileSync W g path text = (g', None) ->
      existsSync W g' path = true /\ readFileSync W g' path = Ok text) ->
  JSON_parse W
    (JSON_stringify W
       (JObj [("backupFilePath", JStr a); ("dbUri", JStr b); ("dbName", JStr c)]))
  = Ok (JObj [("backupFilePath", JStr a); ("dbUri", JStr b); ("dbName", JStr c)]) ->
  loadConfig W f = Ok j -> json_truthy j = false ->
  prompt W (question_list W (VStr "") (VStr "") (VStr "")) = Ok (a, b, c) ->
  main P W fuel f = Some (f1, t1) ->
  Info_config_saved ∈ t1 ->
  main P W fuel' f1 = Some (f2, t2) ->
  f2 = f1 /\
  exists t', t2 = Asked (question_list W (VStr a) (VStr b) (VStr c)) :: t'.
Proof.
  intros Hfs Hparse Hload Hfalse Hp Hrun1 Hsaved Hrun2.
  assert (existsSync W f1 (CONFIG_FILE W) = true /\
          readFileSync W f1 (CONFIG_FILE W)
          = Ok (JSON_stringify W
                  (JObj [("backupFilePath", JStr a); ("dbUri", JStr b);
                         ("dbName", JStr c)]))) as [Hex Hread].
  { unfold main in Hrun1. rewrite Hload in Hrun1.
    asked Hrun1 Hask. apply main_asks in Hask as (-> & -> & Hqs & _).
    rewrite (Hqs Hfalse), Hp, Hfalse in Hrun1. unfold saveConfig in Hrun1.
    destruct (writeFileSync W f (CONFIG_FILE W) _) as [g [m |]] eqn:Hw;
      simpl in *.
    { simplify_eq. elems. }
    assert (f1 = g) as ->; [| by eapply Hfs].
    destruct (existsSync W g a); [| by simplify_eq].
    destruct (restoreBackup P (backend W g) fuel a b c) as [[r | e r] |];
      [| | done]; by simplify_eq. }
  assert (loadConfig W f1
          = Ok (JObj [("backupFilePath", JStr a); ("dbUri", JStr b);
                      ("dbName", JStr c)])) as Hload2.
  { unfold loadConfig. by rewrite Hex, Hread. }
  split.
  - unfold main in Hrun2. rewrite Hload2 in Hrun2.
    asked Hrun2 Hask. apply main_asks in Hask as (-> & -> & _ & _).
    simpl in Hrun2.
    destruct (prompt W l) as [[[path uri] name] | m]; [| by simplify_eq].
    destruct (existsSync W f1 path); [| by simplify_eq].
    destruct (restoreBackup P (backend W f1) fuel' path uri name)
      as [[r | e r] |]; [| | done]; by simplify_eq.
  - unfold main in Hrun2. rewrite Hload2 in Hrun2.
    asked Hrun2 Hask. apply main_asks in Hask as (-> & -> & _ & Hqs).
    rewrite (Hqs _ eq_refl) in Hrun2.
    2: { intros k Hk. repeat (apply elem_of_cons in Hk as [-> | Hk]; [done |]).
         by apply elem_of_nil in Hk. }
    simpl in Hrun2.
    destruct (prompt W (question_list W (VStr a) (VStr b) (VStr c)))
      as [[[path uri] name] | m]; [| simplify_eq; eauto].
    destruct (existsSync W f1 path); [| simplify_eq; eauto].
    destruct (restoreBackup P (backend W f1) fuel' path uri name)
      as [[r | e r] |]; [| | done]; simplify_eq; eauto.
Qed.

Lemma saved_answers_are_next_defaults_witness :
  [("/app/config.json", "saved")] = [("/app/config.json", "saved")] /\
  exists t',
    [Asked (question_list Session.world (VStr "backup.json")
              (VStr "mongodb://db") (VStr "shop"));
     Error_not_found "backup.json"]
    = Asked (question_list Session.world (VStr "backup.json")
               (VStr "mongodb://db") (VStr "shop")) :: t'.
Proof.
  apply (saved_answers_are_next_defaults Reference.platform Session.world 3 []
           JNull "backup.json" "mongodb://db" "shop"
           [("/app/config.json", "saved")]
           [Asked (question_list Session.world (VStr "") (VStr "") (VStr ""));
            Call_writeFileSync "/app/config.json" "saved"; Info_config_saved;
            Error_not_found "backup.json"]
           3 [("/app/config.json", "saved")]); try reflexivity.
  - intros g path text g' Hw. simpl in Hw. injection Hw as <-. simpl. split.
    + apply bool_decide_eq_true_2, elem_of_cons. by left.
    + by rewrite decide_True.
  - apply elem_of_cons. right. apply elem_of_cons. right.
    apply elem_of_cons. by left.
Defined.



(** ** The collections of a successful run *)

(** In a turn of the loop that ends normally, the collection was sent to
    the server exactly when it holds documents in the backup. *)
Lemma restore_collection_sent P E fuel n h0 l ps name s s' :
  depth_within h0 n (VRef l) = true ->
  h0 !! l = Some (OPlain ps) ->
  stable P h0 (store E s) ->
  restore_collection P E fuel (VRef l) name s = Done s' ->
  stable P h0 (store E s') /\
  exists ext,
    trace E s' = trace E s ++ ext /\ omap handled ext = [name] /\
    omap sent ext = if has_documents h0 ps name then [name] else [].
Proof.
  intros Hd Hl Hs. unfold restore_collection, lift. destruct s as [h d t].
  cbn [store database trace emit with_store] in *.
  destruct (stable_plain P _ _ _ _ Hs Hl) as (psa & Hla & He).
  rewrite (get_plain _ _ _ _ Hla). cbn [store database trace emit with_store].
  destruct (get (default VUndefined (get_prop name psa)) "length" h)
    as [len h1 | |] eqn:Hlen; [| done | done].
  pose proof (get_store _ _ _ _ _ Hlen) as ->.
  cbn [store database trace emit with_store].
  destruct (bool_decide (len = VNum 0)) eqn:Hzero.
  { intros [= <-]. split; [done |]. exists [Warn_no_data name].
    split_and!; [done | done |]. simpl.
    assert (has_documents h0 ps name = false) as ->; [| done].
    unfold has_documents.
    destruct (get_prop name ps) as [v0 |] eqn:Hv0; [| done].
    destruct v0 as [| | | | | | | la]; try done.
    destruct (h0 !! la) as [[qs | [| x es]] |] eqn:Hla0; try done. exfalso.
    destruct (evolves_get_prop P _ _ _ _ He Hv0) as (w & Hw & [-> | Hty]);
      [| by apply typed_of_string in Hty as [? ?]].
    pose proof (stable_array P _ _ _ _ Hs Hla0) as Hla1.
    rewrite Hw in Hlen. simpl in Hlen. unfold get in Hlen. rewrite Hla1 in Hlen.
    simpl in Hlen. apply bool_decide_eq_true in Hzero. subst len.
    unfold nat_num in Hlen. injection Hlen as Hlen. lia. }
  cbn [store database trace emit with_store].
  destruct (collection E d name); [done |].
  destruct (array_map (convertTypes P fuel) _ h) as [cd h3 | |] eqn:Hmap;
    [| done | done].
  cbn [store database trace emit with_store].
  destruct (insertMany E d name h3 cd) as [d' [e |]]; [done |].
  cbn [store database trace emit with_store].
  destruct (get cd "length" h3) as [n' h4 | |] eqn:Hn; [| done | done].
  pose proof (get_store _ _ _ _ _ Hn) as ->.
  intros [= <-]. cbn [store database trace emit with_store]. split.
  { pose proof (frames_array_map P (convertTypes P fuel)
                  (default VUndefined (get_prop name psa))
                  (frames_convertTypes P fuel) h) as Hf.
    rewrite Hmap in Hf. by eapply stable_trans. }
  exists [Info_restoring name len; Call_insertMany name cd;
          Success_restored name n'].
  split_and!; [by rewrite <- !app_assoc | done |]. simpl.
  assert (has_documents h0 ps name = true) as ->; [| done].
  unfold array_map in Hmap.
  destruct (get_prop name psa) as [w |] eqn:Hw; [| done]. simpl in *.
  destruct w as [| | | | | | | la]; try done.
  destruct (h !! la) as [[qs | es] |] eqn:Hla1; try done.
  destruct (get_prop name ps) as [v0 |] eqn:Hv0;
    [| by rewrite (evolves_get_prop_none P _ _ _ He Hv0) in Hw].
  destruct (evolves_get_prop P _ _ _ _ He Hv0) as (w & Hw' & Hor).
  rewrite Hw in Hw'. injection Hw' as <-.
  destruct Hor as [<- | Hty];
    [| by pose proof (typed_of_leaf P _ _ _ h 0%nat Hty)].
  unfold has_documents. rewrite Hv0.
  apply depth_within_ref in Hd as (m & o & -> & Hl' & Hall).
  rewrite Hl in Hl'. injection Hl' as <-. simpl in Hall.
  eapply Forall_forall in Hall; [| by eapply get_prop_values].
  apply depth_within_allocated in Hall as [o Ho].
  destruct (Hs _ _ Ho) as (o' & Ho' & Hev). rewrite Hla1 in Ho'.
  injection Ho' as <-. destruct o as [qs | es0]; [done |]. simpl in Hev.
  subst es0. rewrite Ho. unfold get in Hlen. rewrite Hla1 in Hlen.
  simpl in Hlen. injection Hlen as <-.
  destruct es; [| done]. by apply bool_decide_eq_false in Hzero.
Qed.

Lemma restore_loop_sent P E fuel n h0 l ps keys s s' :
  depth_within h0 n (VRef l) = true ->
  h0 !! l = Some (OPlain ps) ->
  stable P h0 (store E s) ->
  restore_loop P E fuel (VRef l) keys s = Done s' ->
  exists ext,
    trace E s' = trace E s ++ ext /\ omap handled ext = keys /\
    omap sent ext = List.filter (has_documents h0 ps) keys.
Proof.
  intros Hd Hl. revert s. induction keys as [| k keys IH]; intros s Hs; simpl.
  - intros [= <-]. exists []. by rewrite app_nil_r.
  - destruct (restore_collection P E fuel (VRef l) k s) as [s1 | |] eqn:Hk;
      [| done | done].
    intros Hrest.
    destruct (restore_collection_sent P E fuel n h0 l ps k s s1 Hd Hl Hs Hk)
      as (Hs1 & ext1 & Ht1 & Hh1 & Hsent1).
    destruct (IH _ Hs1 Hrest) as (ext2 & Ht2 & Hh2 & Hsent2).
    exists (ext1 ++ ext2).
    rewrite Ht2, Ht1, <- app_assoc, !omap_app, Hh1, Hh2, Hsent1, Hsent2.
    split_and!; [done | done |]. by destruct (has_documents h0 ps k).
Qed.

(** X19: a run of [restoreBackup] on a backup object that reports that the
    restoration completed has dealt with every collection of the backup,
    each one once and in the order in which the engine enumerates the keys
    of the parsed object (the order of [for-in], not always that of the
    file): it was either skipped as empty or reported as restored.  And it
    has called [insertMany] once for each collection that is an array with
    at least one element in the backup, for those only and in the same
    order: no collection with documents was skipped. *)
Theorem every_collection_handled P E fuel backupFilePath dbUri dbName p j l h ps :
  restoreBackup P E fuel backupFilePath dbUri dbName = Some p ->
  require E backupFilePath = inr j ->
  load j [] = Val (VRef l) h ->
  h !! l = Some (OPlain ps) ->
  Success_completed ∈ events p ->
  omap handled (events p) = ps.*1 /\
  omap sent (events p) = List.filter (has_documents h ps) ps.*1.
Proof.
  unfold restoreBackup, finish. intros Hrun Hreq Hload Hl Hin.
  destruct (client_new E dbUri) as [e0 |]; [simplify_eq; simpl in Hin; elems |].
  destruct (connect E dbUri) as [e1 |].
  { simplify_eq. destruct (close E dbUri); simpl in Hin; elems. }
  destruct (open_db E dbUri dbName) as [e2 | d].
  { simplify_eq. destruct (close E dbUri); simpl in Hin; elems. }
  rewrite Hreq in Hrun. rewrite (bind_val _ _ _ _ _ Hload) in Hrun.
  unfold bind, own_keys, ret in Hrun. rewrite Hl in Hrun.
  destruct (load_depth_within j []) as (v & ext & Hload' & Hd).
  rewrite Hload in Hload'. simpl in Hload'. injection Hload' as <- <-.
  simpl in Hd.
  pose proof (restore_loop_trace P E fuel (VRef l) ps.*1
                {| store := h; database := d;
                   trace := [Info_connecting dbUri; Call_connect dbUri;
                             Info_connected; Info_reading backupFilePath] |})
    as Ht.
  destruct (restore_loop P E fuel (VRef l) ps.*1 _) as [s | e s |] eqn:Hloop;
    [| | done].
  - apply (restore_loop_sent P E fuel _ h l ps _ _ _ Hd Hl) in Hloop
      as (ext' & Hext & Hh & Hsent); [| apply stable_refl].
    simpl in Hext. simplify_eq. rewrite Hext.
    destruct (close E dbUri); simpl; rewrite !omap_app, Hh, Hsent; simpl;
      by rewrite ?app_nil_r.
  - destruct Ht as (ext' & Hext & Hp). simpl in Hext. simplify_eq.
    assert (Success_completed ∉ ext') as Hno.
    { intros Hs. rewrite forallb_forall in Hp.
      by pose proof (Hp _ (proj1 (list_elem_of_In _ _) Hs)). }
    rewrite Hext in Hin.
    destruct (close E dbUri); simpl in Hin; elems.
Qed.

Lemma every_collection_handled_witness :
  let p :=
    Resolved [Info_connecting "mongodb://db"; Call_connect "mongodb://db";
              Info_connected; Info_reading "backup.json";
              Info_restoring "orders" (VNum 1);
              Call_insertMany "orders" (VRef 7);
              Success_restored "orders" (VNum 1); Warn_no_data "archive";
              Info_restoring "users" (VNum 1);
              Call_insertMany "users" (VRef 9);
              Success_restored "users" (VNum 1); Success_completed;
              Call_close; Info_closed] in
  omap handled (events p) = ["orders"; "archive"; "users"] /\
  omap sent (events p) = ["orders"; "users"].
Proof.
  intros p.
  apply (every_collection_handled Reference.platform (Example.env "none") 4
           "backup.json" "mongodb://db" "shop" p Example.backup 5
           [OPlain [("total", VNum 3)]; OArr [VRef 0]; OArr [];
            OPlain [("_id", VStr "507f1f77bcf86cd799439011");
                    ("name", VStr "Alice");
                    ("createdAt", VStr "2023-01-01T00:00:00Z")];
            OArr [VRef 3];
            OPlain [("orders", VRef 1); ("archive", VRef 2); ("users", VRef 4)]]
           [("orders", VRef 1); ("archive", VRef 2); ("users", VRef 4)]);
    try reflexivity.
  simpl. repeat constructor.
Defined.
